(** * UDP peer discovery of xchain (package [discover], file udp.go)

    A shallow embedding of the discovery transport: the wire codec
    ([encodePacket] / [decodePacket]), the eight packet handlers, the
    dispatcher [handlePacket] and the pending-reply event loop, followed
    by the properties of the written specification that concern them. *)

From Stdlib Require Import ZArith List Lia Bool Permutation Sorted.
From Stdlib.Strings Require Import Byte.
From Stdlib.Strings Require String.
Import String.StringSyntax.
Delimit Scope string_scope with string.
Import ListNotations.
Open Scope Z_scope.

Set Implicit Arguments.

(* ================================================================== *)
(** * Bytes and Go strings *)
(* ================================================================== *)

(** Go's [[]byte] and [string] are both sequences of bytes; a conversion
    between the two copies the bytes unchanged. *)
Definition bytes := list byte.

Definition b2z (b : byte) : Z := Z.of_N (Byte.to_N b).

Definition z2b (z : Z) : byte :=
  match Byte.of_N (Z.to_N (z mod 256)) with
  | Some b => b
  | None => x00
  end.

Definition len (A : Type) (l : list A) : Z := Z.of_nat (length l).

Definition str (s : String.string) : bytes := String.list_byte_of_string s.
Arguments str s%_string.

Definition bytes_eqb (a b : bytes) : bool :=
  if list_eq_dec Byte.byte_eq_dec a b then true else false.

(** [dst[lo:hi]]-style helpers.  [slice_from n l] is [l[n:]] and
    [slice_to n l] is [l[:n]] for [0 <= n <= len l]. *)
Definition slice_from (A : Type) (n : Z) (l : list A) : list A := skipn (Z.to_nat n) l.
Definition slice_to (A : Type) (n : Z) (l : list A) : list A := firstn (Z.to_nat n) l.

(** Go's builtin [copy(dst, src)]: overwrites the first
    [min(len dst, len src)] elements of [dst]. *)
Definition go_copy (dst src : bytes) : bytes :=
  firstn (length dst) src ++ skipn (length src) dst.

(** [copy(packet[off:], src)] seen from [packet]. *)
Definition copy_at (off : Z) (packet src : bytes) : bytes :=
  slice_to off packet ++ go_copy (slice_from off packet) src.

(** Option bind, used by the decoders (every rlp error is a [None]). *)
Notation "x <- a ;; b" :=
  (match a with Some x => b | None => None end)
  (right associativity, at level 60, a at next level, only parsing).
Notation "' p <- a ;; b" :=
  (match a with Some p => b | None => None end)
  (right associativity, at level 60, p pattern, a at next level, only parsing).

(* ------------------------------------------------------------------ *)
(** ** strings.Split and strconv.Atoi, fmt's %d *)

(** [strings.Split(s, sep)] for a one-byte separator: the fields between
    the separators, always at least one. *)
Fixpoint Split (sep : byte) (s : bytes) : list bytes :=
  match s with
  | [] => [[]]
  | c :: t =>
      if Byte.eqb c sep then [] :: Split sep t
      else match Split sep t with
           | f :: fs => (c :: f) :: fs
           | [] => [[c]]
           end
  end.

Definition is_digit (c : byte) : Prop := 48 <= b2z c <= 57.

Definition digit_val (c : byte) : option Z :=
  let v := b2z c - 48 in
  if (0 <=? v) && (v <=? 9) then Some v else None.

(** The digit loop of Atoi / ParseUint in base 10: [None] on an empty
    input or a byte that is not a decimal digit. *)
Fixpoint parse_digits_from (acc : Z) (s : bytes) : option Z :=
  match s with
  | [] => Some acc
  | c :: t => d <- digit_val c ;; parse_digits_from (acc * 10 + d) t
  end.

Definition parse_digits (s : bytes) : option Z :=
  match s with
  | [] => None
  | _ => parse_digits_from 0 s
  end.

Definition minInt64 : Z := - 2 ^ 63.
Definition maxInt64 : Z := 2 ^ 63 - 1.

(** [strconv.Atoi] on a 64-bit platform: an optional sign, then decimal
    digits; values outside the int range are an error. *)
Definition Atoi (s : bytes) : option Z :=
  match s with
  | [] => None
  | c :: t =>
      let '(neg, ds) :=
        if Byte.eqb c "-"%byte then (true, t)
        else if Byte.eqb c "+"%byte then (false, t)
        else (false, s) in
      n <- parse_digits ds ;;
      let v := if neg then - n else n in
      if (minInt64 <=? v) && (v <=? maxInt64) then Some v else None
  end.

(** Conversions between Go's fixed-width integers. *)
Definition to_uint64 (z : Z) : Z := z mod 2 ^ 64.
Definition to_uint16 (z : Z) : Z := z mod 2 ^ 16.
Definition to_int64 (z : Z) : Z := (z + 2 ^ 63) mod 2 ^ 64 - 2 ^ 63.

Fixpoint dec_digits (fuel : nat) (n : Z) (acc : bytes) : bytes :=
  match fuel with
  | O => acc
  | S f =>
      let acc' := z2b (48 + n mod 10) :: acc in
      if n <? 10 then acc' else dec_digits f (n / 10) acc'
  end.

(** [fmt.Sprintf("%d", n)] for an unsigned [n] (at most 20 digits for a
    uint64). *)
Definition fmt_d (n : Z) : bytes := dec_digits 20 n [].

(* ================================================================== *)
(** * RLP, as the rlp package encodes and decodes the packet structs *)
(* ================================================================== *)

Module RLP.

(** [putint]: the minimal big-endian form of a uint64, one byte at least. *)
Fixpoint be_digits (fuel : nat) (i : Z) : bytes :=
  match fuel with
  | O => []
  | S f => if i =? 0 then [] else be_digits f (i / 256) ++ [z2b (i mod 256)]
  end.

Definition putint (i : Z) : bytes :=
  if i <? 256 then [z2b i] else be_digits 8 i.

Definition be_value (bs : bytes) : Z :=
  fold_left (fun a b => a * 256 + b2z b) bs 0.

(** [puthead]: the header of a string ([0x80], [0xB7]) or of a list
    ([0xC0], [0xF7]) with a payload of [size] bytes. *)
Definition puthead (smalltag largetag size : Z) : bytes :=
  if size <? 56 then [z2b (smalltag + size)]
  else let sz := putint size in z2b (largetag + len sz) :: sz.

Definition enc_string (b : bytes) : bytes :=
  match b with
  | [x] => if b2z x <=? 127 then [x] else puthead 128 183 1 ++ b
  | _ => puthead 128 183 (len b) ++ b
  end.

Definition enc_uint (i : Z) : bytes :=
  if i =? 0 then [x80]
  else if i <? 128 then [z2b i]
  else let s := putint i in z2b (128 + len s) :: s.

Definition enc_list (payload : bytes) : bytes :=
  puthead 192 247 (len payload) ++ payload.

(** *** The stream decoder *)

Inductive Kind := KByte | KString | KList.

(** The size that follows a long header: [n] bytes, big endian, without
    a leading zero and not below 56. *)
Definition readSize (n : Z) (s : bytes) : option (Z * bytes) :=
  let n' := Z.to_nat n in
  if Nat.ltb (length s) n' then None
  else
    let sz := firstn n' s in
    match sz with
    | [] => None
    | b :: _ =>
        if b2z b =? 0 then None
        else let v := be_value sz in
             if v <? 56 then None else Some (v, skipn n' s)
    end.

(** [Stream.Kind]: kind and size of the next value and the input after
    its header.  For [KByte] the number returned is the byte itself.  A
    value larger than the remaining input is an error. *)
Definition readKind (s : bytes) : option (Kind * Z * bytes) :=
  match s with
  | [] => None
  | b :: t =>
      let v := b2z b in
      if v <? 128 then Some (KByte, v, t)
      else if v <? 184 then
        if len t <? v - 128 then None else Some (KString, v - 128, t)
      else if v <? 192 then
        '(size, r) <- readSize (v - 183) t ;;
        if len r <? size then None else Some (KString, size, r)
      else if v <? 248 then
        if len t <? v - 192 then None else Some (KList, v - 192, t)
      else
        '(size, r) <- readSize (v - 247) t ;;
        if len r <? size then None else Some (KList, size, r)
  end.

(** [Stream.Uint] for a [maxbytes]-byte unsigned integer. *)
Definition dec_uint (maxbytes : Z) (s : bytes) : option (Z * bytes) :=
  '(k, n, r) <- readKind s ;;
  match k with
  | KByte => if n =? 0 then None else Some (n, r)
  | KString =>
      if maxbytes <? n then None
      else
        let body := slice_to n r in
        match body with
        | [] => Some (0, r)
        | b :: _ =>
            if b2z b =? 0 then None
            else if (n =? 1) && (b2z b <? 128) then None
            else Some (be_value body, slice_from n r)
        end
  | KList => None
  end.

(** [Stream.Bytes]. *)
Definition dec_bytes (s : bytes) : option (bytes * bytes) :=
  '(k, n, r) <- readKind s ;;
  match k with
  | KByte => Some ([z2b n], r)
  | KString =>
      let body := slice_to n r in
      match body with
      | [b] => if b2z b <? 128 then None else Some (body, slice_from n r)
      | _ => Some (body, slice_from n r)
      end
  | KList => None
  end.

(** Decoding into a byte array of [alen] bytes ([alen >= 2] here). *)
Definition dec_array (alen : Z) (s : bytes) : option (bytes * bytes) :=
  '(k, n, r) <- readKind s ;;
  match k with
  | KByte => None
  | KString =>
      if n =? alen then Some (slice_to n r, slice_from n r) else None
  | KList => None
  end.

(** [Stream.List] followed by the matching [ListEnd]: the payload of the
    list and the input after it. *)
Definition dec_list (s : bytes) : option (bytes * bytes) :=
  '(k, n, r) <- readKind s ;;
  match k with
  | KList => Some (slice_to n r, slice_from n r)
  | _ => None
  end.

(** A raw value keeps its header byte apart from what follows it: the
    decoder never yields an empty one, and the handlers use [v[1:]]. *)
Record RawValue := mkRaw { raw_hd : byte; raw_tl : bytes }.

Definition raw_bytes (r : RawValue) : bytes := raw_hd r :: raw_tl r.

(** [Stream.Raw]: the bytes of the next value, header included. *)
Definition dec_raw (s : bytes) : option (RawValue * bytes) :=
  '(k, n, r) <- readKind s ;;
  match s with
  | [] => None
  | h :: t =>
      match k with
      | KByte => Some (mkRaw h [], r)
      | _ =>
          let total := (length t - length r + Z.to_nat n)%nat in
          Some (mkRaw h (firstn total t), skipn total t)
      end
  end.

(** The tail of a struct: raw values until the list is exhausted. *)
Fixpoint dec_tail (fuel : nat) (s : bytes) : option (list RawValue) :=
  match s with
  | [] => Some []
  | _ =>
      match fuel with
      | O => None
      | S f =>
          '(v, r) <- dec_raw s ;;
          vs <- dec_tail f r ;;
          Some (v :: vs)
      end
  end.

Definition enc_tail (rest : list RawValue) : bytes :=
  concat (map raw_bytes rest).

(** A struct without a tail must use up its list. *)
Definition at_end (A : Type) (v : A) (s : bytes) : option A :=
  match s with
  | [] => Some v
  | _ => None
  end.

End RLP.

Import RLP.

(* ================================================================== *)
(** * Errors, packet types and the request structures *)
(* ================================================================== *)

(** The error values of the file.  [errAlienSeen] is the error made in
    place by [handlePacket] ("Node seen before as alien node"),
    [errUnknownType] the one made by [decodePacket]; [errRecover],
    [errSign] and [errDecode] stand for the errors handed back by
    [recoverNodeID], [crypto.Sign] and the rlp stream. *)
Inductive error :=
| errPacketTooSmall
| errBadHash
| errExpired
| errUnsolicitedReply
| errUnknownNode
| errTimeout
| errClockWarp
| errClosed
| errAlienSeen
| errUnknownType (ptype : byte)
| errRecover
| errSign
| errDecode.

(** Durations and instants of the event loop are counted in
    nanoseconds, like [time.Duration]. *)
Definition Millisecond : Z := 1000000.
Definition Second : Z := 1000 * Millisecond.
Definition Minute : Z := 60 * Second.

Definition respTimeout : Z := 500 * Millisecond.
Definition expiration : Z := 20 * Second.
Definition ntpFailureThreshold : Z := 32.
Definition ntpWarningCooldown : Z := 10 * Minute.

Definition PINGPACKET : byte := x01.
Definition PONGPACKET : byte := x02.
Definition FINDNODEPACKET : byte := x03.
Definition NEIGHBORSPACKET : byte := x04.
Definition STOREPACKET : byte := x05.
Definition STOREREPLYPACKET : byte := x06.
Definition FINDVALUEPACKET : byte := x07.
Definition FINDVALUEREPLYPACKET : byte := x08.

(** [NodeID] is a 64-byte array; the zero value [NodeID{}] is all zero. *)
Definition NodeID := bytes.
Definition NodeID_zero : NodeID := repeat x00 64.
Definition NodeID_eqb (a b : NodeID) : bool := bytes_eqb a b.

Record rpcEndpoint := mkEndpoint {
  ep_IP : bytes;
  ep_UDP : Z;
  ep_TCP : Z }.

Record ping := mkPing {
  ping_Version : Z;
  ping_From : rpcEndpoint;
  ping_To : rpcEndpoint;
  ping_Expiration : Z;
  ping_Rest : list RawValue }.

Record pong := mkPong {
  pong_To : rpcEndpoint;
  pong_ReplyTok : bytes;
  pong_Expiration : Z;
  pong_Rest : list RawValue }.

Record findnode := mkFindnode {
  findnode_Target : NodeID;
  findnode_Expiration : Z;
  findnode_Rest : list RawValue }.

Record store := mkStore {
  store_Key : NodeID;
  store_From : rpcEndpoint;
  store_Expiration : Z;
  store_Value : bytes }.

(** [result] is spelled in lower case in the source: the field is not
    exported. *)
Record storeReply := mkStoreReply {
  storeReply_Expiration : Z;
  storeReply_result : bool }.

Record findvalue := mkFindvalue {
  findvalue_Key : NodeID;
  findvalue_Expiration : Z }.

Record findvalueReply := mkFindvalueReply {
  findvalueReply_Key : bytes;
  findvalueReply_Value : bytes;
  findvalueReply_Expiration : Z }.

(** The last four fields are not exported either; the pointers are
    options. *)
Record rpcNode := mkRpcNode {
  rn_IP : bytes;
  rn_UDP : Z;
  rn_TCP : Z;
  rn_ID : NodeID;
  rn_beneficialAddress : option bytes;
  rn_serviceCfg : option bytes;
  rn_showToPublic : bool;
  rn_ip : option bytes }.

Record neighbors := mkNeighbors {
  neighbors_Nodes : list rpcNode;
  neighbors_Expiration : Z;
  neighbors_Rest : list RawValue }.

(** The values behind the [packet] interface. *)
Inductive packet :=
| Ping (p : ping)
| Pong (p : pong)
| Findnode (p : findnode)
| Neighbors (p : neighbors)
| Store (p : store)
| StoreReply (p : storeReply)
| Findvalue (p : findvalue)
| FindvalueReply (p : findvalueReply).

Definition name (p : packet) : bytes :=
  match p with
  | Ping _ => str "PING/v4"
  | Pong _ => str "PONG/v4"
  | Findnode _ => str "FINDNODE/v4"
  | Neighbors _ => str "NEIGHBORS/v4"
  | Store _ => str "STORE/v4"
  | StoreReply _ => str "STOREREPLY/v4"
  | Findvalue _ => str "FINDVALUE/v4"
  | FindvalueReply _ => str "FINDVALUEREPLY/v4"
  end.

Definition Expiration_of (p : packet) : Z :=
  match p with
  | Ping q => ping_Expiration q
  | Pong q => pong_Expiration q
  | Findnode q => findnode_Expiration q
  | Neighbors q => neighbors_Expiration q
  | Store q => store_Expiration q
  | StoreReply q => storeReply_Expiration q
  | Findvalue q => findvalue_Expiration q
  | FindvalueReply q => findvalueReply_Expiration q
  end.

(* ------------------------------------------------------------------ *)
(** ** The rlp form of the structs

    The rlp package writes a struct as the list of its exported fields
    in declaration order; a field tagged [rlp:"tail"] contributes its
    elements one after the other; fields that are not exported are
    skipped by the encoder and left at their zero value by the decoder. *)

Definition enc_endpoint (e : rpcEndpoint) : bytes :=
  enc_list (enc_string (ep_IP e) ++ enc_uint (ep_UDP e) ++ enc_uint (ep_TCP e)).

Definition enc_rpcNode (n : rpcNode) : bytes :=
  enc_list (enc_string (rn_IP n) ++ enc_uint (rn_UDP n) ++ enc_uint (rn_TCP n)
            ++ enc_string (rn_ID n)).

Definition rlp_encode (req : packet) : bytes :=
  match req with
  | Ping p =>
      enc_list (enc_uint (ping_Version p) ++ enc_endpoint (ping_From p)
                ++ enc_endpoint (ping_To p) ++ enc_uint (ping_Expiration p)
                ++ enc_tail (ping_Rest p))
  | Pong p =>
      enc_list (enc_endpoint (pong_To p) ++ enc_string (pong_ReplyTok p)
                ++ enc_uint (pong_Expiration p) ++ enc_tail (pong_Rest p))
  | Findnode p =>
      enc_list (enc_string (findnode_Target p) ++ enc_uint (findnode_Expiration p)
                ++ enc_tail (findnode_Rest p))
  | Neighbors p =>
      enc_list (enc_list (concat (map enc_rpcNode (neighbors_Nodes p)))
                ++ enc_uint (neighbors_Expiration p)
                ++ enc_tail (neighbors_Rest p))
  | Store p =>
      enc_list (enc_string (store_Key p) ++ enc_endpoint (store_From p)
                ++ enc_uint (store_Expiration p) ++ enc_string (store_Value p))
  | StoreReply p =>
      enc_list (enc_uint (storeReply_Expiration p))
  | Findvalue p =>
      enc_list (enc_string (findvalue_Key p) ++ enc_uint (findvalue_Expiration p))
  | FindvalueReply p =>
      enc_list (enc_string (findvalueReply_Key p)
                ++ enc_string (findvalueReply_Value p)
                ++ enc_uint (findvalueReply_Expiration p))
  end.

Definition dec_endpoint (s : bytes) : option (rpcEndpoint * bytes) :=
  '(pl, r) <- dec_list s ;;
  '(ip, s1) <- dec_bytes pl ;;
  '(udp, s2) <- dec_uint 2 s1 ;;
  '(tcp, s3) <- dec_uint 2 s2 ;;
  e <- at_end (mkEndpoint ip udp tcp) s3 ;;
  Some (e, r).

Definition dec_rpcNode (s : bytes) : option (rpcNode * bytes) :=
  '(pl, r) <- dec_list s ;;
  '(ip, s1) <- dec_bytes pl ;;
  '(udp, s2) <- dec_uint 2 s1 ;;
  '(tcp, s3) <- dec_uint 2 s2 ;;
  '(id, s4) <- dec_array 64 s3 ;;
  n <- at_end (mkRpcNode ip udp tcp id None None false None) s4 ;;
  Some (n, r).

(** A slice of structs: elements until the list is exhausted. *)
Fixpoint dec_rpcNodes (fuel : nat) (s : bytes) : option (list rpcNode) :=
  match s with
  | [] => Some []
  | _ =>
      match fuel with
      | O => None
      | S f =>
          '(n, r) <- dec_rpcNode s ;;
          ns <- dec_rpcNodes f r ;;
          Some (n :: ns)
      end
  end.

Definition dec_ping (s : bytes) : option ping :=
  '(pl, _) <- dec_list s ;;
  '(v, s1) <- dec_uint 8 pl ;;
  '(from, s2) <- dec_endpoint s1 ;;
  '(to, s3) <- dec_endpoint s2 ;;
  '(e, s4) <- dec_uint 8 s3 ;;
  rest <- dec_tail (length s4) s4 ;;
  Some (mkPing v from to e rest).

Definition dec_pong (s : bytes) : option pong :=
  '(pl, _) <- dec_list s ;;
  '(to, s1) <- dec_endpoint pl ;;
  '(tok, s2) <- dec_bytes s1 ;;
  '(e, s3) <- dec_uint 8 s2 ;;
  rest <- dec_tail (length s3) s3 ;;
  Some (mkPong to tok e rest).

Definition dec_findnode (s : bytes) : option findnode :=
  '(pl, _) <- dec_list s ;;
  '(t, s1) <- dec_array 64 pl ;;
  '(e, s2) <- dec_uint 8 s1 ;;
  rest <- dec_tail (length s2) s2 ;;
  Some (mkFindnode t e rest).

Definition dec_neighbors (s : bytes) : option neighbors :=
  '(pl, _) <- dec_list s ;;
  '(npl, s1) <- dec_list pl ;;
  ns <- dec_rpcNodes (length npl) npl ;;
  '(e, s2) <- dec_uint 8 s1 ;;
  rest <- dec_tail (length s2) s2 ;;
  Some (mkNeighbors ns e rest).

Definition dec_store (s : bytes) : option store :=
  '(pl, _) <- dec_list s ;;
  '(k, s1) <- dec_array 64 pl ;;
  '(from, s2) <- dec_endpoint s1 ;;
  '(e, s3) <- dec_uint 8 s2 ;;
  '(v, s4) <- dec_bytes s3 ;;
  at_end (mkStore k from e v) s4.

Definition dec_storeReply (s : bytes) : option storeReply :=
  '(pl, _) <- dec_list s ;;
  '(e, s1) <- dec_uint 8 pl ;;
  at_end (mkStoreReply e false) s1.

Definition dec_findvalue (s : bytes) : option findvalue :=
  '(pl, _) <- dec_list s ;;
  '(k, s1) <- dec_array 64 pl ;;
  '(e, s2) <- dec_uint 8 s1 ;;
  at_end (mkFindvalue k e) s2.

Definition dec_findvalueReply (s : bytes) : option findvalueReply :=
  '(pl, _) <- dec_list s ;;
  '(k, s1) <- dec_bytes pl ;;
  '(v, s2) <- dec_bytes s1 ;;
  '(e, s3) <- dec_uint 8 s2 ;;
  at_end (mkFindvalueReply k v e) s3.

(** [rlp.EncodeToBytes] of a Go string, as a raw value. *)
Definition EncodeToBytes_string (s : bytes) : RawValue :=
  match enc_string s with
  | h :: t => mkRaw h t
  | [] => mkRaw x80 []
  end.

(* ------------------------------------------------------------------ *)
(** ** Messages that the wire can carry

    The numbers fit their Go types, a NodeID has 64 bytes, every element
    of a Rest field is one rlp value, and the encoding is shorter than
    2^64 bytes. *)

Definition uint64_ok (x : Z) : Prop := 0 <= x < 2 ^ 64.
Definition uint16_ok (x : Z) : Prop := 0 <= x < 2 ^ 16.

Definition wf_raw (r : RawValue) : Prop := dec_raw (raw_bytes r) = Some (r, []).

Definition wf_endpoint (e : rpcEndpoint) : Prop :=
  uint16_ok (ep_UDP e) /\ uint16_ok (ep_TCP e).

Definition wf_rpcNode (n : rpcNode) : Prop :=
  uint16_ok (rn_UDP n) /\ uint16_ok (rn_TCP n) /\ len (rn_ID n) = 64.

Definition wf_fields (m : packet) : Prop :=
  match m with
  | Ping p =>
      uint64_ok (ping_Version p) /\ wf_endpoint (ping_From p)
      /\ wf_endpoint (ping_To p) /\ uint64_ok (ping_Expiration p)
      /\ Forall wf_raw (ping_Rest p)
  | Pong p =>
      wf_endpoint (pong_To p) /\ uint64_ok (pong_Expiration p)
      /\ Forall wf_raw (pong_Rest p)
  | Findnode p =>
      len (findnode_Target p) = 64 /\ uint64_ok (findnode_Expiration p)
      /\ Forall wf_raw (findnode_Rest p)
  | Neighbors p =>
      Forall wf_rpcNode (neighbors_Nodes p)
      /\ uint64_ok (neighbors_Expiration p)
      /\ Forall wf_raw (neighbors_Rest p)
  | Store p =>
      len (store_Key p) = 64 /\ wf_endpoint (store_From p)
      /\ uint64_ok (store_Expiration p)
  | StoreReply p => uint64_ok (storeReply_Expiration p)
  | Findvalue p =>
      len (findvalue_Key p) = 64 /\ uint64_ok (findvalue_Expiration p)
  | FindvalueReply p => uint64_ok (findvalueReply_Expiration p)
  end.

Definition wf_packet (m : packet) : Prop :=
  wf_fields m /\ len (rlp_encode m) < 2 ^ 64.

(** The fields that are not exported hold their zero value. *)
Definition unexported_zero_node (n : rpcNode) : Prop :=
  rn_beneficialAddress n = None /\ rn_serviceCfg n = None
  /\ rn_showToPublic n = false /\ rn_ip n = None.

Definition unexported_zero (m : packet) : Prop :=
  match m with
  | Neighbors p => Forall unexported_zero_node (neighbors_Nodes p)
  | StoreReply p => storeReply_result p = false
  | _ => True
  end.

(** The same message with its unexported fields at their zero value. *)
Definition zero_unexported_node (n : rpcNode) : rpcNode :=
  mkRpcNode (rn_IP n) (rn_UDP n) (rn_TCP n) (rn_ID n) None None false None.

Definition zero_unexported (m : packet) : packet :=
  match m with
  | Neighbors p =>
      Neighbors (mkNeighbors (map zero_unexported_node (neighbors_Nodes p))
                             (neighbors_Expiration p) (neighbors_Rest p))
  | StoreReply p => StoreReply (mkStoreReply (storeReply_Expiration p) false)
  | _ => m
  end.

(** The type tag under which the file sends each request. *)
Definition ptype_of (m : packet) : byte :=
  match m with
  | Ping _ => PINGPACKET
  | Pong _ => PONGPACKET
  | Findnode _ => FINDNODEPACKET
  | Neighbors _ => NEIGHBORSPACKET
  | Store _ => STOREPACKET
  | StoreReply _ => STOREREPLYPACKET
  | Findvalue _ => FINDVALUEPACKET
  | FindvalueReply _ => FINDVALUEREPLYPACKET
  end.

(* ================================================================== *)
(** * The wire codec *)
(* ================================================================== *)

(** The crypto package, as far as the codec uses it. *)
Class Crypto := {
  PrivateKey : Type;
  Keccak256 : bytes -> bytes;
  Sign : bytes -> PrivateKey -> option bytes;
  recoverNodeID : bytes -> bytes -> option NodeID;
  PubkeyID : PrivateKey -> NodeID }.

Definition macSize : Z := 256 / 8.
Definition sigSize : Z := 520 / 8.
Definition headSize : Z := macSize + sigSize.
Definition headSpace : bytes := repeat x00 (Z.to_nat headSize).

(** What the codec needs from the crypto package: hashes have 32 bytes,
    and a signature has 65 bytes and gives back the NodeID of the key. *)
Record CryptoLaws (C : Crypto) : Prop := {
  keccak_len : forall data, length (Keccak256 data) = 32%nat;
  sign_recover : forall hash key,
    length hash = 32%nat ->
    exists sig, Sign hash key = Some sig /\ length sig = 65%nat
                /\ recoverNodeID hash sig = Some (PubkeyID key) }.

Section Codec.
Context {C : Crypto}.

Definition encodePacket (priv : PrivateKey) (ptype : byte) (req : packet)
  : bytes + error :=
  let b := headSpace ++ [ptype] ++ rlp_encode req in
  match Sign (Keccak256 (slice_from headSize b)) priv with
  | None => inr errSign
  | Some sig =>
      let packet1 := copy_at macSize b sig in
      inl (go_copy packet1 (Keccak256 (slice_from macSize packet1)))
  end.

(** What [decodePacket] returns: the request or the error, the sender
    and the hash.  (Go hands back a partly filled request next to an rlp
    error; no caller looks at it.) *)
Record decoded := mkDecoded {
  d_req : packet + error;
  d_fromID : NodeID;
  d_hash : bytes }.

Definition decode_body (ptype : byte) (body : bytes) : packet + error :=
  let wrap (A : Type) (f : A -> packet) (o : option A) : packet + error :=
    match o with
    | Some v => inl (f v)
    | None => inr errDecode
    end in
  if Byte.eqb ptype PINGPACKET then wrap _ Ping (dec_ping body)
  else if Byte.eqb ptype PONGPACKET then wrap _ Pong (dec_pong body)
  else if Byte.eqb ptype FINDNODEPACKET then wrap _ Findnode (dec_findnode body)
  else if Byte.eqb ptype NEIGHBORSPACKET then wrap _ Neighbors (dec_neighbors body)
  else if Byte.eqb ptype STOREPACKET then wrap _ Store (dec_store body)
  else if Byte.eqb ptype STOREREPLYPACKET then wrap _ StoreReply (dec_storeReply body)
  else if Byte.eqb ptype FINDVALUEPACKET then wrap _ Findvalue (dec_findvalue body)
  else if Byte.eqb ptype FINDVALUEREPLYPACKET then
    wrap _ FindvalueReply (dec_findvalueReply body)
  else inr (errUnknownType ptype).

Definition decodePacket (buf : bytes) : decoded :=
  if len buf <? headSize + 1 then
    mkDecoded (inr errPacketTooSmall) NodeID_zero []
  else
    let hash := slice_to macSize buf in
    let sig := slice_to sigSize (slice_from macSize buf) in
    let sigdata := slice_from headSize buf in
    let shouldhash := Keccak256 (slice_from macSize buf) in
    if negb (bytes_eqb hash shouldhash) then
      mkDecoded (inr errBadHash) NodeID_zero []
    else
      match recoverNodeID (Keccak256 (slice_from headSize buf)) sig with
      | None => mkDecoded (inr errRecover) NodeID_zero hash
      | Some fromID =>
          match sigdata with
          | ptype :: body => mkDecoded (decode_body ptype body) fromID hash
          | [] => (* not reached: [buf] holds headSize+1 bytes at least *)
              mkDecoded (inr errPacketTooSmall) NodeID_zero []
          end
      end.

End Codec.

(* ================================================================== *)
(** * Wall-clock time, as the handlers use it *)
(* ================================================================== *)

(** A [time.Time] without monotonic reading: seconds since January 1 of
    year 1 (an int64) and nanoseconds within the second. *)
Record Time := mkTime { t_sec : Z; t_nsec : Z }.

Definition unixToInternal : Z := 62135596800.

(** [time.Unix(sec, 0)]. *)
Definition time_Unix (sec : Z) : Time :=
  mkTime (to_int64 (sec + unixToInternal)) 0.

(** [t.Unix()], [t.UnixNano()], [t.Add(d)] and [t.Before(u)]. *)
Definition Unix (t : Time) : Z := to_int64 (t_sec t - unixToInternal).

Definition UnixNano (t : Time) : Z :=
  to_int64 ((t_sec t - unixToInternal) * 1000000000 + t_nsec t).

Definition Add (t : Time) (d : Z) : Time :=
  let dsec := Z.quot d 1000000000 in
  let nsec := t_nsec t + Z.rem d 1000000000 in
  if 1000000000 <=? nsec then mkTime (t_sec t + dsec + 1) (nsec - 1000000000)
  else if nsec <? 0 then mkTime (t_sec t + dsec - 1) (nsec + 1000000000)
  else mkTime (t_sec t + dsec) nsec.

Definition Before (t u : Time) : bool :=
  (t_sec t <? t_sec u) || ((t_sec t =? t_sec u) && (t_nsec t <? t_nsec u)).

(** [expired(ts)], with [now] the reading of [time.Now()] inside it. *)
Definition expired (now : Time) (ts : Z) : bool :=
  Before (time_Unix (to_int64 ts)) now.

(** [uint64(time.Now().Add(expiration).Unix())]. *)
Definition stamp_expiration (now : Time) : Z :=
  to_uint64 (Unix (Add now expiration)).

(* ================================================================== *)
(** * Addresses and nodes *)
(* ================================================================== *)

Record UDPAddr := mkUDPAddr { addr_IP : bytes; addr_Port : Z }.

Definition v4InV6Prefix : bytes := repeat x00 10 ++ [xff; xff].

(** [net.IP.To4] and [To16]; a nil result is [None]. *)
Definition To4 (ip : bytes) : option bytes :=
  if Nat.eqb (length ip) 4 then Some ip
  else if Nat.eqb (length ip) 16 && bytes_eqb (firstn 12 ip) v4InV6Prefix
       then Some (skipn 12 ip)
  else None.

Definition To16 (ip : bytes) : option bytes :=
  if Nat.eqb (length ip) 4 then Some (v4InV6Prefix ++ ip)
  else if Nat.eqb (length ip) 16 then Some ip
  else None.

Definition makeEndpoint (addr : UDPAddr) (tcpPort : Z) : rpcEndpoint :=
  let ip :=
    match To4 (addr_IP addr) with
    | Some ip4 => ip4
    | None => match To16 (addr_IP addr) with
              | Some ip16 => ip16
              | None => []
              end
    end in
  mkEndpoint ip (to_uint16 (addr_Port addr)) tcpPort.

(** The fields of [Node] that this file reads. *)
Record Node := mkNode {
  node_ID : NodeID;
  node_IP : bytes;
  node_UDP : Z;
  node_TCP : Z }.

Definition nodeToRPC (n : Node) : rpcNode :=
  mkRpcNode (node_IP n) (node_UDP n) (node_TCP n) (node_ID n)
            None None false None.

(** The classification of a peer and the two match policies of
    [closest] (constants of table.go). *)
Inductive NodeType := UnknownNode | BrotherNode | AlienNode.

Definition NodeType_eqb (a b : NodeType) : bool :=
  match a, b with
  | UnknownNode, UnknownNode | BrotherNode, BrotherNode
  | AlienNode, AlienNode => true
  | _, _ => false
  end.

Inductive MatchType := EitherUncleAndBrother | BrotherOnly.

(* ================================================================== *)
(** * Neighbours per packet *)
(* ================================================================== *)

(** [init()]: stuff a neighbors packet with nodes of maximal size until
    it reaches 1280 bytes. *)
Definition maxSizeNode : rpcNode :=
  mkRpcNode (repeat x00 16) 65535 65535 NodeID_zero None None false None.

Fixpoint init_loop (fuel : nat) (n : Z) (nodes : list rpcNode) : Z :=
  match fuel with
  | O => n
  | S f =>
      let nodes' := nodes ++ [maxSizeNode] in
      let size := len (rlp_encode (Neighbors (mkNeighbors nodes' (2 ^ 64 - 1) []))) in
      if 1280 <=? headSize + size + 1 then n
      else init_loop f (n + 1) nodes'
  end.

Definition maxNeighbors : Z := Eval vm_compute in init_loop 64 0 [].

(* ================================================================== *)
(** * The routing table, the node database and the key/value overlay *)
(* ================================================================== *)

(** The collaborators of this file that live elsewhere (table.go,
    database.go, node.go, netutil, params, math/rand); the handlers are
    written against them. *)
Class Collaborators := {
  Buckets : Type;
  KVStore : Type;
  (** [Table.closest(target, n, matchType).entries] *)
  closest : Buckets -> (NodeID -> NodeType) -> bytes -> Z -> MatchType -> list Node;
  (** [Table.SetKey(key, value, id)] and [Table.GetKey(key)] *)
  SetKey : KVStore -> bytes -> bytes -> NodeID -> bool * KVStore;
  GetKey : KVStore -> bytes -> list bytes;
  (** [netutil.CheckRelayIP(sender, addr) == nil] *)
  CheckRelayIP : bytes -> bytes -> bool;
  (** the [%s] form of a NodeID and of a UDP address *)
  NodeID_String : NodeID -> bytes;
  UDPAddr_String : UDPAddr -> bytes;
  bucketSize : Z;
  (** [params.SubnetBootNodeLimits] *)
  SubnetBootNodeLimits : nat;
  (** the generator of math/rand: seed, number of the draw since the
      seeding, raw value drawn *)
  rand_draw : Z -> nat -> nat }.

Section Transport.
Context {C : Crypto} {K : Collaborators}.

Record Table := mkTable {
  nodeTypes : NodeID -> NodeType;
  db_node : NodeID -> option Node;
  kv : KVStore;
  buckets : Buckets;
  fallbackNodes : list Node }.

(** Modelled from the spec: [Table.GetNodeType] and [Table.SetNodeType]
    of table.go are not in the sources at hand; the spec describes them
    as [classify(nodeID)] and [setClassification(nodeID, class)] over a
    classification map keyed by NodeID. *)
Definition GetNodeType (t : Table) (id : NodeID) : NodeType := nodeTypes t id.

Definition SetNodeType (t : Table) (id : NodeID) (ty : NodeType) : Table :=
  mkTable (fun x => if NodeID_eqb x id then ty else nodeTypes t x)
          (db_node t) (kv t) (buckets t) (fallbackNodes t).

Definition SetFallbackNodes (t : Table) (ns : list Node) : Table :=
  mkTable (nodeTypes t) (db_node t) (kv t) (buckets t) ns.

Definition with_kv (t : Table) (s : KVStore) : Table :=
  mkTable (nodeTypes t) (db_node t) s (buckets t) (fallbackNodes t).

(* ================================================================== *)
(** * Pending replies and the event loop *)
(* ================================================================== *)

(** A reply callback is a closure: the variables it has captured
    ([cb_vars]) and its code.  Called on a reply it may read the
    classification of nodes, may set the fallback nodes, says whether the
    request is complete, and leaves its variables in a new state. *)
Record callback := Callback {
  cb_type : Type;
  cb_vars : cb_type;
  cb_code : cb_type -> packet -> (NodeID -> NodeType)
            -> bool * option (list Node) * cb_type }.

Definition run_callback (c : callback) (data : packet)
  (types : NodeID -> NodeType) : bool * option (list Node) * callback :=
  let '(done, fb, vars') := cb_code c (cb_vars c) data types in
  (done, fb, Callback vars' (cb_code c)).

(** Instants of the loop are nanoseconds; the zero [time.Time] is 0.
    Every pending has a result channel of its own, made by [addPending];
    the channel stands for the identity of the pending. *)
Record pending := mkPending {
  p_from : NodeID;
  p_ptype : byte;
  p_deadline : Z;
  p_callback : callback;
  p_errc : nat;
  p_createAt : Z }.

Record reply := mkReply {
  r_from : NodeID;
  r_ptype : byte;
  r_data : packet }.

(** What the transport does to the outside, in the order it happens. *)
Inductive effect :=
| Send (toID : NodeID) (toaddr : UDPAddr) (ptype : byte) (req : packet)
| GoBond (pinged : bool) (id : NodeID) (addr : UDPAddr) (tcpPort : Z)
| ErrcSend (errc : nat) (e : option error)
| GoCheckClockDrift
| LogHandled (nm : bytes) (err : option error).

(** The variables of [loop].  [timeout] is the instant at which the timer
    fires when it is armed; [nextTimeout] names a pending by its channel. *)
Record loopState := mkLoop {
  plist : list pending;
  timeout : option Z;
  nextTimeout : option nat;
  contTimeouts : Z;
  ntpWarnTime : Z;
  running : bool }.

Definition loop_init : loopState := mkLoop [] None None 0 0 true.

Definition same_pending (next : option nat) (p : pending) : bool :=
  match next with
  | Some c => Nat.eqb c (p_errc p)
  | None => false
  end.

(** [resetTimeout].  [plist.Remove(el)] clears the links of [el], so the
    [el.Next()] that follows a removal is nil and the [for] ends there:
    the scan never looks past the front of the list. *)
Definition resetTimeout (now : Z) (st : loopState) : loopState * list effect :=
  match plist st with
  | [] => (st, [])
  | front :: others =>
      if same_pending (nextTimeout st) front then (st, [])
      else
        let dist := p_deadline front - now in
        if dist <? 2 * respTimeout then
          (mkLoop (plist st) (Some (now + dist)) (Some (p_errc front))
                  (contTimeouts st) (ntpWarnTime st) (running st), [])
        else
          (mkLoop others None None
                  (contTimeouts st) (ntpWarnTime st) (running st),
           [ErrcSend (p_errc front) (Some errClockWarp)])
  end.

(** The scan of [case r := <-u.gotreply]: callbacks of matching entries
    are run in list order; the first one that reports completion is
    removed, and, for the reason given at [resetTimeout], ends the scan. *)
Fixpoint gotreply_scan (r : reply) (t : Table) (l : list pending)
  : bool * Table * list pending * list effect :=
  match l with
  | [] => (false, t, [], [])
  | p :: rest =>
      if NodeID_eqb (p_from p) (r_from r) && Byte.eqb (p_ptype p) (r_ptype r) then
        let '(done, fb, cb') := run_callback (p_callback p) (r_data r) (nodeTypes t) in
        let t1 := match fb with Some ns => SetFallbackNodes t ns | None => t end in
        if done then (true, t1, rest, [ErrcSend (p_errc p) None])
        else
          let '(_, t2, rest', evs) := gotreply_scan r t1 rest in
          (true, t2,
           mkPending (p_from p) (p_ptype p) (p_deadline p) cb' (p_errc p)
                     (p_createAt p) :: rest', evs)
      else
        let '(m, t2, rest', evs) := gotreply_scan r t rest in
        (m, t2, p :: rest', evs)
  end.

(** The scan of [case now := <-timeout.C]: the first entry whose deadline
    is not after [now] is notified and removed, which ends the scan. *)
Fixpoint timeout_scan (now : Z) (l : list pending)
  : option pending * list pending :=
  match l with
  | [] => (None, [])
  | p :: rest =>
      if p_deadline p <=? now then (Some p, rest)
      else let '(hit, rest') := timeout_scan now rest in (hit, p :: rest')
  end.

(** What the [select] of the loop can receive.  [EvTimeout now since
    later]: the timer delivers [now]; [since] and [later] are the
    readings of the clock behind [time.Since] and the [time.Now()] that
    follows it. *)
Inductive loopEvent :=
| EvClosing
| EvPending (p : pending) (now : Z)
| EvGotReply (r : reply)
| EvTimeout (now since later : Z).

(** Whether the [select] can take the event: the timer channel delivers
    only once the armed instant is reached. *)
Definition enabled (st : loopState) (ev : loopEvent) : bool :=
  match ev with
  | EvTimeout now _ _ =>
      match timeout st with
      | Some fire => fire <=? now
      | None => false
      end
  | _ => true
  end.

(** The cases of the [select]; the boolean is what is sent on
    [r.matched]. *)
Definition loop_case (ev : loopEvent) (t : Table) (st : loopState)
  : bool * Table * loopState * list effect :=
  match ev with
  | EvClosing =>
      (false, t,
       mkLoop (plist st) (timeout st) (nextTimeout st) (contTimeouts st)
              (ntpWarnTime st) false,
       map (fun p => ErrcSend (p_errc p) (Some errClosed)) (plist st))
  | EvPending p now =>
      let p' := mkPending (p_from p) (p_ptype p) (now + respTimeout)
                          (p_callback p) (p_errc p) now in
      (false, t,
       mkLoop (plist st ++ [p']) (timeout st) (nextTimeout st)
              (contTimeouts st) (ntpWarnTime st) (running st), [])
  | EvGotReply r =>
      let '(matched, t', l', evs) := gotreply_scan r t (plist st) in
      (matched, t',
       mkLoop l' (timeout st) (nextTimeout st)
              (if matched then 0 else contTimeouts st)
              (ntpWarnTime st) (running st), evs)
  | EvTimeout now since later =>
      let '(hit, l') := timeout_scan now (plist st) in
      let '(cont, evs) :=
        match hit with
        | Some p => (contTimeouts st + 1, [ErrcSend (p_errc p) (Some errTimeout)])
        | None => (contTimeouts st, [])
        end in
      if ntpFailureThreshold <? cont then
        if ntpWarningCooldown <=? since - ntpWarnTime st then
          (false, t, mkLoop l' None None 0 later (running st),
           evs ++ [GoCheckClockDrift])
        else (false, t, mkLoop l' None None 0 (ntpWarnTime st) (running st), evs)
      else (false, t, mkLoop l' None None cont (ntpWarnTime st) (running st), evs)
  end.

(** One turn of the [for]: [resetTimeout()], whose [time.Now()] reads
    [tnow], then the [select].  When the [select] cannot take the event
    the turn stops there; a loop that has returned does nothing. *)
Definition loop_step (tnow : Z) (ev : loopEvent) (t : Table) (st : loopState)
  : bool * Table * loopState * list effect :=
  if running st then
    let '(st1, evs1) := resetTimeout tnow st in
    if enabled st1 ev then
      let '(m, t', st2, evs2) := loop_case ev t st1 in
      (m, t', st2, evs1 ++ evs2)
    else (false, t, st1, evs1)
  else (false, t, st, []).

(** The readings of the clock in a turn in which the timer is what the
    [select] is offered: the one of [resetTimeout], the instant that the
    timer delivers, and the two readings of the timeout case. *)
Record tick := mkTick {
  tk_reset : Z;
  tk_fire : Z;
  tk_since : Z;
  tk_later : Z }.

(** Such turns in a row. *)
Fixpoint timer_turns (ticks : list tick) (t : Table) (st : loopState)
  : loopState * list effect :=
  match ticks with
  | [] => (st, [])
  | tk :: rest =>
      let '(_, t', st1, evs1) :=
        loop_step (tk_reset tk)
                  (EvTimeout (tk_fire tk) (tk_since tk) (tk_later tk)) t st in
      let '(st2, evs2) := timer_turns rest t' st1 in
      (st2, evs1 ++ evs2)
  end.

(** What the loop maintains between its timer and its list: channels are
    not shared, and when [nextTimeout] names an entry of the list, that
    entry is the front and the timer is armed for its deadline. *)
Definition loop_inv (st : loopState) : Prop :=
  NoDup (map p_errc (plist st))
  /\ forall q, In q (plist st) -> nextTimeout st = Some (p_errc q) ->
       hd_error (map p_errc (plist st)) = Some (p_errc q)
       /\ timeout st = Some (p_deadline q).

(** Entries are appended with the deadline of their arrival, so that
    deadlines do not decrease along the list. *)
Definition loop_ok (st : loopState) : Prop :=
  loop_inv st /\ StronglySorted Z.le (map p_deadline (plist st)).

(** What the loop can expect of an event: a pending arrives with a
    channel that was made for it, and the clock has not run backwards
    since the earlier arrivals. *)
Definition event_ok (st : loopState) (ev : loopEvent) : Prop :=
  match ev with
  | EvPending p now =>
      ~ In (p_errc p) (map p_errc (plist st))
      /\ nextTimeout st <> Some (p_errc p)
      /\ Forall (fun q => p_deadline q <= now + respTimeout) (plist st)
  | _ => True
  end.

(** The channel and the deadline of an entry: what the loop never
    changes. *)
Definition pending_key (p : pending) : nat * Z := (p_errc p, p_deadline p).

(** [addPending]: the pending that is handed to the loop.  The deadline
    and the creation time are left at their zero value. *)
Definition addPending (id : NodeID) (ptype : byte) (cb : callback) (ch : nat)
  : pending :=
  mkPending id ptype 0 cb ch 0.

(* ================================================================== *)
(** * The transport and its packet handlers *)
(* ================================================================== *)

(** The fields of [udp] that the handlers use, with the table it embeds
    and the state of its [loop] goroutine. *)
Record udp := mkUdp {
  priv : PrivateKey;
  ourEndpoint : rpcEndpoint;
  networkid : Z;
  strictNodeCheck : bool;
  closing : bool;
  table : Table;
  loop : loopState }.

Definition with_table (u : udp) (t : Table) : udp :=
  mkUdp (priv u) (ourEndpoint u) (networkid u) (strictNodeCheck u)
        (closing u) t (loop u).

Definition with_loop (u : udp) (t : Table) (l : loopState) : udp :=
  mkUdp (priv u) (ourEndpoint u) (networkid u) (strictNodeCheck u)
        (closing u) t l.

(** The same transport under the other setting of the strict flag. *)
Definition set_strict (b : bool) (u : udp) : udp :=
  mkUdp (priv u) (ourEndpoint u) (networkid u) b (closing u) (table u) (loop u).

(** The readings of the clock during one call of a handler: inside
    [expired], when the reply is stamped, when the generator is seeded,
    and the one of the loop's [resetTimeout] in the turn that takes the
    reply handed over by [handleReply]. *)
Record clock := mkClock {
  clk_now : Time;
  clk_stamp : Time;
  clk_seed : Time;
  clk_loop : Z }.

(** What [u.send] writes to the connection: the encoded packet, or
    nothing when the encoding fails. *)
Definition send_wire (u : udp) (ptype : byte) (req : packet) : option bytes :=
  match encodePacket (priv u) ptype req with
  | inl b => Some b
  | inr _ => None
  end.

(** [handleReply]: hands the reply to the loop and waits for its answer,
    unless the transport is closing. *)
Definition handleReply (tloop : Z) (u : udp) (from : NodeID) (ptype : byte)
  (req : packet) : bool * udp * list effect :=
  if closing u then (false, u, [])
  else
    let '(m, t', l', evs) :=
      loop_step tloop (EvGotReply (mkReply from ptype req)) (table u) (loop u) in
    (m, with_loop u t' l', evs).

Definition tab_byte : byte := x09.
Definition comma_byte : byte := x2c.

(** The network id read from the Rest field: 0 unless the first element,
    without its first byte, starts with a decimal number. *)
Definition rest_network_id (Rest : list RawValue) : Z :=
  match Rest with
  | [] => 0
  | r0 :: _ =>
      match Split tab_byte (raw_tl r0) with
      | f :: _ =>
          match Atoi f with
          | Some n => to_uint64 n
          | None => 0
          end
      | [] => 0
      end
  end.

Definition processRestInPingPong (Rest : list RawValue) (u : udp)
  (fromID : NodeID) : NodeType * udp :=
  let network_id := rest_network_id Rest in
  if network_id =? networkid u then
    (BrotherNode, with_table u (SetNodeType (table u) fromID BrotherNode))
  else if negb (network_id =? 0) then
    (AlienNode, with_table u (SetNodeType (table u) fromID AlienNode))
  else (UnknownNode, u).

(** The Rest field that [ping] and the pong reply carry. *)
Definition networkid_rest (id : Z) : list RawValue :=
  [EncodeToBytes_string (fmt_d id ++ [tab_byte])].

Definition result := (option error * udp * list effect)%type.

Definition ping_handle (clk : clock) (req : ping) (u : udp) (from : UDPAddr)
  (fromID : NodeID) (mac : bytes) : result :=
  if expired (clk_now clk) (ping_Expiration req) then (Some errExpired, u, [])
  else
    let '(remoteNodeType, u1) := processRestInPingPong (ping_Rest req) u fromID in
    let sendPong :=
      negb (strictNodeCheck u1 && negb (NodeType_eqb remoteNodeType BrotherNode)) in
    if sendPong then
      let pongmsg :=
        Pong (mkPong (makeEndpoint from (ep_TCP (ping_From req))) mac
                     (stamp_expiration (clk_stamp clk))
                     (networkid_rest (networkid u1))) in
      let '(matched, u2, evs) :=
        handleReply (clk_loop clk) u1 fromID PINGPACKET (Ping req) in
      (None, u2,
       Send fromID from PONGPACKET pongmsg :: evs
       ++ (if matched then []
           else [GoBond true fromID from (ep_TCP (ping_From req))]))
    else (None, u1, []).

Definition pong_handle (clk : clock) (req : pong) (u : udp) (from : UDPAddr)
  (fromID : NodeID) (mac : bytes) : result :=
  if expired (clk_now clk) (pong_Expiration req) then (Some errExpired, u, [])
  else
    let '(_, u1) := processRestInPingPong (pong_Rest req) u fromID in
    let '(matched, u2, evs) :=
      handleReply (clk_loop clk) u1 fromID PONGPACKET (Pong req) in
    ((if matched then None else Some errUnsolicitedReply), u2, evs).

(** The sending loop of [findnode.handle]: [nodes] is [p.Nodes], [l] what
    is left of [closest]; the index is the last one when nothing is left
    behind the current node. *)
Fixpoint neighbors_chunks (exp : Z) (fromIP : bytes) (nodes : list rpcNode)
  (l : list Node) : list neighbors :=
  match l with
  | [] => []
  | n :: rest =>
      if negb (CheckRelayIP fromIP (node_IP n)) then
        neighbors_chunks exp fromIP nodes rest
      else
        let nodes' := nodes ++ [nodeToRPC n] in
        if (len nodes' =? maxNeighbors)
           || (match rest with [] => true | _ => false end)
        then mkNeighbors nodes' exp [] :: neighbors_chunks exp fromIP [] rest
        else neighbors_chunks exp fromIP nodes' rest
  end.

Definition findnode_matchType (Rest : list RawValue) : MatchType :=
  match Rest with
  | [] => EitherUncleAndBrother
  | r0 :: _ =>
      match Atoi (raw_tl r0) with
      | Some n => if n =? 1 then BrotherOnly else EitherUncleAndBrother
      | None => EitherUncleAndBrother
      end
  end.

Definition findnode_handle (clk : clock) (req : findnode) (u : udp)
  (from : UDPAddr) (fromID : NodeID) (mac : bytes) : result :=
  if expired (clk_now clk) (findnode_Expiration req) then (Some errExpired, u, [])
  else
    match db_node (table u) fromID with
    | None => (Some errUnknownNode, u, [])
    | Some _ =>
        let matchType := findnode_matchType (findnode_Rest req) in
        let target := Keccak256 (findnode_Target req) in
        let cl := closest (buckets (table u)) (nodeTypes (table u)) target
                          bucketSize matchType in
        (None, u,
         map (fun p => Send fromID from NEIGHBORSPACKET (Neighbors p))
             (neighbors_chunks (stamp_expiration (clk_stamp clk))
                               (addr_IP from) [] cl))
    end.

Definition neighbors_handle (clk : clock) (req : neighbors) (u : udp)
  (from : UDPAddr) (fromID : NodeID) (mac : bytes) : result :=
  if expired (clk_now clk) (neighbors_Expiration req) then (Some errExpired, u, [])
  else
    let '(matched, u1, evs) :=
      handleReply (clk_loop clk) u fromID NEIGHBORSPACKET (Neighbors req) in
    ((if matched then None else Some errUnsolicitedReply), u1, evs).

(** [fmt.Sprintf("enode://%s@%s", fromID, from)]. *)
Definition enode_url (fromID : NodeID) (from : UDPAddr) : bytes :=
  str "enode://" ++ NodeID_String fromID ++ str "@" ++ UDPAddr_String from.

Definition store_handle (clk : clock) (req : store) (u : udp)
  (from : UDPAddr) (fromID : NodeID) (mac : bytes) : result :=
  if expired (clk_now clk) (store_Expiration req) then (Some errExpired, u, [])
  else
    let key := store_Key req in
    match db_node (table u) fromID with
    | None => (Some errUnknownNode, u, [])
    | Some _ =>
        let value := enode_url fromID from in
        let '(success, kv') := SetKey (kv (table u)) key value fromID in
        let p := mkStoreReply (stamp_expiration (clk_stamp clk)) success in
        (None, with_table u (with_kv (table u) kv'),
         [Send fromID from STOREREPLYPACKET (StoreReply p)])
    end.

Definition storeReply_handle (clk : clock) (req : storeReply) (u : udp)
  (from : UDPAddr) (fromID : NodeID) (mac : bytes) : result :=
  if expired (clk_now clk) (storeReply_Expiration req) then (Some errExpired, u, [])
  else (None, u, []).

(** [bootnodes[i], bootnodes[j] = bootnodes[j], bootnodes[i]] *)
Definition swap (l : list bytes) (i j : nat) : list bytes :=
  match nth_error l i, nth_error l j with
  | Some a, Some b =>
      let l1 := firstn i l ++ b :: skipn (S i) l in
      firstn j l1 ++ a :: skipn (S j) l1
  | _, _ => l
  end.

(** [rand.Shuffle(n, swap)]: for [i] from [n-1] down to 1, [j] is drawn
    in [0, i] and the places [i] and [j] are swapped.  [k] counts the
    draws. *)
Fixpoint shuffle_from (seed : Z) (i k : nat) (l : list bytes) : list bytes :=
  match i with
  | O => l
  | S i' =>
      let j := Nat.modulo (rand_draw seed k) (S i) in
      shuffle_from seed i' (S k) (swap l i j)
  end.

Definition Shuffle (seed : Z) (l : list bytes) : list bytes :=
  shuffle_from seed (length l - 1) 0 l.

(** What the string builder holds after writing every value followed by
    a comma. *)
Definition join_commas (vs : list bytes) : bytes :=
  concat (map (fun v => v ++ [comma_byte]) vs).

(** The values that [findvalue.handle] puts in its reply. *)
Definition findvalue_selection (seed : Z) (value : list bytes) : list bytes :=
  let valueCount := length value in
  if Nat.eqb valueCount 0 then []
  else if Nat.leb valueCount SubnetBootNodeLimits then value
  else firstn SubnetBootNodeLimits (Shuffle seed value).

Definition findvalue_handle (clk : clock) (req : findvalue) (u : udp)
  (from : UDPAddr) (fromID : NodeID) (mac : bytes) : result :=
  if expired (clk_now clk) (findvalue_Expiration req) then (Some errExpired, u, [])
  else
    let value := GetKey (kv (table u)) (findvalue_Key req) in
    let reply :=
      mkFindvalueReply (findvalue_Key req)
        (join_commas (findvalue_selection (UnixNano (clk_seed clk)) value))
        (stamp_expiration (clk_stamp clk)) in
    (None, u, [Send fromID from FINDVALUEREPLYPACKET (FindvalueReply reply)]).

Definition findvalueReply_handle (clk : clock) (req : findvalueReply) (u : udp)
  (from : UDPAddr) (fromID : NodeID) (mac : bytes) : result :=
  if expired (clk_now clk) (findvalueReply_Expiration req)
  then (Some errExpired, u, [])
  else
    let '(matched, u1, evs) :=
      handleReply (clk_loop clk) u fromID FINDVALUEREPLYPACKET (FindvalueReply req) in
    ((if matched then None else Some errUnsolicitedReply), u1, evs).

(** [packet.handle], the method of the interface. *)
Definition handle (clk : clock) (p : packet) (u : udp) (from : UDPAddr)
  (fromID : NodeID) (mac : bytes) : result :=
  match p with
  | Ping q => ping_handle clk q u from fromID mac
  | Pong q => pong_handle clk q u from fromID mac
  | Findnode q => findnode_handle clk q u from fromID mac
  | Neighbors q => neighbors_handle clk q u from fromID mac
  | Store q => store_handle clk q u from fromID mac
  | StoreReply q => storeReply_handle clk q u from fromID mac
  | Findvalue q => findvalue_handle clk q u from fromID mac
  | FindvalueReply q => findvalueReply_handle clk q u from fromID mac
  end.

Definition handlePacket (clk : clock) (u : udp) (from : UDPAddr) (buf : bytes)
  : result :=
  let d := decodePacket buf in
  if NodeType_eqb (GetNodeType (table u) (d_fromID d)) AlienNode then
    (Some errAlienSeen, u, [])
  else
    match d_req d with
    | inr err => (Some err, u, [])
    | inl p =>
        let '(err, u', evs) := handle clk p u from (d_fromID d) (d_hash d) in
        (err, u', evs ++ [LogHandled (name p) err])
    end.

End Transport.

(** The lists before and after the removal of at most one entry. *)
Definition removed_one (A : Type) (l l' : list A) : Prop :=
  l' = l \/ exists l1 x l2, l = l1 ++ x :: l2 /\ l' = l1 ++ l2.

(* ================================================================== *)
(** * A small instance of the collaborators

    Used to run the model on concrete inputs.  The hash and the
    signature are stand-ins that meet [CryptoLaws]: the hash is the
    padded prefix of the data, the signature carries the padded key. *)
(* ================================================================== *)

Module Sample.

Definition pad (n : nat) (b : bytes) : bytes := firstn n (b ++ repeat x00 n).

#[export] Instance crypto : Crypto := {|
  PrivateKey := bytes;
  Keccak256 := fun data => pad 32 data;
  Sign := fun _ key => Some (pad 64 key ++ [x00]);
  recoverNodeID := fun _ sig => Some (firstn 64 sig);
  PubkeyID := fun key => pad 64 key |}.

Definition kv_values (s : list (bytes * bytes)) (key : bytes) : list bytes :=
  map snd (filter (fun e => bytes_eqb (fst e) key) s).

(** Modelled from the spec: the routing table and the key/value overlay
    of table.go are not in the sources at hand.  [SetKey] stores the
    given value under the given key and fails, leaving the store as it
    is, when the key is full (here: holds three values); [GetKey] gives
    the values stored under the key; [closest] gives the first [n] known
    nodes. *)
#[export] Instance collaborators : Collaborators := {|
  Buckets := list Node;
  KVStore := list (bytes * bytes);
  closest := fun b _ _ n _ => firstn (Z.to_nat n) b;
  SetKey := fun s key value _ =>
    if Nat.ltb (length (kv_values s key)) 3 then (true, s ++ [(key, value)])
    else (false, s);
  GetKey := kv_values;
  CheckRelayIP := fun _ _ => true;
  NodeID_String := fun id => id;
  UDPAddr_String := fun a => addr_IP a ++ str ":" ++ fmt_d (addr_Port a);
  bucketSize := 16;
  SubnetBootNodeLimits := 2;
  rand_draw := fun _ k => k |}.

Definition key1 : bytes := str "k1".
Definition id1 : NodeID := pad 64 key1.
Definition id2 : NodeID := pad 64 (str "k2").
Definition addr1 : UDPAddr := mkUDPAddr [x0a; x00; x00; x01] 30303.
Definition node1 : Node := mkNode id1 [x0a; x00; x00; x01] 30303 30303.

Definition table0 : Table :=
  mkTable (fun _ => UnknownNode) (fun _ => None) [] [] [].

(** A transport with the given network id and strict flag that has
    bonded with nobody. *)
Definition udp0 (netid : Z) (strict : bool) : udp :=
  mkUdp key1 (mkEndpoint [x0a; x00; x00; x02] 30303 30303) netid strict false
        table0 loop_init.


(** A transport that has classified [id2] as alien. *)
Definition udp_alien (netid : Z) (strict : bool) : udp :=
  mkUdp key1 (mkEndpoint [x0a; x00; x00; x02] 30303 30303) netid strict false
        (mkTable (fun id => if NodeID_eqb id id2 then AlienNode else UnknownNode)
                 (fun _ => None) [] [] [])
        loop_init.

Definition endpoint1 : rpcEndpoint := mkEndpoint [x0a; x00; x00; x01] 30303 30303.
Definition endpoint2 : rpcEndpoint := mkEndpoint [x0a; x00; x00; x02] 30303 0.

(** A ping without Rest field, and the packet that the key ["k2"] makes
    of a ping that announces network 99. *)
Definition ping_plain : ping := mkPing 4 endpoint1 endpoint2 2000 [].
Definition ping_net99 : ping := mkPing 4 endpoint1 endpoint2 2000 (networkid_rest 99).

Definition packet_from_k2 : bytes :=
  match encodePacket (str "k2") PINGPACKET (Ping ping_net99) with
  | inl b => b
  | inr _ => []
  end.

Definition noon : Time := mkTime (unixToInternal + 1000) 0.
Definition clock0 : clock := mkClock noon noon noon 0.

(** [func(interface{}) bool { return true }] *)
Definition always : callback :=
  Callback tt (fun _ _ _ => (true, None, tt)).

(** Two pendings, due at 500 ms and at 600 ms. *)
Definition two_pendings : loopState :=
  mkLoop [mkPending id1 PONGPACKET 500000000 always 1%nat 0;
          mkPending id2 PONGPACKET 600000000 always 2%nat 100000000]
         None None 0 0 true.

End Sample.


(* ================================================================== *)
(** * The requests of the transport, the read loop and runs of the loop *)
(* ================================================================== *)

Definition Version : Z := 4.

(** What the callbacks of the requests take from node.go: [NewNode],
    [Node.validateComplete() == nil] and [ParseNode], nil being [None]. *)
Class NodeChecks := {
  NewNode : NodeID -> bytes -> Z -> Z -> option bytes -> option bytes -> bool
            -> option bytes -> Node;
  validateComplete : Node -> bool;
  ParseNode : bytes -> option Node }.

(** [func(interface{}) bool { return true }], the callback of [ping] and
    [waitping]. *)
Definition callback_true : callback :=
  Callback tt (fun _ _ _ => (true, None, tt)).

(** Whom an effect addresses: a packet sent or a bond started is for the
    node [id] at [addr]; what the loop sends on result channels and what
    is logged addresses nobody. *)
Definition to_node (id : NodeID) (addr : UDPAddr) (e : effect) : Prop :=
  match e with
  | Send toID toaddr _ _ => toID = id /\ toaddr = addr
  | GoBond _ id' addr' _ => id' = id /\ addr' = addr
  | _ => True
  end.

(** The effect reaches the node [id]. *)
Definition reaches (id : NodeID) (e : effect) : Prop :=
  match e with
  | Send toID _ _ _ => toID = id
  | GoBond _ id' _ _ => id' = id
  | _ => False
  end.

(** The channels on which a list of effects sends, in order. *)
Fixpoint errc_sends (evs : list effect) : list nat :=
  match evs with
  | [] => []
  | ErrcSend c _ :: rest => c :: errc_sends rest
  | _ :: rest => errc_sends rest
  end.

Section Requests.
Context {C : Crypto} {K : Collaborators} {N : NodeChecks}.

(** The [select] of [addPending]: the pending goes to the loop, whose
    turn reads the clock at [tloop] in [resetTimeout] and at [tarr] on
    arrival, unless the transport is closing. *)
Definition submit_pending (tloop tarr : Z) (u : udp) (p : pending)
  : udp * list effect :=
  if closing u then (u, [ErrcSend (p_errc p) (Some errClosed)])
  else
    let '(_, t', l', evs) :=
      loop_step tloop (EvPending p tarr) (table u) (loop u) in
    (with_loop u t' l', evs).

(** [udp.ping] up to the point where it waits on its channel [ch]. *)
Definition udp_ping (now : Time) (tloop tarr : Z) (ch : nat) (u : udp)
  (toid : NodeID) (toaddr : UDPAddr) : udp * list effect :=
  let '(u1, evs) :=
    submit_pending tloop tarr u (addPending toid PONGPACKET callback_true ch) in
  (u1,
   evs ++ [Send toid toaddr PINGPACKET
             (Ping (mkPing Version (ourEndpoint u) (makeEndpoint toaddr 0)
                           (stamp_expiration now)
                           (networkid_rest (networkid u))))]).

(** [udp.waitping] up to the same point. *)
Definition udp_waitping (tloop tarr : Z) (ch : nat) (u : udp) (from : NodeID)
  : udp * list effect :=
  submit_pending tloop tarr u (addPending from PINGPACKET callback_true ch).

(** [udp.nodeFromRPC]; [netrestrict] is [u.netrestrict], [None] for nil,
    else the test [Contains]. *)
Definition nodeFromRPC (netrestrict : option (bytes -> bool)) (sender : UDPAddr)
  (rn : rpcNode) : option Node :=
  if rn_UDP rn <=? 1024 then None
  else if negb (CheckRelayIP (addr_IP sender) (rn_IP rn)) then None
  else if match netrestrict with
          | Some contains => negb (contains (rn_IP rn))
          | None => false
          end then None
  else
    let n := NewNode (rn_ID rn) (rn_IP rn) (rn_UDP rn) (rn_TCP rn)
                     (rn_beneficialAddress rn) (rn_serviceCfg rn)
                     (rn_showToPublic rn) (rn_ip rn) in
    if validateComplete n then Some n else None.

(** The callback of [udp.findnode]: its variables are [nodes] and
    [nreceived].  One turn of its [for] over the nodes of a reply. *)
Definition findnode_receive (netrestrict : option (bytes -> bool))
  (toaddr : UDPAddr) (strictNodeCheck : bool) (types : NodeID -> NodeType)
  (vars : list Node * Z) (rn : rpcNode) : list Node * Z :=
  let '(nodes, nreceived) := vars in
  let nreceived := nreceived + 1 in
  match nodeFromRPC netrestrict toaddr rn with
  | None => (nodes, nreceived)
  | Some n =>
      if NodeType_eqb (types (node_ID n)) AlienNode then (nodes, nreceived)
      else if strictNodeCheck then
        if NodeType_eqb (types (node_ID n)) BrotherNode
        then (nodes ++ [n], nreceived)
        else (nodes, nreceived)
      else (nodes ++ [n], nreceived)
  end.

(** The callback itself.  It is registered for neighbors packets and
    asserts that type; the other case is not reached. *)
Definition findnode_callback_code (netrestrict : option (bytes -> bool))
  (toaddr : UDPAddr) (strictNodeCheck : bool) (vars : list Node * Z)
  (r : packet) (types : NodeID -> NodeType)
  : bool * option (list Node) * (list Node * Z) :=
  match r with
  | Neighbors reply =>
      let vars' :=
        fold_left (findnode_receive netrestrict toaddr strictNodeCheck types)
                  (neighbors_Nodes reply) vars in
      (bucketSize <=? snd vars', None, vars')
  | _ => (false, None, vars)
  end.

Definition findnode_callback (netrestrict : option (bytes -> bool))
  (toaddr : UDPAddr) (strictNodeCheck : bool) : callback :=
  Callback ([], 0) (findnode_callback_code netrestrict toaddr strictNodeCheck).

(** The Rest field that [udp.findnode] writes: ["%d"] of 1 in strict
    mode and of 0 otherwise, rlp encoded. *)
Definition findnode_rest (strictNodeCheck : bool) : list RawValue :=
  [EncodeToBytes_string (fmt_d (if strictNodeCheck then 1 else 0))].

(** [udp.findnode] up to the point where it waits on its channel. *)
Definition udp_findnode (now : Time) (tloop tarr : Z) (ch : nat)
  (netrestrict : option (bytes -> bool)) (u : udp) (toid : NodeID)
  (toaddr : UDPAddr) (target : NodeID) (strictNodeCheck : bool)
  : udp * list effect :=
  let '(u1, evs) :=
    submit_pending tloop tarr u
      (addPending toid NEIGHBORSPACKET
                  (findnode_callback netrestrict toaddr strictNodeCheck) ch) in
  (u1,
   evs ++ [Send toid toaddr FINDNODEPACKET
             (Findnode (mkFindnode target (stamp_expiration now)
                                   (findnode_rest strictNodeCheck)))]).

(** The callback of [udp.findvalue]: the value of the reply is split at
    the commas, the pieces that [ParseNode] accepts become the fallback
    nodes, and the request is complete. *)
Definition parse_nodes (results : list bytes) : list Node :=
  flat_map (fun nodeURL => match ParseNode nodeURL with
                           | Some n => [n]
                           | None => []
                           end) results.

Definition findvalue_callback_code (vars : unit) (r : packet)
  (types : NodeID -> NodeType) : bool * option (list Node) * unit :=
  match r with
  | FindvalueReply reply =>
      let results := Split comma_byte (findvalueReply_Value reply) in
      (true, Some (parse_nodes results), tt)
  | _ => (false, None, tt)
  end.

Definition findvalue_callback : callback := Callback tt findvalue_callback_code.

(** What [ReadFromUDP] gives to [readLoop]: a datagram and its sender, a
    temporary error or another error. *)
Inductive readResult :=
| ReadPacket (datagram : bytes) (from : UDPAddr)
| ReadTemporaryError
| ReadError.

(** [readLoop] over the reads that follow, each with the clock readings
    of the handler it may start.  The buffer holds 1280 bytes, so that
    only the first 1280 bytes of a datagram are looked at.  The boolean
    says whether the loop has returned (and closed the connection). *)
Fixpoint readLoop (reads : list (clock * readResult)) (u : udp)
  : udp * list effect * bool :=
  match reads with
  | [] => (u, [], false)
  | (clk, r) :: rest =>
      match r with
      | ReadTemporaryError => readLoop rest u
      | ReadError => (u, [], true)
      | ReadPacket datagram from =>
          let '(_, u1, evs1) := handlePacket clk u from (firstn 1280 datagram) in
          let '(u2, evs2, stopped) := readLoop rest u1 in
          (u2, evs1 ++ evs2, stopped)
      end
  end.

(** Turns of [loop] in a row, each with the reading of [resetTimeout]
    and the event that the [select] takes. *)
Fixpoint loop_run (turns : list (Z * loopEvent)) (t : Table) (st : loopState)
  : Table * loopState * list effect :=
  match turns with
  | [] => (t, st, [])
  | (tnow, ev) :: rest =>
      let '(_, t1, st1, evs1) := loop_step tnow ev t st in
      let '(t2, st2, evs2) := loop_run rest t1 st1 in
      (t2, st2, evs1 ++ evs2)
  end.

(** The pendings that a run brings to the loop. *)
Fixpoint arrivals (turns : list (Z * loopEvent)) : list nat :=
  match turns with
  | [] => []
  | (_, EvPending p _) :: rest => p_errc p :: arrivals rest
  | _ :: rest => arrivals rest
  end.

End Requests.

Section Collected.
Context {K : Collaborators} {N : NodeChecks}.

(** What the nodes collected by the callback of [udp.findnode] have in
    common. *)
Definition collected_ok (netrestrict : option (bytes -> bool)) (toaddr : UDPAddr)
  (strict : bool) (types : NodeID -> NodeType) (rns : list rpcNode) (n : Node)
  : Prop :=
  types (node_ID n) <> AlienNode
  /\ (strict = true -> types (node_ID n) = BrotherNode)
  /\ exists rn, In rn rns /\ nodeFromRPC netrestrict toaddr rn = Some n.

End Collected.

Section Network.
Context {C : Crypto} {K : Collaborators}.

(** A packet sent by [sender] as it reaches [receiver]: [send] writes the
    encoded packet, the [readLoop] of the receiver reads it into its
    buffer of 1280 bytes and calls [handlePacket] with the address the
    datagram comes from. *)
Definition deliver (sender receiver : udp) (from : UDPAddr) (clk : clock)
  (e : effect) : option result :=
  match e with
  | Send _ _ ptype req =>
      match send_wire sender ptype req with
      | Some datagram =>
          Some (handlePacket clk receiver from (firstn 1280 datagram))
      | None => None
      end
  | _ => None
  end.

End Network.

Section FindvalueRequest.
Context {C : Crypto} {K : Collaborators} {N : NodeChecks}.

(** One of the goroutines of [udp.findvalue], for the node [toid] whose
    [addr()] is [toaddr], up to the point where it waits on its
    channel. *)
Definition udp_findvalue_one (now : Time) (tloop tarr : Z) (ch : nat) (u : udp)
  (key : NodeID) (toid : NodeID) (toaddr : UDPAddr) : udp * list effect :=
  let '(u1, evs) :=
    submit_pending tloop tarr u
      (addPending toid FINDVALUEREPLYPACKET findvalue_callback ch) in
  (u1,
   evs ++ [Send toid toaddr FINDVALUEPACKET
             (Findvalue (mkFindvalue key (stamp_expiration now)))]).

End FindvalueRequest.

(** An entry of the pending list is what a reply from [from] of type
    [ptype] is matched against. *)
Definition pending_matches (from : NodeID) (ptype : byte) (p : pending) : bool :=
  NodeID_eqb (p_from p) from && Byte.eqb (p_ptype p) ptype.

Module SampleRun.
Import Sample.

(** Modelled from the spec: node.go is not among the sources at hand.
    The spec has the address records parsed from the segments of the
    value, empty segments being skipped: [ParseNode] here rejects the
    empty string and makes a node of any other; [NewNode] keeps the four
    fields that this file reads, and [validateComplete] accepts every
    node. *)
#[export] Instance node_checks : NodeChecks := {|
  NewNode := fun id ip udp tcp _ _ _ _ => mkNode id ip udp tcp;
  validateComplete := fun _ => true;
  ParseNode := fun url =>
    match url with
    | [] => None
    | _ => Some (mkNode url [x0a; x00; x00; x03] 30303 30303)
    end |}.

Definition key2 : bytes := str "k2".
Definition addr2 : UDPAddr := mkUDPAddr [x0a; x00; x00; x02] 30303.

(** Two transports of network 99 that know nothing of each other. *)
Definition alice : udp := udp0 99 false.
Definition bob : udp :=
  mkUdp key2 endpoint2 99 false false table0 loop_init.

Definition far_node (i : Z) : Node :=
  mkNode (pad 64 [z2b i]) [x0a; x00; x01; z2b i] 30303 30303.

(** A transport that has bonded with [id1] and knows fourteen nodes. *)
Definition udp_full : udp :=
  mkUdp key1 (mkEndpoint [x0a; x00; x00; x02] 30303 30303) 99 false false
        (mkTable (fun _ => UnknownNode)
                 (fun id => if NodeID_eqb id id1 then Some node1 else None)
                 []
                 (map far_node [1; 2; 3; 4; 5; 6; 7; 8; 9; 10; 11; 12; 13; 14])
                 [])
        loop_init.

(** The first neighbors packet with which it answers a findnode of
    [id1], and that packet on the wire. *)
Definition first_neighbors : packet :=
  match snd (findnode_handle clock0 (mkFindnode id2 2000 []) udp_full addr1 id1 [])
  with
  | Send _ _ _ m :: _ => m
  | _ => Neighbors (mkNeighbors [] 0 [])
  end.

Definition first_neighbors_wire : bytes :=
  match send_wire udp_full NEIGHBORSPACKET first_neighbors with
  | Some b => b
  | None => []
  end.

(** A transport that holds three values under the key [id2]. *)
Definition udp_kv : udp :=
  mkUdp key1 (mkEndpoint [x0a; x00; x00; x02] 30303 30303) 99 false false
        (mkTable (fun _ => UnknownNode) (fun _ => None)
                 [(id2, str "enode://a"); (id2, str "enode://b");
                  (id2, str "enode://c")]
                 [] [])
        loop_init.

Definition pong_plain : pong := mkPong endpoint1 [] 2000 [].

(** A pong that announces network 42, and a neighbors packet of one
    node. *)
Definition pong_net42 : pong := mkPong endpoint1 [] 2000 (networkid_rest 42).
Definition one_neighbor : neighbors :=
  mkNeighbors [nodeToRPC (far_node 1)] 2000 [].

(** A findvalueReply with two address records. *)
Definition reply_two : findvalueReply :=
  mkFindvalueReply id1 (str "enode://a,enode://b,") 2000.



(** A run: a pending arrives, the timer fires twice, the transport
    closes. *)
Definition sample_turns : list (Z * loopEvent) :=
  [(0, EvPending (addPending id1 PONGPACKET always 3%nat) 0);
   (500000000, EvTimeout 500000001 500000002 500000003);
   (500000004, EvTimeout 600000001 600000002 600000003);
   (600000004, EvClosing)].

(** A clock that reads an hour after [noon]. *)
Definition clock_late : clock :=
  mkClock (mkTime (unixToInternal + 4600) 0) (mkTime (unixToInternal + 4600) 0)
          (mkTime (unixToInternal + 4600) 0) 0.

Definition sample_reads : list (clock * readResult) :=
  [(clock0, ReadTemporaryError);
   (clock0, ReadPacket packet_from_k2 addr1);
   (clock0, ReadError);
   (clock0, ReadPacket packet_from_k2 addr1)].

End SampleRun.

(** An effect that leaves the transport: a packet or a bond. *)
Definition outgoing (e : effect) : Prop :=
  match e with
  | Send _ _ _ _ | GoBond _ _ _ _ => True
  | _ => False
  end.

(** An effect that is a send on a result channel. *)
Definition on_errc (e : effect) : Prop :=
  match e with
  | ErrcSend _ _ => True
  | _ => False
  end.

(** The channels of the entries that a running loop holds. *)
Definition live (K : Collaborators) (st : loopState) : list nat :=
  if running st then map p_errc (plist st) else [].

(** The channel that an event brings. *)
Definition arrival (K : Collaborators) (ev : loopEvent) : list nat :=
  match ev with
  | EvPending p _ => [p_errc p]
  | _ => []
  end.

Section Relay.
Context {K : Collaborators}.

(** The nodes of the answer of [closest] that may be relayed to the
    asking address, as [findnode.handle] collects them. *)
Definition relayed (fromIP : bytes) (cl : list Node) : list rpcNode :=
  map nodeToRPC (filter (fun n => CheckRelayIP fromIP (node_IP n)) cl).

(** Whether the last node of the answer may be relayed. *)
Fixpoint last_relayed (fromIP : bytes) (cl : list Node) : bool :=
  match cl with
  | [] => false
  | n :: rest =>
      match rest with
      | [] => CheckRelayIP fromIP (node_IP n)
      | _ => last_relayed fromIP rest
      end
  end.

End Relay.

(** A node as the table holds it: an IP of at most 16 bytes, ports of
    16 bits and an ID of 64 bytes. *)
Definition sized_node (n : Node) : Prop :=
  len (node_IP n) <= 16 /\ uint16_ok (node_UDP n) /\ uint16_ok (node_TCP n)
  /\ len (node_ID n) = 64.

(** The packets that answer a request of this transport. *)
Definition is_reply (p : packet) : bool :=
  match p with
  | Pong _ | Neighbors _ | FindvalueReply _ => true
  | _ => false
  end.

(** A send that tells a caller that its request is complete. *)
Definition completion (e : effect) : Prop :=
  match e with
  | ErrcSend _ None => True
  | _ => False
  end.
Unset Implicit Arguments.

(* ================================================================== *)
(** * Facts on bytes and slices *)
(* ================================================================== *)

Lemma b2z_range (b : byte) : 0 <= b2z b < 256.
Proof.
  unfold b2z. pose proof (Byte.to_N_bounded b). lia.
Qed.

Lemma z2b_b2z (b : byte) : z2b (b2z b) = b.
Proof.
  unfold z2b. rewrite Z.mod_small by apply b2z_range.
  unfold b2z. rewrite N2Z.id, Byte.of_to_N. reflexivity.
Qed.

Lemma b2z_z2b (z : Z) : 0 <= z < 256 -> b2z (z2b z) = z.
Proof.
  intros Hz. unfold z2b. rewrite Z.mod_small by assumption.
  destruct (Byte.of_N (Z.to_N z)) eqn:E.
  - apply Byte.to_of_N in E. unfold b2z. rewrite E. lia.
  - apply Byte.of_N_None_iff in E. lia.
Qed.

Lemma bytes_eqb_eq (a b : bytes) : bytes_eqb a b = true <-> a = b.
Proof.
  unfold bytes_eqb. destruct (list_eq_dec byte_eq_dec a b); split;
    congruence.
Qed.

Lemma bytes_eqb_refl (a : bytes) : bytes_eqb a a = true.
Proof. apply bytes_eqb_eq. reflexivity. Qed.

Lemma byte_eqb_eq (a b : byte) : Byte.eqb a b = true <-> a = b.
Proof.
  split; [apply Byte.byte_dec_bl | apply Byte.byte_dec_lb].
Qed.

Lemma byte_eqb_neq (a b : byte) : a <> b -> Byte.eqb a b = false.
Proof.
  intros H. destruct (Byte.eqb a b) eqn:E; [|reflexivity].
  apply byte_eqb_eq in E. contradiction.
Qed.

Lemma len_app {A : Type} (a b : list A) : len (a ++ b) = len a + len b.
Proof. unfold len. rewrite length_app. lia. Qed.

Lemma len_nonneg {A : Type} (a : list A) : 0 <= len a.
Proof. unfold len. lia. Qed.

Lemma slice_to_app {A : Type} (a b : list A) : slice_to (len a) (a ++ b) = a.
Proof.
  unfold slice_to, len. rewrite Nat2Z.id.
  rewrite firstn_app, Nat.sub_diag, firstn_all. simpl. apply app_nil_r.
Qed.

Lemma slice_from_app {A : Type} (a b : list A) : slice_from (len a) (a ++ b) = b.
Proof.
  unfold slice_from, len. rewrite Nat2Z.id.
  rewrite skipn_app, Nat.sub_diag, skipn_all. reflexivity.
Qed.

(* ================================================================== *)
(** * The rlp decoder undoes the encoder *)
(* ================================================================== *)

Module RLPFacts.

Lemma be_value_snoc (bs : bytes) (b : byte) :
  be_value (bs ++ [b]) = be_value bs * 256 + b2z b.
Proof. unfold be_value. rewrite fold_left_app. reflexivity. Qed.

Lemma be_digits_zero (fuel : nat) : be_digits fuel 0 = [].
Proof. destruct fuel; reflexivity. Qed.

Lemma be_digits_value (fuel : nat) :
  forall i, 0 <= i < 256 ^ Z.of_nat fuel -> be_value (be_digits fuel i) = i.
Proof.
  induction fuel as [|f IH]; intros i Hi.
  - simpl in *. assert (i = 0) by lia. subst. reflexivity.
  - cbn [be_digits]. destruct (i =? 0) eqn:E.
    + apply Z.eqb_eq in E. subst. reflexivity.
    + rewrite be_value_snoc, IH, b2z_z2b.
      * pose proof (Z.div_mod i 256). lia.
      * apply Z.mod_pos_bound. lia.
      * rewrite Nat2Z.inj_succ, Z.pow_succ_r in Hi by lia.
        split; [apply Z.div_pos; lia | apply Z.div_lt_upper_bound; lia].
Qed.

Lemma be_digits_length (k : nat) :
  forall fuel i, 0 <= i < 256 ^ Z.of_nat k -> (length (be_digits fuel i) <= k)%nat.
Proof.
  induction k as [|k IH]; intros fuel i Hi.
  - simpl in Hi. assert (i = 0) by lia. subst. rewrite be_digits_zero. simpl. lia.
  - destruct fuel as [|f]; [simpl; lia|].
    cbn [be_digits]. destruct (i =? 0); [simpl; lia|].
    rewrite length_app. simpl.
    rewrite Nat2Z.inj_succ, Z.pow_succ_r in Hi by lia.
    specialize (IH f (i / 256)).
    assert (0 <= i / 256 < 256 ^ Z.of_nat k).
    { split; [apply Z.div_pos; lia | apply Z.div_lt_upper_bound; lia]. }
    lia.
Qed.

Lemma be_digits_head (fuel : nat) :
  forall i, 0 < i < 256 ^ Z.of_nat fuel ->
  exists b t, be_digits fuel i = b :: t /\ b2z b <> 0.
Proof.
  induction fuel as [|f IH]; intros i Hi.
  - simpl in Hi. lia.
  - cbn [be_digits]. destruct (i =? 0) eqn:E; [apply Z.eqb_eq in E; lia|].
    rewrite Nat2Z.inj_succ, Z.pow_succ_r in Hi by lia.
    destruct (Z.eq_dec (i / 256) 0) as [Hz|Hz].
    + rewrite Hz, be_digits_zero. simpl. exists (z2b (i mod 256)), [].
      split; [reflexivity|]. rewrite b2z_z2b by (apply Z.mod_pos_bound; lia).
      pose proof (Z.div_mod i 256). lia.
    + destruct (IH (i / 256)) as (b & t & Hbt & Hb).
      { assert (0 <= i / 256) by (apply Z.div_pos; lia).
        split; [lia | apply Z.div_lt_upper_bound; lia]. }
      rewrite Hbt. exists b, (t ++ [z2b (i mod 256)]). split; [reflexivity|assumption].
Qed.

(** [putint] on a positive uint64: between one and eight bytes, no
    leading zero, and the value read back is the number. *)
Lemma putint_spec (i : Z) :
  0 < i < 2 ^ 64 ->
  exists b t, putint i = b :: t /\ b2z b <> 0
              /\ be_value (b :: t) = i /\ (length (b :: t) <= 8)%nat.
Proof.
  intros Hi. unfold putint. destruct (i <? 256) eqn:E.
  - apply Z.ltb_lt in E. exists (z2b i), []. repeat split.
    + rewrite b2z_z2b; lia.
    + unfold be_value. simpl. rewrite b2z_z2b; lia.
    + simpl. lia.
  - assert (Hr : 0 < i < 256 ^ Z.of_nat 8)
      by (change (256 ^ Z.of_nat 8) with (2 ^ 64); lia).
    destruct (be_digits_head 8 i Hr) as (b & t & Hbt & Hb).
    exists b, t. repeat split; try assumption.
    + rewrite <- Hbt. apply be_digits_value. change (256 ^ Z.of_nat 8) with (2 ^ 64). lia.
    + rewrite <- Hbt. apply be_digits_length. change (256 ^ Z.of_nat 8) with (2 ^ 64). lia.
Qed.

Lemma putint_length (k : nat) (i : Z) :
  (1 <= k)%nat -> 0 <= i < 256 ^ Z.of_nat k -> (length (putint i) <= k)%nat.
Proof.
  intros Hk Hi. unfold putint. destruct (i <? 256).
  - simpl. lia.
  - apply be_digits_length. assumption.
Qed.


Ltac zcases :=
  repeat match goal with
         | |- context [?a <? ?b] => destruct (Z.ltb_spec a b); try lia
         | |- context [?a <=? ?b] => destruct (Z.leb_spec a b); try lia
         | |- context [?a =? ?b] => destruct (Z.eqb_spec a b); try lia
         end.

Ltac zlt :=
  repeat match goal with
         | |- context [?a <? ?b] => destruct (Z.ltb_spec a b); try lia
         end.

Lemma readSize_putint (size : Z) (rest : bytes) :
  56 <= size < 2 ^ 64 ->
  readSize (len (putint size)) (putint size ++ rest) = Some (size, rest).
Proof.
  intros Hs. destruct (putint_spec size) as (b & t & Hp & Hb & Hv & Hl); [lia|].
  unfold readSize, len. rewrite Nat2Z.id.
  replace (Nat.ltb (length (putint size ++ rest)) (length (putint size))) with false
    by (symmetry; apply Nat.ltb_ge; rewrite length_app; lia).
  rewrite firstn_app, Nat.sub_diag, firstn_all, skipn_app, Nat.sub_diag, skipn_all.
  simpl. rewrite app_nil_r, Hp, Hv. zcases. reflexivity.
Qed.

(** A header written by [puthead] is read back by [readKind]. *)
Lemma readKind_puthead (small large : Z) (k : Kind) (n : Z) (tl : bytes) :
  (small = 128 /\ large = 183 /\ k = KString) \/
  (small = 192 /\ large = 247 /\ k = KList) ->
  0 <= n < 2 ^ 64 -> n <= len tl ->
  readKind (puthead small large n ++ tl) = Some (k, n, tl).
Proof.
  intros Hk Hn Hl. unfold puthead. destruct (Z.ltb_spec n 56) as [Hsmall|Hbig].
  - simpl. rewrite b2z_z2b by lia.
    destruct Hk as [(-> & -> & ->)|(-> & -> & ->)]; zcases;
      repeat f_equal; lia.
  - destruct (putint_spec n) as (b & t & Hp & Hb & Hv & Hlen); [lia|].
    cbn [app readKind].
    assert (Hsz : 1 <= len (putint n) <= 8).
    { unfold len. rewrite Hp. simpl length in *. lia. }
    rewrite b2z_z2b by lia.
    destruct Hk as [(-> & -> & ->)|(-> & -> & ->)]; zcases.
    + replace (183 + len (putint n) - 183) with (len (putint n)) by lia.
      rewrite readSize_putint by lia. zcases. reflexivity.
    + replace (247 + len (putint n) - 247) with (len (putint n)) by lia.
      rewrite readSize_putint by lia. zcases. reflexivity.
Qed.

Lemma dec_list_enc (p rest : bytes) :
  len p < 2 ^ 64 -> dec_list (enc_list p ++ rest) = Some (p, rest).
Proof.
  intros Hp. unfold dec_list, enc_list. rewrite <- app_assoc.
  rewrite (readKind_puthead 192 247 KList).
  - rewrite slice_to_app, slice_from_app. reflexivity.
  - right. auto.
  - pose proof (len_nonneg p). lia.
  - rewrite len_app. pose proof (len_nonneg rest). lia.
Qed.

Lemma dec_uint_enc (k : nat) (i : Z) (rest : bytes) :
  (1 <= k <= 8)%nat -> 0 <= i < 256 ^ Z.of_nat k ->
  dec_uint (Z.of_nat k) (enc_uint i ++ rest) = Some (i, rest).
Proof.
  intros Hk Hi. unfold enc_uint. pose proof (len_nonneg rest) as Hrest.
  assert (H64 : 256 ^ Z.of_nat k <= 2 ^ 64).
  { change (2 ^ 64) with (256 ^ 8). apply Z.pow_le_mono_r; lia. }
  destruct (Z.eqb_spec i 0) as [->|Hnz].
  - unfold dec_uint. simpl. zcases. reflexivity.
  - destruct (Z.ltb_spec i 128) as [Hsmall|Hbig].
    + unfold dec_uint. simpl. rewrite b2z_z2b by lia. zcases. reflexivity.
    + destruct (putint_spec i) as (b & t & Hp & Hb & Hv & Hlen); [lia|].
      pose proof (putint_length k i (proj1 Hk) Hi) as Hlk.
      unfold dec_uint. cbn [app readKind].
      assert (Hsz : 1 <= len (putint i) <= Z.of_nat k).
      { unfold len. rewrite Hp in *. simpl length in *. lia. }
      rewrite b2z_z2b by lia. pose proof (len_app (putint i) rest) as Happ.
      assert (Hb128 : (b2z b <? 128) = (i <? 128) \/ len (putint i) <> 1).
      { destruct t; [left | right; unfold len; rewrite Hp; simpl length; lia].
        unfold be_value in Hv. simpl in Hv. rewrite Hv. reflexivity. }
      zlt.
      replace (128 + len (putint i) - 128) with (len (putint i)) by lia.
      rewrite slice_to_app, slice_from_app.
      assert (E : (len (putint i) =? 1) && (b2z b <? 128) = false).
      { destruct Hb128 as [Hx|Hx].
        - rewrite Hx. destruct (Z.ltb_spec i 128); [lia|]. apply andb_false_r.
        - destruct (Z.eqb_spec (len (putint i)) 1); [contradiction|reflexivity]. }
      rewrite Hp in E |- *. rewrite E, Hv. zcases. reflexivity.
Qed.

Lemma enc_string_long (b : bytes) :
  (length b <> 1)%nat -> enc_string b = puthead 128 183 (len b) ++ b.
Proof.
  intros H. destruct b as [|x [|y t]]; try reflexivity. simpl in H. lia.
Qed.

Lemma dec_bytes_enc (b rest : bytes) :
  len b < 2 ^ 64 -> dec_bytes (enc_string b ++ rest) = Some (b, rest).
Proof.
  intros Hb. pose proof (len_nonneg b) as Hb0.
  pose proof (len_nonneg rest) as Hrest.
  destruct (Nat.eq_dec (length b) 1) as [H1|H1].
  - destruct b as [|x [|y t]]; try discriminate. unfold enc_string.
    destruct (Z.leb_spec (b2z x) 127) as [Hx|Hx].
    + unfold dec_bytes. simpl. zcases. rewrite z2b_b2z. reflexivity.
    + unfold dec_bytes. rewrite <- app_assoc.
      rewrite (readKind_puthead 128 183 KString); [| left; auto | lia |].
      * change 1 with (len [x]). rewrite slice_to_app, slice_from_app.
        zcases. reflexivity.
      * rewrite len_app. change (len [x]) with 1. lia.
  - rewrite enc_string_long by assumption. unfold dec_bytes. rewrite <- app_assoc.
    rewrite (readKind_puthead 128 183 KString); [| left; auto | lia |].
    + rewrite slice_to_app, slice_from_app.
      destruct b as [|x [|y t]]; try reflexivity. simpl in H1. lia.
    + rewrite len_app. pose proof (len_nonneg rest). lia.
Qed.

Lemma dec_array_enc (n : Z) (b rest : bytes) :
  len b = n -> 2 <= n < 2 ^ 64 ->
  dec_array n (enc_string b ++ rest) = Some (b, rest).
Proof.
  intros Hb Hn. rewrite enc_string_long by (unfold len in Hb; lia).
  unfold dec_array. rewrite <- app_assoc.
  rewrite (readKind_puthead 128 183 KString); [| left; auto | lia |].
  - rewrite Hb, Z.eqb_refl. rewrite <- Hb, slice_to_app, slice_from_app. reflexivity.
  - rewrite len_app. pose proof (len_nonneg rest). lia.
Qed.


(** *** Raw values and tails *)

Lemma readSize_bound (n : Z) (s : bytes) (v : Z) (r : bytes) :
  readSize n s = Some (v, r) -> (length r <= length s)%nat /\ 56 <= v.
Proof.
  unfold readSize. destruct (Nat.ltb (length s) (Z.to_nat n)); [discriminate|].
  destruct (firstn (Z.to_nat n) s); [discriminate|].
  destruct (b2z b =? 0); [discriminate|].
  destruct (Z.ltb_spec (be_value (b :: l)) 56); [discriminate|].
  intros H'. injection H' as <- <-. rewrite length_skipn. lia.
Qed.

Lemma readSize_app (n : Z) (s : bytes) (v : Z) (r rest : bytes) :
  readSize n s = Some (v, r) -> readSize n (s ++ rest) = Some (v, r ++ rest).
Proof.
  unfold readSize. destruct (Nat.ltb (length s) (Z.to_nat n)) eqn:E; [discriminate|].
  apply Nat.ltb_ge in E.
  replace (Nat.ltb (length (s ++ rest)) (Z.to_nat n)) with false
    by (symmetry; apply Nat.ltb_ge; rewrite length_app; lia).
  rewrite firstn_app, skipn_app.
  replace (Z.to_nat n - length s)%nat with 0%nat by lia.
  simpl. rewrite app_nil_r.
  destruct (firstn (Z.to_nat n) s); [discriminate|].
  destruct (b2z b =? 0); [discriminate|].
  destruct (be_value (b :: l) <? 56); [discriminate|].
  intros H. injection H as <- <-. reflexivity.
Qed.

Lemma readKind_bound (h : byte) (t : bytes) (k : Kind) (n : Z) (r : bytes) :
  readKind (h :: t) = Some (k, n, r) ->
  (length r <= length t)%nat /\ (k <> KByte -> 0 <= n <= len r).
Proof.
  pose proof (b2z_range h) as Hh. pose proof (len_nonneg t) as Ht.
  unfold readKind.
  destruct (Z.ltb_spec (b2z h) 128) as [H1|H1].
  { intros E. injection E as <- <- <-. split; [lia|congruence]. }
  destruct (Z.ltb_spec (b2z h) 184) as [H2|H2].
  { destruct (Z.ltb_spec (len t) (b2z h - 128)); [discriminate|].
    intros E. injection E as <- <- <-. split; [lia|]. intros _. lia. }
  destruct (Z.ltb_spec (b2z h) 192) as [H3|H3].
  { destruct (readSize (b2z h - 183) t) as [[size r']|] eqn:E; [|discriminate].
    apply readSize_bound in E.
    destruct (Z.ltb_spec (len r') size); [discriminate|].
    intros E'. injection E' as <- <- <-. split; [lia|]. intros _. lia. }
  destruct (Z.ltb_spec (b2z h) 248) as [H4|H4].
  { destruct (Z.ltb_spec (len t) (b2z h - 192)); [discriminate|].
    intros E. injection E as <- <- <-. split; [lia|]. intros _. lia. }
  destruct (readSize (b2z h - 247) t) as [[size r']|] eqn:E; [|discriminate].
  apply readSize_bound in E.
  destruct (Z.ltb_spec (len r') size); [discriminate|].
  intros E'. injection E' as <- <- <-. split; [lia|]. intros _. lia.
Qed.

Lemma readKind_app (s : bytes) (k : Kind) (n : Z) (r rest : bytes) :
  readKind s = Some (k, n, r) ->
  readKind (s ++ rest) = Some (k, n, r ++ rest).
Proof.
  destruct s as [|h t]; [discriminate|]. cbn [app readKind].
  pose proof (len_app t rest) as Happ. pose proof (len_nonneg rest) as Hrest.
  destruct (Z.ltb_spec (b2z h) 128) as [H1|H1].
  { intros E. injection E as <- <- <-. reflexivity. }
  destruct (Z.ltb_spec (b2z h) 184) as [H2|H2].
  { destruct (Z.ltb_spec (len t) (b2z h - 128)); [discriminate|].
    intros E. injection E as <- <- <-. zlt. reflexivity. }
  destruct (Z.ltb_spec (b2z h) 192) as [H3|H3].
  { destruct (readSize (b2z h - 183) t) as [[size r']|] eqn:E; [|discriminate].
    rewrite (readSize_app _ _ _ _ rest E).
    destruct (Z.ltb_spec (len r') size); [discriminate|].
    intros E'. injection E' as <- <- <-.
    pose proof (len_app r' rest). zlt. reflexivity. }
  destruct (Z.ltb_spec (b2z h) 248) as [H4|H4].
  { destruct (Z.ltb_spec (len t) (b2z h - 192)); [discriminate|].
    intros E. injection E as <- <- <-. zlt. reflexivity. }
  destruct (readSize (b2z h - 247) t) as [[size r']|] eqn:E; [|discriminate].
  rewrite (readSize_app _ _ _ _ rest E).
  destruct (Z.ltb_spec (len r') size); [discriminate|].
  intros E'. injection E' as <- <- <-.
  pose proof (len_app r' rest). zlt. reflexivity.
Qed.

Lemma dec_raw_app (s : bytes) (v : RawValue) (r rest : bytes) :
  dec_raw s = Some (v, r) -> dec_raw (s ++ rest) = Some (v, r ++ rest).
Proof.
  unfold dec_raw. destruct (readKind s) as [[[k n] r']|] eqn:E; [|discriminate].
  rewrite (readKind_app _ _ _ _ rest E).
  destruct s as [|h t]; [discriminate|]. cbn [app].
  apply readKind_bound in E. destruct E as [Hr Hn].
  destruct k.
  - intros E'. injection E' as <- <-. reflexivity.
  - specialize (Hn ltac:(discriminate)). unfold len in Hn.
    intros E'. injection E' as <- <-. rewrite !length_app.
    replace (length t + length rest - (length r' + length rest)
             + Z.to_nat n)%nat
      with (length t - length r' + Z.to_nat n)%nat by lia.
    rewrite firstn_app, skipn_app.
    replace (length t - length r' + Z.to_nat n - length t)%nat with 0%nat by lia.
    simpl. rewrite app_nil_r. reflexivity.
  - specialize (Hn ltac:(discriminate)). unfold len in Hn.
    intros E'. injection E' as <- <-. rewrite !length_app.
    replace (length t + length rest - (length r' + length rest)
             + Z.to_nat n)%nat
      with (length t - length r' + Z.to_nat n)%nat by lia.
    rewrite firstn_app, skipn_app.
    replace (length t - length r' + Z.to_nat n - length t)%nat with 0%nat by lia.
    simpl. rewrite app_nil_r. reflexivity.
Qed.

Lemma dec_tail_enc (rest : list RawValue) :
  Forall wf_raw rest ->
  forall fuel, (length (enc_tail rest) <= fuel)%nat ->
  dec_tail fuel (enc_tail rest) = Some rest.
Proof.
  induction 1 as [|r rs Hr _ IH]; intros fuel Hf.
  - destruct fuel; reflexivity.
  - unfold enc_tail in *. cbn [map concat] in *.
    rewrite length_app in Hf. unfold raw_bytes at 1 in Hf. simpl length in Hf.
    destruct fuel as [|f]; [lia|].
    unfold raw_bytes at 1. cbn [app dec_tail].
    change (raw_hd r :: raw_tl r ++ concat (map raw_bytes rs))
      with (raw_bytes r ++ concat (map raw_bytes rs)).
    rewrite (dec_raw_app _ _ _ (concat (map raw_bytes rs)) Hr). cbn [app].
    rewrite IH by lia. reflexivity.
Qed.


(** *** The structs *)

Lemma enc_list_len (p : bytes) : len p <= len (enc_list p).
Proof.
  unfold enc_list. rewrite len_app.
  pose proof (len_nonneg (puthead 192 247 (len p))). lia.
Qed.

Lemma enc_string_len (b : bytes) : len b <= len (enc_string b).
Proof.
  destruct (Nat.eq_dec (length b) 1) as [H1|H1].
  - destruct b as [|x [|y t]]; try discriminate. unfold enc_string.
    destruct (b2z x <=? 127); [lia|]. rewrite len_app.
    pose proof (len_nonneg (puthead 128 183 1)). lia.
  - rewrite enc_string_long by assumption. rewrite len_app.
    pose proof (len_nonneg (puthead 128 183 (len b))). lia.
Qed.

Lemma dec_uint16_enc (i : Z) (rest : bytes) :
  uint16_ok i -> dec_uint 2 (enc_uint i ++ rest) = Some (i, rest).
Proof.
  intros H. apply (dec_uint_enc 2); [lia | exact H].
Qed.

Lemma dec_uint64_enc (i : Z) (rest : bytes) :
  uint64_ok i -> dec_uint 8 (enc_uint i ++ rest) = Some (i, rest).
Proof.
  intros H. apply (dec_uint_enc 8); [lia | exact H].
Qed.

(** Splits the length of an encoding into the lengths of its parts. *)
Ltac pose_new H :=
  let T := type of H in
  lazymatch goal with
  | _ : T |- _ => fail
  | _ => pose proof H
  end.

Ltac lens :=
  repeat match goal with
         | |- context [len (?a ++ ?b)] => pose_new (len_app a b)
         | H : context [len (?a ++ ?b)] |- _ => pose_new (len_app a b)
         | |- context [len (enc_list ?p)] => pose_new (enc_list_len p)
         | H : context [len (enc_list ?p)] |- _ => pose_new (enc_list_len p)
         | H : context [len (enc_string ?p)] |- _ => pose_new (enc_string_len p)
         | |- context [len ?p] => pose_new (len_nonneg p)
         | H : context [len ?p] |- _ => pose_new (len_nonneg p)
         end.

Lemma dec_endpoint_enc (e : rpcEndpoint) (rest : bytes) :
  wf_endpoint e -> len (enc_endpoint e) < 2 ^ 64 ->
  dec_endpoint (enc_endpoint e ++ rest) = Some (e, rest).
Proof.
  intros [Hu Ht] Hlen. unfold dec_endpoint, enc_endpoint in *.
  rewrite dec_list_enc by (lens; lia).
  rewrite dec_bytes_enc by (lens; lia).
  rewrite dec_uint16_enc by assumption.
  rewrite <- (app_nil_r (enc_uint (ep_TCP e))).
  rewrite dec_uint16_enc by assumption.
  destruct e; reflexivity.
Qed.


Lemma dec_list_enc_nil (p : bytes) :
  len p < 2 ^ 64 -> dec_list (enc_list p) = Some (p, []).
Proof.
  intros H. rewrite <- (app_nil_r (enc_list p)). apply dec_list_enc, H.
Qed.

Lemma dec_uint64_enc_nil (i : Z) :
  uint64_ok i -> dec_uint 8 (enc_uint i) = Some (i, []).
Proof.
  intros H. rewrite <- (app_nil_r (enc_uint i)). apply dec_uint64_enc, H.
Qed.

Lemma dec_bytes_enc_nil (b : bytes) :
  len b < 2 ^ 64 -> dec_bytes (enc_string b) = Some (b, []).
Proof.
  intros H. rewrite <- (app_nil_r (enc_string b)). apply dec_bytes_enc, H.
Qed.

Lemma dec_tail_enc_all (rest : list RawValue) :
  Forall wf_raw rest ->
  dec_tail (length (enc_tail rest)) (enc_tail rest) = Some rest.
Proof.
  intros H. apply dec_tail_enc; [assumption | lia].
Qed.

Lemma enc_list_cons (p : bytes) : exists h t, enc_list p = h :: t.
Proof.
  unfold enc_list, puthead. destruct (len p <? 56); simpl; eauto.
Qed.

Lemma dec_rpcNode_enc (n : rpcNode) (rest : bytes) :
  wf_rpcNode n -> len (enc_rpcNode n) < 2 ^ 64 ->
  dec_rpcNode (enc_rpcNode n ++ rest) = Some (zero_unexported_node n, rest).
Proof.
  intros (Hu & Ht & Hid) Hlen. unfold dec_rpcNode, enc_rpcNode in *.
  rewrite dec_list_enc by (lens; lia).
  rewrite dec_bytes_enc by (lens; lia).
  rewrite !dec_uint16_enc by assumption.
  rewrite <- (app_nil_r (enc_string (rn_ID n))).
  rewrite dec_array_enc by (assumption || lia).
  reflexivity.
Qed.

Lemma dec_rpcNodes_enc (ns : list rpcNode) :
  Forall wf_rpcNode ns ->
  len (concat (map enc_rpcNode ns)) < 2 ^ 64 ->
  forall fuel, (length (concat (map enc_rpcNode ns)) <= fuel)%nat ->
  dec_rpcNodes fuel (concat (map enc_rpcNode ns))
  = Some (map zero_unexported_node ns).
Proof.
  induction 1 as [|n ns Hn _ IH]; intros Hlen fuel Hf.
  - destruct fuel; reflexivity.
  - cbn [map concat] in *. rewrite length_app in Hf. rewrite len_app in Hlen.
    pose proof (len_nonneg (enc_rpcNode n)).
    pose proof (len_nonneg (concat (map enc_rpcNode ns))).
    destruct (enc_list_cons (enc_string (rn_IP n) ++ enc_uint (rn_UDP n)
                ++ enc_uint (rn_TCP n) ++ enc_string (rn_ID n)))
      as (h & t & Hht).
    fold (enc_rpcNode n) in Hht.
    destruct fuel as [|f]; [rewrite Hht in Hf; simpl in Hf; lia|].
    assert (Hstep : forall s, dec_rpcNodes (S f) (enc_rpcNode n ++ s)
              = match dec_rpcNode (enc_rpcNode n ++ s) with
                | Some (n', r) =>
                    match dec_rpcNodes f r with
                    | Some ns' => Some (n' :: ns')
                    | None => None
                    end
                | None => None
                end).
    { intros s. rewrite Hht. reflexivity. }
    rewrite Hstep, dec_rpcNode_enc by (assumption || lia).
    rewrite IH; [reflexivity | lia |].
    rewrite Hht in Hf. simpl in Hf. lia.
Qed.

(** Decoding the body that [rlp.Encode] wrote gives the message back,
    the fields that are not exported being reset. *)
Lemma decode_body_encode `{C : Crypto} (m : packet) :
  wf_packet m ->
  decode_body (ptype_of m) (rlp_encode m) = inl (zero_unexported m).
Proof.
  intros [Hf Hlen]. destruct m as [p|p|p|p|p|p|p|p];
    cbn [ptype_of decode_body rlp_encode wf_fields zero_unexported] in *;
    unfold decode_body; cbn [Byte.eqb ptype_of]; simpl Byte.eqb.
  - destruct Hf as (Hv & Hfrom & Hto & He & Hrest).
    unfold dec_ping. rewrite dec_list_enc_nil by (lens; lia).
    rewrite dec_uint64_enc by assumption.
    rewrite !dec_endpoint_enc by (assumption || (lens; lia)).
    rewrite dec_uint64_enc by assumption.
    rewrite dec_tail_enc_all by assumption. destruct p; reflexivity.
  - destruct Hf as (Hto & He & Hrest).
    unfold dec_pong. rewrite dec_list_enc_nil by (lens; lia).
    rewrite dec_endpoint_enc by (assumption || (lens; lia)).
    rewrite dec_bytes_enc by (lens; lia).
    rewrite dec_uint64_enc by assumption.
    rewrite dec_tail_enc_all by assumption. destruct p; reflexivity.
  - destruct Hf as (Ht & He & Hrest).
    unfold dec_findnode. rewrite dec_list_enc_nil by (lens; lia).
    rewrite dec_array_enc by (assumption || lia).
    rewrite dec_uint64_enc by assumption.
    rewrite dec_tail_enc_all by assumption. destruct p; reflexivity.
  - destruct Hf as (Hn & He & Hrest).
    unfold dec_neighbors. rewrite dec_list_enc_nil by (lens; lia).
    rewrite dec_list_enc by (lens; lia).
    rewrite dec_rpcNodes_enc by (assumption || (lens; lia) || lia).
    rewrite dec_uint64_enc by assumption.
    rewrite dec_tail_enc_all by assumption. reflexivity.
  - destruct Hf as (Hk & Hfrom & He).
    unfold dec_store. rewrite dec_list_enc_nil by (lens; lia).
    rewrite dec_array_enc by (assumption || lia).
    rewrite dec_endpoint_enc by (assumption || (lens; lia)).
    rewrite dec_uint64_enc by assumption.
    rewrite dec_bytes_enc_nil by (lens; lia). destruct p; reflexivity.
  - unfold dec_storeReply. rewrite dec_list_enc_nil by (lens; lia).
    rewrite dec_uint64_enc_nil by assumption. reflexivity.
  - destruct Hf as (Hk & He).
    unfold dec_findvalue. rewrite dec_list_enc_nil by (lens; lia).
    rewrite dec_array_enc by (assumption || lia).
    rewrite dec_uint64_enc_nil by assumption. destruct p; reflexivity.
  - unfold dec_findvalueReply. rewrite dec_list_enc_nil by (lens; lia).
    rewrite !dec_bytes_enc by (lens; lia).
    rewrite dec_uint64_enc_nil by assumption. destruct p; reflexivity.
Qed.

End RLPFacts.

(* ================================================================== *)
(** * Decoding what [encodePacket] wrote *)
(* ================================================================== *)

Lemma slice_to_len {A : Type} (n : Z) (a b : list A) :
  len a = n -> slice_to n (a ++ b) = a.
Proof. intros <-. apply slice_to_app. Qed.

Lemma slice_from_len {A : Type} (n : Z) (a b : list A) :
  len a = n -> slice_from n (a ++ b) = b.
Proof. intros <-. apply slice_from_app. Qed.

Lemma go_copy_over (old new rest : bytes) :
  length old = length new -> go_copy (old ++ rest) new = new ++ rest.
Proof.
  intros H. unfold go_copy. rewrite length_app, <- H.
  rewrite firstn_all2 by lia. rewrite H.
  rewrite skipn_app, <- H, Nat.sub_diag, skipn_all. reflexivity.
Qed.

Section CodecFacts.
Context {C : Crypto} (L : CryptoLaws C).

(** The frame that [encodePacket] builds: hash, signature, type tag and
    body, the hash covering what follows it and the signature what
    follows the signature. *)
Lemma encodePacket_frame (priv : PrivateKey) (ptype : byte) (req : packet) :
  exists sig,
    Sign (Keccak256 (ptype :: rlp_encode req)) priv = Some sig
    /\ length sig = 65%nat
    /\ recoverNodeID (Keccak256 (ptype :: rlp_encode req)) sig
       = Some (PubkeyID priv)
    /\ encodePacket priv ptype req
       = inl (Keccak256 (sig ++ ptype :: rlp_encode req)
              ++ sig ++ ptype :: rlp_encode req).
Proof.
  destruct (sign_recover L (Keccak256 (ptype :: rlp_encode req)) priv
              (keccak_len L _)) as (sig & Hsig & Hlen & Hrec).
  exists sig. repeat split; try assumption.
  unfold encodePacket. cbn [app].
  rewrite (slice_from_len headSize headSpace) by reflexivity.
  rewrite Hsig. f_equal.
  assert (H1 : copy_at macSize (headSpace ++ ptype :: rlp_encode req) sig
               = repeat x00 32 ++ sig ++ ptype :: rlp_encode req).
  { unfold copy_at.
    change headSpace with (repeat x00 32 ++ repeat x00 65).
    rewrite <- app_assoc.
    rewrite (slice_to_len macSize (repeat x00 32)) by reflexivity.
    rewrite (slice_from_len macSize (repeat x00 32)) by reflexivity.
    rewrite go_copy_over by (rewrite Hlen; reflexivity). reflexivity. }
  rewrite H1.
  rewrite (slice_from_len macSize (repeat x00 32)) by reflexivity.
  apply go_copy_over. rewrite (keccak_len L). reflexivity.
Qed.

(** Decoding a frame of that layout. *)
Lemma decodePacket_frame (sig : bytes) (ptype : byte) (body : bytes) (id : NodeID) :
  length sig = 65%nat ->
  recoverNodeID (Keccak256 (ptype :: body)) sig = Some id ->
  decodePacket (Keccak256 (sig ++ ptype :: body) ++ sig ++ ptype :: body)
  = mkDecoded (decode_body ptype body) id (Keccak256 (sig ++ ptype :: body)).
Proof.
  intros Hlen Hrec. unfold decodePacket.
  set (hash := Keccak256 (sig ++ ptype :: body)).
  assert (Hh : len hash = macSize).
  { unfold len, hash. rewrite (keccak_len L). reflexivity. }
  assert (Hs : len sig = sigSize) by (unfold len; rewrite Hlen; reflexivity).
  assert (Hhs : len (hash ++ sig) = headSize).
  { rewrite len_app, Hh, Hs. reflexivity. }
  destruct (Z.ltb_spec (len (hash ++ sig ++ ptype :: body)) (headSize + 1)) as [Hsmall|_].
  { rewrite app_assoc, len_app, Hhs in Hsmall.
    unfold len in Hsmall. simpl length in Hsmall. lia. }
  rewrite (slice_to_len macSize hash) by assumption.
  rewrite (slice_from_len macSize hash) by assumption.
  fold hash. rewrite bytes_eqb_refl. cbn [negb].
  rewrite (slice_to_len sigSize sig) by assumption.
  rewrite app_assoc.
  rewrite (slice_from_len headSize (hash ++ sig)) by assumption.
  rewrite Hrec. reflexivity.
Qed.

(** Decoding what [encodePacket] produced succeeds and gives the sender
    and the message, the fields that are not exported being reset. *)
Theorem decodePacket_encodePacket (priv : PrivateKey) (m : packet) :
  wf_packet m ->
  exists buf,
    encodePacket priv (ptype_of m) m = inl buf
    /\ d_req (decodePacket buf) = inl (zero_unexported m)
    /\ d_fromID (decodePacket buf) = PubkeyID priv
    /\ d_hash (decodePacket buf) = slice_to macSize buf.
Proof.
  intros Hwf.
  destruct (encodePacket_frame priv (ptype_of m) m)
    as (sig & _ & Hlen & Hrec & Henc).
  eexists. split; [exact Henc|].
  rewrite (decodePacket_frame _ _ _ _ Hlen Hrec). cbn [d_req d_fromID d_hash].
  rewrite RLPFacts.decode_body_encode by assumption.
  repeat split.
  rewrite slice_to_len; [reflexivity|].
  unfold len. rewrite (keccak_len L). reflexivity.
Qed.

Lemma zero_unexported_id (m : packet) :
  unexported_zero m -> zero_unexported m = m.
Proof.
  destruct m as [p|p|p|p|p|p|p|p]; cbn; try reflexivity.
  - intros H. destruct p as [ns e r]. cbn in *. f_equal. f_equal.
    induction H as [|n ns' Hn _ IH]; [reflexivity|].
    cbn. rewrite IH. f_equal.
    destruct n as [ip udp tcp id ba sc sp ip']. unfold unexported_zero_node in Hn.
    cbn in Hn. destruct Hn as (Ha & Hb & Hc & Hd). subst. reflexivity.
  - intros H. destruct p; cbn in *. subst. reflexivity.
Qed.

End CodecFacts.

(* ================================================================== *)
(** * Decimal numbers and the Rest field *)
(* ================================================================== *)


Lemma digit_val_char (d : Z) :
  0 <= d <= 9 -> digit_val (z2b (48 + d)) = Some d /\ is_digit (z2b (48 + d)).
Proof.
  intros Hd. unfold digit_val, is_digit. rewrite b2z_z2b by lia.
  replace (48 + d - 48) with d by lia.
  destruct (Z.leb_spec 0 d); [|lia]. destruct (Z.leb_spec d 9); [|lia].
  split; [reflexivity | lia].
Qed.

Lemma dec_digits_spec (f : nat) :
  forall n acc, 0 <= n < 10 ^ Z.of_nat (S f) ->
  exists ds k,
    dec_digits (S f) n acc = ds ++ acc /\ ds <> [] /\ Forall is_digit ds
    /\ (length ds <= S f)%nat
    /\ forall a s, parse_digits_from a (ds ++ s) = parse_digits_from (a * k + n) s.
Proof.
  induction f as [|f IH]; intros n acc Hn.
  - change (10 ^ Z.of_nat 1) with 10 in Hn. cbn [dec_digits].
    destruct (Z.ltb_spec n 10); [|lia].
    rewrite Z.mod_small by lia.
    destruct (digit_val_char n) as [Hv Hd]; [lia|].
    exists [z2b (48 + n)], 10. repeat split.
    + discriminate.
    + constructor; [assumption | constructor].
    + simpl. lia.
    + intros a s. cbn [app parse_digits_from]. rewrite Hv. reflexivity.
  - remember (S f) as f1 eqn:Ef. cbn [dec_digits].
    destruct (digit_val_char (n mod 10)) as [Hv Hd].
    { pose proof (Z.mod_pos_bound n 10). lia. }
    destruct (Z.ltb_spec n 10) as [Hlt|Hge].
    + rewrite Z.mod_small in * by lia.
      exists [z2b (48 + n)], 10. repeat split.
      * discriminate.
      * constructor; [assumption | constructor].
      * simpl. lia.
      * intros a s. cbn [app parse_digits_from]. rewrite Hv. reflexivity.
    + destruct (IH (n / 10) (z2b (48 + n mod 10) :: acc))
        as (ds & k & He & Hne & Hall & Hlen & Hp).
      { rewrite Nat2Z.inj_succ, Z.pow_succ_r in Hn by lia.
        split; [apply Z.div_pos; lia | apply Z.div_lt_upper_bound; lia]. }
      exists (ds ++ [z2b (48 + n mod 10)]), (k * 10). repeat split.
      * rewrite He, <- app_assoc. reflexivity.
      * destruct ds; discriminate.
      * apply Forall_app. split; [assumption | constructor; [assumption|constructor]].
      * rewrite length_app. simpl. lia.
      * intros a s. rewrite <- app_assoc, Hp. cbn [app parse_digits_from].
        rewrite Hv. f_equal. pose proof (Z.div_mod n 10). lia.
Qed.

Lemma fmt_d_spec (n : Z) :
  0 <= n < 2 ^ 64 ->
  fmt_d n <> [] /\ Forall is_digit (fmt_d n) /\ (length (fmt_d n) <= 20)%nat
  /\ forall s, parse_digits_from 0 (fmt_d n ++ s) = parse_digits_from n s.
Proof.
  intros Hn. unfold fmt_d.
  destruct (dec_digits_spec 19 n []) as (ds & k & He & Hne & Hall & Hlen & Hp).
  { change (10 ^ Z.of_nat 20) with 100000000000000000000. lia. }
  rewrite He, app_nil_r. repeat split; try assumption.
  intros s. rewrite Hp. reflexivity.
Qed.

Lemma is_digit_not (c x : byte) :
  is_digit c -> (b2z x < 48 \/ 57 < b2z x) -> Byte.eqb c x = false.
Proof.
  intros Hc Hx. apply byte_eqb_neq. intros ->. unfold is_digit in Hc. lia.
Qed.

(** [Atoi] reads back what [%d] printed, up to the largest int. *)
Lemma Atoi_fmt_d (n : Z) : 0 <= n < 2 ^ 63 -> Atoi (fmt_d n) = Some n.
Proof.
  intros Hn. destruct (fmt_d_spec n) as (Hne & Hall & _ & Hp); [lia|].
  specialize (Hp []). rewrite app_nil_r in Hp.
  destruct (fmt_d n) as [|c t] eqn:E; [contradiction|].
  unfold Atoi. inversion Hall as [|? ? Hc _]; subst.
  rewrite (is_digit_not c "-"%byte Hc) by (left; vm_compute; reflexivity).
  rewrite (is_digit_not c "+"%byte Hc) by (left; vm_compute; reflexivity).
  unfold parse_digits. rewrite Hp. cbn [parse_digits_from].
  unfold minInt64, maxInt64.
  destruct (Z.leb_spec (- 2 ^ 63) n); [|lia].
  destruct (Z.leb_spec n (2 ^ 63 - 1)); [|lia]. reflexivity.
Qed.

Lemma Split_digits (ds rest : bytes) :
  Forall is_digit ds ->
  exists fs, Split tab_byte (ds ++ tab_byte :: rest) = ds :: fs.
Proof.
  induction 1 as [|c ds Hc _ IH].
  - cbn. eauto.
  - cbn [app Split].
    rewrite (is_digit_not c tab_byte Hc) by (left; vm_compute; reflexivity).
    destruct IH as (fs & ->). eauto.
Qed.

Lemma raw_tl_EncodeToBytes (s : bytes) :
  (2 <= length s <= 55)%nat -> raw_tl (EncodeToBytes_string s) = s.
Proof.
  intros Hs. unfold EncodeToBytes_string.
  rewrite RLPFacts.enc_string_long by lia. unfold puthead.
  destruct (Z.ltb_spec (len s) 56) as [_|H]; [reflexivity|].
  unfold len in H. lia.
Qed.

(** The Rest field written by a peer whose network id is [n] is read
    back as [n]. *)
Lemma rest_network_id_sent (n : Z) (more : list RawValue) :
  0 <= n < 2 ^ 63 -> rest_network_id (networkid_rest n ++ more) = n.
Proof.
  intros Hn. destruct (fmt_d_spec n) as (Hne & Hall & Hlen & _); [lia|].
  unfold networkid_rest, rest_network_id. cbn [app].
  rewrite raw_tl_EncodeToBytes.
  - destruct (Split_digits (fmt_d n) [] Hall) as (fs & ->).
    rewrite Atoi_fmt_d by assumption.
    unfold to_uint64. apply Z.mod_small. lia.
  - rewrite length_app. simpl. destruct (fmt_d n); [contradiction|]. simpl in *. lia.
Qed.

(* ================================================================== *)
(** * The handlers *)
(* ================================================================== *)

Lemma NodeID_eqb_eq (a b : NodeID) : NodeID_eqb a b = true <-> a = b.
Proof. apply bytes_eqb_eq. Qed.

Lemma NodeID_eqb_neq (a b : NodeID) : a <> b -> NodeID_eqb a b = false.
Proof.
  intros H. destruct (NodeID_eqb a b) eqn:E; [|reflexivity].
  apply NodeID_eqb_eq in E. contradiction.
Qed.

Lemma NodeType_eqb_eq (a b : NodeType) : NodeType_eqb a b = true <-> a = b.
Proof. destruct a, b; cbn; split; congruence. Qed.

Section HandlerFacts.
Context {C : Crypto} {K : Collaborators}.

(** The loop leaves the classification of nodes alone. *)
Lemma gotreply_scan_nodeTypes (r : reply) (l : list pending) :
  forall t, nodeTypes (snd (fst (fst (gotreply_scan r t l)))) = nodeTypes t.
Proof.
  induction l as [|p rest IH]; intros t; cbn [gotreply_scan]; [reflexivity|].
  destruct (NodeID_eqb (p_from p) (r_from r) && Byte.eqb (p_ptype p) (r_ptype r)).
  - destruct (run_callback (p_callback p) (r_data r) (nodeTypes t))
      as [[done fb] cb'].
    set (t1 := match fb with Some ns => SetFallbackNodes t ns | None => t end).
    assert (Ht1 : nodeTypes t1 = nodeTypes t) by (unfold t1; destruct fb; reflexivity).
    destruct done; [exact Ht1|].
    specialize (IH t1). destruct (gotreply_scan r t1 rest) as [[[m t2] rest'] evs].
    cbn in *. congruence.
  - specialize (IH t). destruct (gotreply_scan r t rest) as [[[m t2] rest'] evs].
    exact IH.
Qed.

Lemma loop_step_nodeTypes (tnow : Z) (ev : loopEvent) (t : Table) (st : loopState) :
  nodeTypes (snd (fst (fst (loop_step tnow ev t st)))) = nodeTypes t.
Proof.
  unfold loop_step. destruct (running st); [|reflexivity].
  destruct (resetTimeout tnow st) as [st1 evs1].
  destruct (enabled st1 ev); [|reflexivity].
  destruct ev as [|p now|r|now since later]; cbn [loop_case].
  - reflexivity.
  - reflexivity.
  - pose proof (gotreply_scan_nodeTypes r (plist st1) t) as H.
    destruct (gotreply_scan r t (plist st1)) as [[[m t'] l'] evs]. exact H.
  - destruct (timeout_scan now (plist st1)) as [hit l'].
    destruct hit; destruct (ntpFailureThreshold <? _);
      try destruct (ntpWarningCooldown <=? _); reflexivity.
Qed.

Lemma handleReply_nodeTypes (tloop : Z) (u : udp) (from : NodeID) (ptype : byte)
  (req : packet) :
  nodeTypes (table (snd (fst (handleReply tloop u from ptype req))))
  = nodeTypes (table u).
Proof.
  unfold handleReply. destruct (closing u); [reflexivity|].
  pose proof (loop_step_nodeTypes tloop (EvGotReply (mkReply from ptype req))
                (table u) (loop u)) as H.
  destruct (loop_step _ _ _ _) as [[[m t'] l'] evs]. exact H.
Qed.

Lemma handleReply_config (tloop : Z) (u : udp) (from : NodeID) (ptype : byte)
  (req : packet) :
  let u' := snd (fst (handleReply tloop u from ptype req)) in
  networkid u' = networkid u /\ strictNodeCheck u' = strictNodeCheck u.
Proof.
  unfold handleReply. destruct (closing u); [split; reflexivity|].
  destruct (loop_step _ _ _ _) as [[[m t'] l'] evs]. split; reflexivity.
Qed.

(** [processRestInPingPong] touches the classification of the sender
    only. *)
Lemma processRest_other (Rest : list RawValue) (u : udp) (fromID id : NodeID) :
  id <> fromID ->
  GetNodeType (table (snd (processRestInPingPong Rest u fromID))) id
  = GetNodeType (table u) id.
Proof.
  intros Hne. unfold processRestInPingPong.
  destruct (rest_network_id Rest =? networkid u).
  - cbn. rewrite NodeID_eqb_neq by assumption. reflexivity.
  - destruct (negb (rest_network_id Rest =? 0)); [|reflexivity].
    cbn. rewrite NodeID_eqb_neq by assumption. reflexivity.
Qed.

(** A handler touches the classification of the sender only. *)
Lemma handle_other (clk : clock) (p : packet) (u : udp) (from : UDPAddr)
  (fromID : NodeID) (mac : bytes) (id : NodeID) :
  id <> fromID ->
  GetNodeType (table (snd (fst (handle clk p u from fromID mac)))) id
  = GetNodeType (table u) id.
Proof.
  intros Hne. unfold GetNodeType.
  destruct p as [q|q|q|q|q|q|q|q]; cbn [handle].
  - unfold ping_handle. destruct (expired _ _); [reflexivity|].
    pose proof (processRest_other (ping_Rest q) u fromID id Hne) as Hp.
    destruct (processRestInPingPong (ping_Rest q) u fromID) as [ty u1].
    cbn [snd] in Hp. unfold GetNodeType in Hp.
    destruct (negb _); [|exact Hp].
    pose proof (handleReply_nodeTypes (clk_loop clk) u1 fromID PINGPACKET (Ping q)) as Hr.
    destruct (handleReply _ _ _ _ _) as [[m u2] evs]. cbn in *.
    rewrite Hr. exact Hp.
  - unfold pong_handle. destruct (expired _ _); [reflexivity|].
    pose proof (processRest_other (pong_Rest q) u fromID id Hne) as Hp.
    destruct (processRestInPingPong (pong_Rest q) u fromID) as [ty u1].
    cbn [snd] in Hp. unfold GetNodeType in Hp.
    pose proof (handleReply_nodeTypes (clk_loop clk) u1 fromID PONGPACKET (Pong q)) as Hr.
    destruct (handleReply _ _ _ _ _) as [[m u2] evs]. cbn in *.
    rewrite Hr. exact Hp.
  - unfold findnode_handle. destruct (expired _ _); [reflexivity|].
    destruct (db_node _ _); reflexivity.
  - unfold neighbors_handle. destruct (expired _ _); [reflexivity|].
    pose proof (handleReply_nodeTypes (clk_loop clk) u fromID NEIGHBORSPACKET
                  (Neighbors q)) as Hr.
    destruct (handleReply _ _ _ _ _) as [[m u2] evs]. cbn in *.
    rewrite Hr. reflexivity.
  - unfold store_handle. destruct (expired _ _); [reflexivity|].
    destruct (db_node _ _); [|reflexivity].
    destruct (SetKey _ _ _ _); reflexivity.
  - unfold storeReply_handle. destruct (expired _ _); reflexivity.
  - unfold findvalue_handle. destruct (expired _ _); reflexivity.
  - unfold findvalueReply_handle. destruct (expired _ _); [reflexivity|].
    pose proof (handleReply_nodeTypes (clk_loop clk) u fromID FINDVALUEREPLYPACKET
                  (FindvalueReply q)) as Hr.
    destruct (handleReply _ _ _ _ _) as [[m u2] evs]. cbn in *.
    rewrite Hr. reflexivity.
Qed.

(** Once a node is classified as alien, no packet that comes in changes
    that. *)
Lemma handlePacket_keeps_alien (clk : clock) (u : udp) (from : UDPAddr)
  (buf : bytes) (id : NodeID) :
  GetNodeType (table u) id = AlienNode ->
  GetNodeType (table (snd (fst (handlePacket clk u from buf)))) id = AlienNode.
Proof.
  intros Ha. unfold handlePacket.
  destruct (NodeType_eqb (GetNodeType (table u) (d_fromID (decodePacket buf)))
              AlienNode) eqn:E; [exact Ha|].
  destruct (d_req (decodePacket buf)) as [p|e]; [|exact Ha].
  assert (Hne : id <> d_fromID (decodePacket buf)).
  { intros ->. rewrite Ha in E. discriminate. }
  pose proof (handle_other clk p u from (d_fromID (decodePacket buf))
                (d_hash (decodePacket buf)) id Hne) as H.
  destruct (handle _ _ _ _ _ _) as [[err u'] evs]. cbn in *. congruence.
Qed.

End HandlerFacts.

Section HandlerClaims.
Context {C : Crypto} {K : Collaborators}.

Lemma processRest_strict (b : bool) (Rest : list RawValue) (u : udp) (fromID : NodeID) :
  fst (processRestInPingPong Rest (set_strict b u) fromID)
  = fst (processRestInPingPong Rest u fromID)
  /\ table (snd (processRestInPingPong Rest (set_strict b u) fromID))
     = table (snd (processRestInPingPong Rest u fromID))
  /\ strictNodeCheck (snd (processRestInPingPong Rest u fromID)) = strictNodeCheck u
  /\ networkid (snd (processRestInPingPong Rest u fromID)) = networkid u.
Proof.
  unfold processRestInPingPong. cbn [networkid set_strict table].
  destruct (rest_network_id Rest =? networkid u); [repeat split|].
  destruct (negb (rest_network_id Rest =? 0)); repeat split.
Qed.


(** C3.  A packet whose sender is classified as Alien is turned away by
    [handlePacket] before any handler runs: the error is returned, the
    transport is unchanged, nothing is sent and nothing is logged as
    handled. *)
Theorem handlePacket_rejects_alien (clk : clock) (u : udp) (from : UDPAddr)
  (buf : bytes) :
  GetNodeType (table u) (d_fromID (decodePacket buf)) = AlienNode ->
  handlePacket clk u from buf = (Some errAlienSeen, u, []).
Proof.
  intros H. unfold handlePacket. rewrite H. reflexivity.
Qed.

(** The two ways through [ping.handle] for a ping that has not
    expired. *)
Lemma ping_handle_cases (clk : clock) (req : ping) (u : udp)
  (from : UDPAddr) (fromID : NodeID) (mac : bytes) :
  expired (clk_now clk) (ping_Expiration req) = false ->
  let ty := fst (processRestInPingPong (ping_Rest req) u fromID) in
  let u1 := snd (processRestInPingPong (ping_Rest req) u fromID) in
  let r := ping_handle clk req u from fromID mac in
  (strictNodeCheck u = true /\ ty <> BrotherNode -> r = (None, u1, []))
  /\ (~ (strictNodeCheck u = true /\ ty <> BrotherNode) ->
      exists u2 evs,
        r = (None, u2,
             Send fromID from PONGPACKET
               (Pong (mkPong (makeEndpoint from (ep_TCP (ping_From req))) mac
                             (stamp_expiration (clk_stamp clk))
                             (networkid_rest (networkid u)))) :: evs)
        /\ nodeTypes (table u2) = nodeTypes (table u1)).
Proof.
  intros Hexp ty u1 r. subst r. unfold ping_handle. rewrite Hexp.
  destruct (processRest_strict true (ping_Rest req) u fromID) as (_ & _ & Hs & Hn).
  subst ty u1.
  destruct (processRestInPingPong (ping_Rest req) u fromID) as [ty u1].
  cbn [fst snd] in *. rewrite Hs, Hn.
  destruct (strictNodeCheck u), (NodeType_eqb ty BrotherNode) eqn:Et; cbn [andb negb].
  - apply NodeType_eqb_eq in Et. split; [intros [_ Hne]; contradiction|]. intros _.
    pose proof (handleReply_nodeTypes (clk_loop clk) u1 fromID PINGPACKET (Ping req)) as Hr.
    destruct (handleReply _ _ _ _ _) as [[m u2] evs]. cbn [fst snd] in *. eauto.
  - split; [reflexivity|]. intros Hc. exfalso. apply Hc. split; [reflexivity|].
    intros Heq. rewrite Heq in Et. discriminate.
  - split; [intros [Hb _]; discriminate|]. intros _.
    pose proof (handleReply_nodeTypes (clk_loop clk) u1 fromID PINGPACKET (Ping req)) as Hr.
    destruct (handleReply _ _ _ _ _) as [[m u2] evs]. cbn [fst snd] in *. eauto.
  - split; [intros [Hb _]; discriminate|]. intros _.
    pose proof (handleReply_nodeTypes (clk_loop clk) u1 fromID PINGPACKET (Ping req)) as Hr.
    destruct (handleReply _ _ _ _ _) as [[m u2] evs]. cbn [fst snd] in *. eauto.
Qed.

(** C4, as amended.  For a ping that has not expired the reply branch is
    skipped exactly when strict mode is on and [processRestInPingPong]
    did not return Brother for this ping: then no pong is sent, the ping
    is not handed to the pending replies and no bond is started;
    otherwise the pong is the first thing sent.  The classification that
    results is the one made by [processRestInPingPong], whatever the
    strict flag. *)
Theorem ping_handle_strictNodeCheck (clk : clock) (req : ping) (u : udp)
  (from : UDPAddr) (fromID : NodeID) (mac : bytes) :
  expired (clk_now clk) (ping_Expiration req) = false ->
  let ty := fst (processRestInPingPong (ping_Rest req) u fromID) in
  let u1 := snd (processRestInPingPong (ping_Rest req) u fromID) in
  let r := ping_handle clk req u from fromID mac in
  fst (fst r) = None
  /\ (strictNodeCheck u = true /\ ty <> BrotherNode -> r = (None, u1, []))
  /\ (~ (strictNodeCheck u = true /\ ty <> BrotherNode) ->
      exists evs,
        snd r = Send fromID from PONGPACKET
                  (Pong (mkPong (makeEndpoint from (ep_TCP (ping_From req))) mac
                                (stamp_expiration (clk_stamp clk))
                                (networkid_rest (networkid u)))) :: evs)
  /\ (forall b,
        nodeTypes (table (snd (fst (ping_handle clk req (set_strict b u)
                                      from fromID mac))))
        = nodeTypes (table u1)).
Proof.
  intros Hexp. cbv zeta.
  destruct (ping_handle_cases clk req u from fromID mac Hexp) as [Hoff Hon].
  cbv zeta in Hoff, Hon.
  set (ty := fst (processRestInPingPong (ping_Rest req) u fromID)) in *.
  assert (Hdec : forall (s : bool) (t : NodeType),
            (s = true /\ t <> BrotherNode) \/ ~ (s = true /\ t <> BrotherNode)).
  { intros s t. destruct s; [|right; intros [? _]; discriminate].
    destruct t; [left|right|left]; try (split; [reflexivity|discriminate]).
    intros [_ Hne]. apply Hne. reflexivity. }
  split; [|split; [|split]].
  - destruct (Hdec (strictNodeCheck u) ty) as [Hd|Hd].
    + rewrite (Hoff Hd). reflexivity.
    + destruct (Hon Hd) as (u2 & evs & Hr & _). rewrite Hr. reflexivity.
  - exact Hoff.
  - intros Hd. destruct (Hon Hd) as (u2 & evs & Hr & _). rewrite Hr.
    exists evs. reflexivity.
  - intros b.
    destruct (ping_handle_cases clk req (set_strict b u) from fromID mac Hexp)
      as [Hoffb Honb].
    cbv zeta in Hoffb, Honb.
    destruct (processRest_strict b (ping_Rest req) u fromID) as (Hty & Htab & _ & _).
    destruct (Hdec (strictNodeCheck (set_strict b u))
                (fst (processRestInPingPong (ping_Rest req) (set_strict b u) fromID)))
      as [Hd|Hd].
    + rewrite (Hoffb Hd). cbn [fst snd]. rewrite Htab. reflexivity.
    + destruct (Honb Hd) as (u2 & evs & Hr & Ht). rewrite Hr. cbn [fst snd].
      rewrite Ht, Htab. reflexivity.
Qed.

(** C5.  A findnode packet that has not expired and comes from a
    sender without node record in the database is answered with
    [errUnknownNode]; the transport is unchanged and nothing is sent. *)
Theorem findnode_handle_unknown_node (clk : clock) (req : findnode) (u : udp)
  (from : UDPAddr) (fromID : NodeID) (mac : bytes) :
  expired (clk_now clk) (findnode_Expiration req) = false ->
  db_node (table u) fromID = None ->
  findnode_handle clk req u from fromID mac = (Some errUnknownNode, u, []).
Proof.
  intros Hexp Hdb. unfold findnode_handle. rewrite Hexp, Hdb. reflexivity.
Qed.

(** [expired] in numbers, away from the ends of the int64 range: the
    time stamp is expired when it lies strictly before the clock. *)
Lemma expired_strictly_before (s ns ts : Z) :
  0 <= ts < 2 ^ 63 - unixToInternal ->
  0 <= s < 2 ^ 63 - unixToInternal ->
  (expired (mkTime (s + unixToInternal) ns) ts = true
   <-> ts < s \/ (ts = s /\ 0 < ns)).
Proof.
  intros Hts Hs. unfold expired, Before, time_Unix, to_int64, unixToInternal in *.
  cbn [t_sec t_nsec].
  rewrite (Z.mod_small (ts + 2 ^ 63)) by lia.
  replace (ts + 2 ^ 63 - 2 ^ 63) with ts by lia.
  rewrite (Z.mod_small (ts + 62135596800 + 2 ^ 63)) by lia.
  replace (ts + 62135596800 + 2 ^ 63 - 2 ^ 63) with (ts + 62135596800) by lia.
  rewrite orb_true_iff, andb_true_iff, !Z.ltb_lt, Z.eqb_eq. lia.
Qed.

(** C6, as amended.  Every handler answers a packet whose expiration
    lies strictly before the clock with [errExpired], without changing
    the transport and without any effect, and answers with that error in
    no other case; a time stamp equal to the clock, to the nanosecond,
    has not expired. *)
Theorem handle_expired (clk : clock) (p : packet) (u : udp) (from : UDPAddr)
  (fromID : NodeID) (mac : bytes) :
  (expired (clk_now clk) (Expiration_of p) = true ->
   handle clk p u from fromID mac = (Some errExpired, u, []))
  /\ (fst (fst (handle clk p u from fromID mac)) = Some errExpired ->
      expired (clk_now clk) (Expiration_of p) = true)
  /\ (forall s ns ts,
        0 <= ts < 2 ^ 63 - unixToInternal ->
        0 <= s < 2 ^ 63 - unixToInternal ->
        (expired (mkTime (s + unixToInternal) ns) ts = true
         <-> ts < s \/ (ts = s /\ 0 < ns))).
Proof.
  split; [|split].
  - intros Hexp. destruct p as [q|q|q|q|q|q|q|q]; cbn [handle Expiration_of] in *;
      [unfold ping_handle | unfold pong_handle | unfold findnode_handle
      | unfold neighbors_handle | unfold store_handle | unfold storeReply_handle
      | unfold findvalue_handle | unfold findvalueReply_handle];
      rewrite Hexp; reflexivity.
  - destruct (expired (clk_now clk) (Expiration_of p)) eqn:Hexp; [reflexivity|].
    intros H. exfalso. revert H.
    destruct p as [q|q|q|q|q|q|q|q]; cbn [handle Expiration_of] in *.
    + unfold ping_handle. rewrite Hexp.
      destruct (processRestInPingPong _ _ _) as [ty u1].
      destruct (negb _); [|discriminate].
      destruct (handleReply _ _ _ _ _) as [[m u2] evs]. discriminate.
    + unfold pong_handle. rewrite Hexp.
      destruct (processRestInPingPong _ _ _) as [ty u1].
      destruct (handleReply _ _ _ _ _) as [[m u2] evs]. destruct m; discriminate.
    + unfold findnode_handle. rewrite Hexp.
      destruct (db_node _ _); discriminate.
    + unfold neighbors_handle. rewrite Hexp.
      destruct (handleReply _ _ _ _ _) as [[m u2] evs]. destruct m; discriminate.
    + unfold store_handle. rewrite Hexp.
      destruct (db_node _ _); [|discriminate].
      destruct (SetKey _ _ _ _). discriminate.
    + unfold storeReply_handle. rewrite Hexp. discriminate.
    + unfold findvalue_handle. rewrite Hexp. discriminate.
    + unfold findvalueReply_handle. rewrite Hexp.
      destruct (handleReply _ _ _ _ _) as [[m u2] evs]. destruct m; discriminate.
  - apply expired_strictly_before.
Qed.


End HandlerClaims.

(* ================================================================== *)
(** * The shuffle of [findvalue.handle] *)
(* ================================================================== *)

Lemma nth_error_take_drop {A : Type} (l : list A) (i : nat) (a : A) :
  nth_error l i = Some a -> l = firstn i l ++ a :: skipn (S i) l.
Proof.
  revert i. induction l as [|x l IH]; intros [|i] H; try discriminate.
  - injection H as ->. reflexivity.
  - cbn [nth_error] in H. cbn [firstn skipn app]. f_equal. apply IH, H.
Qed.

Lemma nth_error_put {A : Type} (l : list A) (i j : nat) (a b x : A) :
  nth_error l i = Some a -> nth_error l j = Some b ->
  exists c, nth_error (firstn i l ++ x :: skipn (S i) l) j = Some c
            /\ (j <> i -> c = b) /\ (j = i -> c = x).
Proof.
  revert i j. induction l as [|y l IH]; intros [|i] [|j] Hi Hj; try discriminate.
  - exists x. cbn. repeat split; congruence.
  - exists b. cbn [firstn skipn app nth_error] in *. repeat split; [assumption|lia].
  - exists b. cbn [firstn skipn app nth_error] in *. injection Hj as ->.
    repeat split; lia.
  - cbn [firstn skipn app nth_error] in *.
    destruct (IH i j Hi Hj) as (c & Hc & Hne & Heq).
    exists c. repeat split; [assumption | intros; apply Hne; lia | intros; apply Heq; lia].
Qed.

Lemma swap_Permutation (l : list bytes) (i j : nat) : Permutation (swap l i j) l.
Proof.
  unfold swap.
  destruct (nth_error l i) as [a|] eqn:Hi; [|reflexivity].
  destruct (nth_error l j) as [b|] eqn:Hj; [|reflexivity].
  set (l1 := firstn i l ++ b :: skipn (S i) l).
  destruct (nth_error_put l i j a b b Hi Hj) as (c & Hc & Hne & Heq).
  fold l1 in Hc.
  assert (c = b) by (destruct (Nat.eq_dec j i); auto). subst c.
  (* l and l1 differ by a and b at place i; l1 and the result by b and a at j *)
  assert (Hl : Permutation l (a :: firstn i l ++ skipn (S i) l)).
  { rewrite (nth_error_take_drop l i a Hi) at 1. symmetry. apply Permutation_middle. }
  assert (Hl1 : Permutation l1 (b :: firstn i l ++ skipn (S i) l)).
  { unfold l1. symmetry. apply Permutation_middle. }
  assert (Hl1' : Permutation l1 (b :: firstn j l1 ++ skipn (S j) l1)).
  { rewrite (nth_error_take_drop l1 j b Hc) at 1. symmetry. apply Permutation_middle. }
  assert (Hrest : Permutation (firstn j l1 ++ skipn (S j) l1)
                              (firstn i l ++ skipn (S i) l)).
  { apply Permutation_cons_inv with (a := b).
    rewrite <- Hl1', <- Hl1. reflexivity. }
  rewrite Hl. rewrite <- Permutation_middle. constructor. exact Hrest.
Qed.

Section ShuffleFacts.
Context {K : Collaborators}.

Lemma shuffle_from_Permutation (seed : Z) (i : nat) :
  forall k l, Permutation (shuffle_from seed i k l) l.
Proof.
  induction i as [|i IH]; intros k l; cbn [shuffle_from]; [reflexivity|].
  rewrite IH. apply swap_Permutation.
Qed.

Lemma Shuffle_Permutation (seed : Z) (l : list bytes) :
  Permutation (Shuffle seed l) l.
Proof. apply shuffle_from_Permutation. Qed.


End ShuffleFacts.

Section FindvalueClaim.
Context {C : Crypto} {K : Collaborators}.


End FindvalueClaim.


(* ================================================================== *)
(** * The event loop *)
(* ================================================================== *)

Lemma NoDup_map_eq {A B : Type} (f : A -> B) (l : list A) (a b : A) :
  NoDup (map f l) -> In a l -> In b l -> f a = f b -> a = b.
Proof.
  induction l as [|x l IH]; intros Hnd Ha Hb Hf; [contradiction|].
  cbn [map] in Hnd. inversion Hnd as [|? ? Hx Hnd']; subst.
  destruct Ha as [->|Ha], Hb as [->|Hb].
  - reflexivity.
  - exfalso. apply Hx. rewrite Hf. apply in_map, Hb.
  - exfalso. apply Hx. rewrite <- Hf. apply in_map, Ha.
  - apply IH; assumption.
Qed.

Lemma StronglySorted_remove (l1 : list Z) (a : Z) (l2 : list Z) :
  StronglySorted Z.le (l1 ++ a :: l2) -> StronglySorted Z.le (l1 ++ l2).
Proof.
  induction l1 as [|x l1 IH]; cbn [app]; intros H.
  - apply StronglySorted_inv in H. apply H.
  - apply StronglySorted_inv in H. destruct H as [Hs Hall].
    constructor; [apply IH, Hs|].
    apply Forall_app in Hall. destruct Hall as [H1 H2].
    apply Forall_app. split; [assumption|]. inversion H2; assumption.
Qed.

Lemma StronglySorted_before (l1 : list Z) (a : Z) (l2 : list Z) :
  StronglySorted Z.le (l1 ++ a :: l2) -> Forall (fun x => x <= a) l1.
Proof.
  induction l1 as [|x l1 IH]; cbn [app]; intros H; [constructor|].
  apply StronglySorted_inv in H. destruct H as [Hs Hall].
  constructor; [|apply IH, Hs].
  apply Forall_app in Hall. destruct Hall as [_ H2]. inversion H2; assumption.
Qed.

Lemma StronglySorted_snoc (l : list Z) (a : Z) :
  StronglySorted Z.le l -> Forall (fun x => x <= a) l ->
  StronglySorted Z.le (l ++ [a]).
Proof.
  induction 1 as [|x l Hs IH Hall]; intros Hle; cbn [app].
  - repeat constructor.
  - inversion Hle; subst. constructor; [apply IH; assumption|].
    apply Forall_app. split; [assumption | repeat constructor; assumption].
Qed.

Lemma removed_one_cons {A : Type} (x : A) (l l' : list A) :
  removed_one l l' -> removed_one (x :: l) (x :: l').
Proof.
  intros [->|(l1 & y & l2 & -> & ->)]; [left; reflexivity|].
  right. exists (x :: l1), y, l2. split; reflexivity.
Qed.

Lemma removed_one_map {A B : Type} (f : A -> B) (l l' : list A) :
  removed_one l l' -> removed_one (map f l) (map f l').
Proof.
  intros [->|(l1 & y & l2 & -> & ->)]; [left; reflexivity|].
  right. exists (map f l1), (f y), (map f l2). rewrite !map_app. split; reflexivity.
Qed.

Lemma removed_one_In {A : Type} (l l' : list A) (a : A) :
  removed_one l l' -> In a l' -> In a l.
Proof.
  intros [->|(l1 & y & l2 & -> & ->)] H; [assumption|].
  apply in_app_or in H. apply in_or_app. destruct H; [left|right; right]; assumption.
Qed.

Lemma removed_one_NoDup {A : Type} (l l' : list A) :
  removed_one l l' -> NoDup l -> NoDup l'.
Proof.
  intros [->|(l1 & y & l2 & -> & ->)] H; [assumption|].
  apply NoDup_remove_1 in H. exact H.
Qed.

Lemma removed_one_sorted (l l' : list Z) :
  removed_one l l' -> StronglySorted Z.le l -> StronglySorted Z.le l'.
Proof.
  intros [->|(l1 & y & l2 & -> & ->)] H; [assumption|].
  eapply StronglySorted_remove, H.
Qed.

(** When the front goes, it does not come back; otherwise it stays the
    front. *)
Lemma removed_one_hd (l l' : list (nat * Z)) (c : nat) :
  removed_one l l' -> NoDup (map fst l) ->
  hd_error (map fst l) = Some c -> In c (map fst l') ->
  hd_error (map fst l') = Some c.
Proof.
  intros [->|(l1 & y & l2 & -> & ->)] Hnd Hhd Hin; [assumption|].
  destruct l1 as [|z l1]; cbn [app map hd_error] in *; [|assumption].
  exfalso. injection Hhd as <-. inversion Hnd; contradiction.
Qed.

Section LoopFacts.
Context {K : Collaborators}.

Lemma timeout_scan_removed (now : Z) (l : list pending) :
  removed_one l (snd (timeout_scan now l)).
Proof.
  induction l as [|p l IH]; cbn [timeout_scan]; [left; reflexivity|].
  destruct (p_deadline p <=? now).
  - right. exists [], p, l. split; reflexivity.
  - destruct (timeout_scan now l) as [hit l']. cbn [snd] in *.
    apply removed_one_cons, IH.
Qed.

Lemma gotreply_scan_removed (r : reply) (l : list pending) :
  forall t,
  removed_one (map pending_key l)
              (map pending_key (snd (fst (gotreply_scan r t l)))).
Proof.
  induction l as [|p l IH]; intros t; cbn [gotreply_scan]; [left; reflexivity|].
  destruct (NodeID_eqb (p_from p) (r_from r) && Byte.eqb (p_ptype p) (r_ptype r)).
  - destruct (run_callback (p_callback p) (r_data r) (nodeTypes t))
      as [[done fb] cb'].
    destruct done.
    + right. exists [], (pending_key p), (map pending_key l). split; reflexivity.
    + specialize (IH (match fb with Some ns => SetFallbackNodes t ns | None => t end)).
      destruct (gotreply_scan r _ l) as [[[m t2] rest'] evs]. cbn [fst snd map] in *.
      apply (removed_one_cons (pending_key p)) in IH. exact IH.
  - specialize (IH t).
    destruct (gotreply_scan r t l) as [[[m t2] rest'] evs]. cbn [fst snd map] in *.
    apply removed_one_cons, IH.
Qed.

Lemma map_errc_key (l : list pending) : map p_errc l = map fst (map pending_key l).
Proof. rewrite map_map. reflexivity. Qed.

Lemma map_deadline_key (l : list pending) :
  map p_deadline l = map snd (map pending_key l).
Proof. rewrite map_map. reflexivity. Qed.

(** [loop_ok] after the removal of at most one entry, [nextTimeout] and
    the timer being as they were or [nextTimeout] being nil. *)
Lemma loop_ok_removed (st st' : loopState) :
  loop_ok st ->
  removed_one (map pending_key (plist st)) (map pending_key (plist st')) ->
  (nextTimeout st' = None
   \/ (nextTimeout st' = nextTimeout st /\ timeout st' = timeout st)) ->
  loop_ok st'.
Proof.
  intros [[Hnd Hinv] Hs] Hrem Hnext. split; [split|].
  - rewrite map_errc_key in *. eapply removed_one_NoDup; [|exact Hnd].
    apply removed_one_map, Hrem.
  - intros q Hq Hn. destruct Hnext as [Hnone|[Hsame Htimer]]; [congruence|].
    assert (Hk : In (pending_key q) (map pending_key (plist st)))
      by (eapply removed_one_In; [exact Hrem | apply in_map, Hq]).
    apply in_map_iff in Hk. destruct Hk as (q0 & Hkey & Hq0).
    unfold pending_key in Hkey. injection Hkey as Hc Hd.
    destruct (Hinv q0 Hq0) as [Hhd Ht]; [congruence|].
    split; [|congruence].
    rewrite map_errc_key in *. apply (removed_one_hd _ _ _ Hrem Hnd); [congruence|].
    rewrite <- map_errc_key. apply in_map, Hq.
  - rewrite map_deadline_key in *. eapply removed_one_sorted; [|exact Hs].
    apply removed_one_map, Hrem.
Qed.

Lemma resetTimeout_ok (now : Z) (st : loopState) :
  loop_ok st -> loop_ok (fst (resetTimeout now st)).
Proof.
  intros Hok. unfold resetTimeout.
  destruct (plist st) as [|front others] eqn:Hpl; [exact Hok|].
  destruct (same_pending (nextTimeout st) front); [exact Hok|].
  destruct (p_deadline front - now <? 2 * respTimeout); cbn [fst].
  - destruct Hok as [[Hnd Hinv] Hs]. rewrite Hpl in Hnd, Hinv, Hs.
    split; [split|]; cbn [plist nextTimeout timeout].
    + exact Hnd.
    + intros q Hq Hn. injection Hn as Hc. cbn [map hd_error].
      split; [congruence|]. f_equal.
      assert (q = front).
      { apply (NoDup_map_eq p_errc (front :: others)); try assumption.
        - left. reflexivity.
        - congruence. }
      subst q. lia.
    + exact Hs.
  - apply (loop_ok_removed st); [exact Hok | | left; reflexivity].
    cbn [plist]. rewrite Hpl. right.
    exists [], (pending_key front), (map pending_key others). split; reflexivity.
Qed.

Lemma resetTimeout_fresh (now : Z) (st : loopState) (ev : loopEvent) :
  event_ok st ev -> event_ok (fst (resetTimeout now st)) ev.
Proof.
  destruct ev as [|p tarr|r|tf ts tl]; try (intros; exact I).
  intros (Hfresh & Hnext & Hmono). unfold resetTimeout.
  destruct (plist st) as [|front others] eqn:Hpl.
  { cbn [fst event_ok]. rewrite Hpl. repeat split; assumption. }
  destruct (same_pending (nextTimeout st) front).
  { cbn [fst event_ok]. rewrite Hpl. repeat split; assumption. }
  destruct (p_deadline front - now <? 2 * respTimeout);
    cbn [fst event_ok plist nextTimeout].
  - repeat split; try assumption.
    intros Heq. injection Heq as Heq. apply Hfresh. cbn [map]. left. exact Heq.
  - repeat split.
    + intros Hin. apply Hfresh. cbn [map]. right. exact Hin.
    + discriminate.
    + inversion Hmono; assumption.
Qed.

(** Every turn of the loop keeps [loop_ok]. *)
Theorem loop_step_ok (tnow : Z) (ev : loopEvent) (t : Table) (st : loopState) :
  loop_ok st -> event_ok st ev ->
  loop_ok (snd (fst (loop_step tnow ev t st))).
Proof.
  intros Hok Hev. unfold loop_step. destruct (running st); [|exact Hok].
  pose proof (resetTimeout_ok tnow st Hok) as Hok1.
  pose proof (resetTimeout_fresh tnow st ev Hev) as Hev1.
  destruct (resetTimeout tnow st) as [st1 evs1]. cbn [fst] in Hok1, Hev1.
  destruct (enabled st1 ev); [|exact Hok1].
  destruct ev as [|p now|r|now since later]; cbn [loop_case].
  - apply (loop_ok_removed st1); [exact Hok1 | left; reflexivity |].
    right. split; reflexivity.
  - destruct Hev1 as (Hfresh & Hnext & Hmono).
    destruct Hok1 as [[Hnd Hinv] Hs]. cbn [fst snd].
    split; [split|]; cbn [plist nextTimeout timeout].
    + rewrite map_app. cbn [map p_errc].
      apply NoDup_app; [assumption | repeat constructor; intros [] | ].
      intros c Hc [<-|[]]. contradiction.
    + intros q Hq Hn. apply in_app_or in Hq. destruct Hq as [Hq|[<-|[]]].
      * destruct (Hinv q Hq Hn) as [Hhd Ht]. split; [|assumption].
        destruct (plist st1); [contradiction|]. exact Hhd.
      * cbn [p_errc] in Hn. contradiction.
    + rewrite map_app. cbn [map p_deadline]. apply StronglySorted_snoc; [assumption|].
      rewrite Forall_map. exact Hmono.
  - pose proof (gotreply_scan_removed r (plist st1) t) as Hrem.
    destruct (gotreply_scan r t (plist st1)) as [[[m t'] l'] evs]. cbn [fst snd] in *.
    apply (loop_ok_removed st1); [exact Hok1 | exact Hrem |].
    right. split; reflexivity.
  - pose proof (timeout_scan_removed now (plist st1)) as Hrem.
    destruct (timeout_scan now (plist st1)) as [hit l']. cbn [snd] in Hrem.
    apply (removed_one_map pending_key) in Hrem.
    destruct hit; destruct (ntpFailureThreshold <? _);
      try destruct (ntpWarningCooldown <=? _); cbn [fst snd];
      (apply (loop_ok_removed st1); [exact Hok1 | exact Hrem | left; reflexivity]).
Qed.

Lemma loop_init_ok : loop_ok loop_init.
Proof.
  split; [split|]; cbn.
  - constructor.
  - intros q [].
  - constructor.
Qed.

End LoopFacts.

Section LoopClaims.
Context {K : Collaborators}.

(** A turn in which the timer fires while the front of the list is due:
    the front, and nothing else, is notified of the timeout and removed. *)
Lemma timer_turn_front (T : Z) (tk : tick) (t : Table) (st : loopState)
  (front : pending) (rest : list pending) :
  running st = true -> loop_inv st ->
  plist st = front :: rest -> p_deadline front <= T ->
  T <= tk_reset tk -> T <= tk_fire tk ->
  exists st' evs,
    loop_step (tk_reset tk) (EvTimeout (tk_fire tk) (tk_since tk) (tk_later tk)) t st
    = (false, t, st', ErrcSend (p_errc front) (Some errTimeout) :: evs)
    /\ plist st' = rest /\ running st' = true
    /\ nextTimeout st' = None
    /\ (evs = [] \/ evs = [GoCheckClockDrift]).
Proof.
  intros Hrun [_ Hinv] Hpl Hdue Hreset Hfire. unfold loop_step. rewrite Hrun.
  assert (Hr : exists st1,
             resetTimeout (tk_reset tk) st = (st1, [])
             /\ plist st1 = front :: rest /\ running st1 = true
             /\ exists fire, timeout st1 = Some fire /\ fire <= tk_fire tk).
  { unfold resetTimeout. rewrite Hpl.
    destruct (same_pending (nextTimeout st) front) eqn:Esame.
    - exists st. repeat split; try assumption.
      unfold same_pending in Esame.
      destruct (nextTimeout st) as [c|] eqn:En; [|discriminate].
      apply Nat.eqb_eq in Esame. subst c.
      destruct (Hinv front) as [_ Ht]; [rewrite Hpl; left; reflexivity | reflexivity |].
      exists (p_deadline front). split; [assumption | lia].
    - unfold respTimeout, Millisecond.
      destruct (Z.ltb_spec (p_deadline front - tk_reset tk) (2 * (500 * 1000000)));
        [|lia].
      eexists. repeat split; try eassumption.
      exists (tk_reset tk + (p_deadline front - tk_reset tk)).
      split; [reflexivity | lia]. }
  destruct Hr as (st1 & -> & Hpl1 & Hrun1 & fire & Hfire1 & Hle).
  cbn [enabled]. rewrite Hfire1.
  destruct (Z.leb_spec fire (tk_fire tk)); [|lia].
  cbn [loop_case]. rewrite Hpl1. cbn [timeout_scan].
  destruct (Z.leb_spec (p_deadline front) (tk_fire tk)); [|lia].
  destruct (ntpFailureThreshold <? contTimeouts st1 + 1).
  - destruct (ntpWarningCooldown <=? tk_since tk - ntpWarnTime st1).
    + eexists _, _. split; [reflexivity|]. cbn. repeat split; auto.
    + eexists _, _. split; [reflexivity|]. cbn. repeat split; auto.
  - eexists _, _. split; [reflexivity|]. cbn. repeat split; auto.
Qed.

Lemma loop_ok_tail (st st' : loopState) (front : pending) (rest : list pending) :
  loop_ok st -> plist st = front :: rest ->
  plist st' = rest -> nextTimeout st' = None -> loop_ok st'.
Proof.
  intros Hok Hpl Hpl' Hn. apply (loop_ok_removed st); [exact Hok | | left; exact Hn].
  rewrite Hpl, Hpl'. right.
  exists [], (pending_key front), (map pending_key rest). split; reflexivity.
Qed.

(** C8.  In a state of the running loop that meets [loop_ok], let the
    deadline of the entry [p] have passed at [T].  Then in turns whose
    clock readings are not before [T] the timer fires each time and the
    loop removes the front of the list and sends [errTimeout] on its
    channel: after as many turns as there are entries up to [p], [p] and
    the entries ahead of it are out of the list, no entry with the
    channel of [p] is left, [errTimeout] has been sent on that channel,
    and nothing but timeouts of these entries has been sent on any
    channel. *)
Theorem loop_timeout_removes (T : Z) (t : Table) (pre : list pending) :
  forall (ticks : list tick) (st : loopState) (p : pending) (post : list pending),
  running st = true -> loop_ok st ->
  plist st = pre ++ p :: post ->
  p_deadline p <= T ->
  Forall (fun tk => T <= tk_reset tk /\ T <= tk_fire tk) ticks ->
  length ticks = S (length pre) ->
  let r := timer_turns ticks t st in
  plist (fst r) = post
  /\ ~ In (p_errc p) (map p_errc (plist (fst r)))
  /\ In (ErrcSend (p_errc p) (Some errTimeout)) (snd r)
  /\ Forall (fun e => e = GoCheckClockDrift
                      \/ exists q, In q (pre ++ [p])
                                   /\ e = ErrcSend (p_errc q) (Some errTimeout))
            (snd r).
Proof.
  induction pre as [|f pre IH];
    intros ticks st p post Hrun Hok Hpl Hdue Hticks Hlen r; subst r.
  - destruct ticks as [|tk [|tk' ticks]]; try discriminate.
    inversion Hticks as [|? ? [Hr Hf] _]; subst. cbn [app] in Hpl.
    destruct (timer_turn_front T tk t st p post Hrun (proj1 Hok) Hpl Hdue Hr Hf)
      as (st' & evs & Hstep & Hpl' & _ & _ & Hevs).
    cbn [timer_turns]. rewrite Hstep. cbn [fst snd]. rewrite app_nil_r.
    split; [assumption|]. split; [|split].
    + rewrite Hpl'. destruct Hok as [[Hnd _] _]. rewrite Hpl in Hnd.
      cbn [map] in Hnd. inversion Hnd; assumption.
    + left. reflexivity.
    + constructor.
      * right. exists p. split; [left; reflexivity | reflexivity].
      * destruct Hevs as [->| ->]; repeat constructor.
  - destruct ticks as [|tk ticks]; [discriminate|].
    inversion Hticks as [|? ? [Hr Hf] Hticks']; subst.
    cbn [app length] in *.
    assert (Hfdue : p_deadline f <= T).
    { destruct Hok as [_ Hs]. rewrite Hpl in Hs. cbn [map] in Hs.
      apply StronglySorted_inv in Hs. destruct Hs as [_ Hall].
      rewrite Forall_forall in Hall.
      specialize (Hall (p_deadline p)). 
      assert (In (p_deadline p) (map p_deadline (pre ++ p :: post))).
      { apply in_map, in_or_app. right. left. reflexivity. }
      specialize (Hall H). lia. }
    destruct (timer_turn_front T tk t st f (pre ++ p :: post) Hrun (proj1 Hok)
                Hpl Hfdue Hr Hf)
      as (st' & evs & Hstep & Hpl' & Hrun' & Hnext' & Hevs).
    pose proof (loop_ok_tail st st' f _ Hok Hpl Hpl' Hnext') as Hok'.
    assert (Hlen' : length ticks = S (length pre)) by lia.
    specialize (IH ticks st' p post Hrun' Hok' Hpl' Hdue Hticks' Hlen').
    cbv zeta in IH. destruct IH as (IH1 & IH2 & IH3 & IH4).
    cbn [timer_turns]. rewrite Hstep.
    destruct (timer_turns ticks t st') as [st2 evs2] eqn:Et.
    cbn [fst snd] in *. split; [assumption|]. split; [assumption|]. split.
    + right. apply in_or_app. right. assumption.
    + constructor.
      * right. exists f. split; [left; reflexivity | reflexivity].
      * apply Forall_app. split.
        -- destruct Hevs as [->| ->]; repeat constructor.
        -- eapply Forall_impl; [|exact IH4].
           intros e [He|(q & Hq & He)]; [left; assumption|].
           right. exists q. split; [right; assumption | assumption].
Qed.

(** C10.  Whatever deadline and creation time a pending carries when it
    reaches the loop, the entry that the loop appends has the arrival
    time as creation time and the arrival time plus 500 ms as deadline;
    and the pending made by [addPending] carries none. *)
Theorem loop_assigns_deadline (tnow now : Z) (t : Table) (st : loopState)
  (p : pending) :
  running st = true ->
  let st' := snd (fst (loop_step tnow (EvPending p now) t st)) in
  (exists l,
     plist st'
     = l ++ [mkPending (p_from p) (p_ptype p) (now + 500 * 1000000)
                       (p_callback p) (p_errc p) now])
  /\ respTimeout = 500 * 1000000
  /\ (forall id ptype cb ch,
        p_deadline (addPending id ptype cb ch) = 0
        /\ p_createAt (addPending id ptype cb ch) = 0).
Proof.
  intros Hrun st'. subst st'. unfold loop_step. rewrite Hrun.
  destruct (resetTimeout tnow st) as [st1 evs1]. cbn [enabled loop_case fst snd plist].
  split; [|split].
  - exists (plist st1). reflexivity.
  - reflexivity.
  - intros. split; reflexivity.
Qed.

End LoopClaims.
(* ================================================================== *)
(** * The sample instance meets the laws of the codec *)
(* ================================================================== *)

Lemma pad_length (n : nat) (b : bytes) : length (Sample.pad n b) = n.
Proof.
  unfold Sample.pad. rewrite length_firstn, length_app, repeat_length. lia.
Qed.

Lemma sample_crypto_laws : CryptoLaws Sample.crypto.
Proof.
  constructor.
  - intros data. apply pad_length.
  - intros hash key _. exists (Sample.pad 64 key ++ [x00]).
    split; [reflexivity|]. split.
    + rewrite length_app, pad_length. reflexivity.
    + change (Some (firstn 64 (Sample.pad 64 key ++ [x00]))
              = Some (Sample.pad 64 key)).
      f_equal.
      rewrite firstn_app, pad_length, Nat.sub_diag, firstn_all2
        by (rewrite pad_length; lia).
      apply app_nil_r.
Qed.

(* ================================================================== *)
(** * The success flag of a storeReply on the wire *)
(* ================================================================== *)

Lemma enc_uint_len (i : Z) : uint64_ok i -> len (enc_uint i) <= 9.
Proof.
  intros Hi. unfold enc_uint.
  destruct (i =? 0); [vm_compute; discriminate|].
  destruct (i <? 128) eqn:E; [vm_compute; discriminate|].
  apply Z.ltb_ge in E.
  destruct (RLPFacts.putint_spec i) as (b & t & Hp & _ & _ & Hl); [unfold uint64_ok in Hi; lia|].
  rewrite Hp. unfold len. simpl length in *. lia.
Qed.

Lemma storeReply_wf (e : Z) (res : bool) :
  uint64_ok e -> wf_packet (StoreReply (mkStoreReply e res)).
Proof.
  intros He. split; [exact He|]. cbn [rlp_encode storeReply_Expiration].
  pose proof (enc_uint_len e He) as Hl.
  pose proof (len_nonneg (enc_uint e)) as H0.
  unfold enc_list, puthead.
  destruct (Z.ltb_spec (len (enc_uint e)) 56); [|lia].
  rewrite len_app. change (len [z2b (192 + len (enc_uint e))]) with 1. lia.
Qed.

(** C1 at the storeReply that [store.handle] sends after a successful
    [SetKey]: the packet is encoded and decoded without error and the
    sender is recovered, but the message that comes out says [false]
    where the message that went in said [true]. *)
Theorem storeReply_result_lost {C : Crypto} (L : CryptoLaws C)
  (priv : PrivateKey) (e : Z) :
  uint64_ok e ->
  exists buf,
    encodePacket priv STOREREPLYPACKET (StoreReply (mkStoreReply e true)) = inl buf
    /\ d_req (decodePacket buf) = inl (StoreReply (mkStoreReply e false))
    /\ d_fromID (decodePacket buf) = PubkeyID priv
    /\ StoreReply (mkStoreReply e false) <> StoreReply (mkStoreReply e true).
Proof.
  intros He.
  destruct (decodePacket_encodePacket L priv (StoreReply (mkStoreReply e true))
              (storeReply_wf e true He)) as (buf & Henc & Hreq & Hid & _).
  exists buf. repeat split; try assumption. discriminate.
Qed.

Import Sample.

Lemma storeReply_result_lost_witness :
  uint64_ok 2000
  /\ exists buf,
       encodePacket Sample.key1 STOREREPLYPACKET
         (StoreReply (mkStoreReply 2000 true)) = inl buf
       /\ d_req (decodePacket buf) = inl (StoreReply (mkStoreReply 2000 false))
       /\ d_fromID (decodePacket buf) = PubkeyID Sample.key1
       /\ StoreReply (mkStoreReply 2000 false) <> StoreReply (mkStoreReply 2000 true).
Proof.
  assert (H : uint64_ok 2000) by (unfold uint64_ok; lia).
  split; [exact H|].
  exact (storeReply_result_lost sample_crypto_laws Sample.key1 2000 H).
Defined.

(* ================================================================== *)
(** * The statements of the specification on concrete inputs *)
(* ================================================================== *)



Lemma handlePacket_rejects_alien_witness :
  GetNodeType (table (udp_alien 99 false)) (d_fromID (decodePacket packet_from_k2))
  = AlienNode
  /\ handlePacket clock0 (udp_alien 99 false) addr1 packet_from_k2
     = (Some errAlienSeen, udp_alien 99 false, []).
Proof.
  assert (H : GetNodeType (table (udp_alien 99 false))
                (d_fromID (decodePacket packet_from_k2)) = AlienNode)
    by (vm_compute; reflexivity).
  split; [exact H|].
  exact (handlePacket_rejects_alien clock0 (udp_alien 99 false) addr1
           packet_from_k2 H).
Defined.

(** C4 as written fails: with the strict flag on, a ping without Rest
    field is not answered and no bond is started either; with the flag
    off the same ping is answered and a bond is started.  The flag
    decides more than the pong. *)
Lemma ping_strict_decides_bond :
  snd (ping_handle clock0 ping_plain (udp0 99 true) addr1 id1 []) = []
  /\ In (GoBond true id1 addr1 30303)
        (snd (ping_handle clock0 ping_plain (udp0 99 false) addr1 id1 [])).
Proof. vm_compute. split; [reflexivity | right; left; reflexivity]. Qed.

Lemma ping_handle_strictNodeCheck_witness :
  expired (clk_now clock0) (ping_Expiration ping_net99) = false
  /\ fst (fst (ping_handle clock0 ping_net99 (udp0 42 true) addr1 id1 [])) = None
  /\ ping_handle clock0 ping_net99 (udp0 42 true) addr1 id1 []
     = (None, snd (processRestInPingPong (ping_Rest ping_net99) (udp0 42 true) id1), []).
Proof.
  assert (H : expired (clk_now clock0) (ping_Expiration ping_net99) = false)
    by reflexivity.
  destruct (ping_handle_strictNodeCheck clock0 ping_net99 (udp0 42 true) addr1 id1 [] H)
    as (H1 & H2 & _ & _).
  split; [exact H|]. split; [exact H1|].
  apply H2. split; [reflexivity|]. vm_compute. discriminate.
Defined.

Lemma findnode_handle_unknown_node_witness :
  expired (clk_now clock0) 2000 = false
  /\ db_node (table (udp0 99 false)) id1 = None
  /\ findnode_handle clock0 (mkFindnode id2 2000 []) (udp0 99 false) addr1 id1 []
     = (Some errUnknownNode, udp0 99 false, []).
Proof.
  split; [reflexivity|]. split; [reflexivity|].
  exact (findnode_handle_unknown_node clock0 (mkFindnode id2 2000 [])
           (udp0 99 false) addr1 id1 [] eq_refl eq_refl).
Defined.

(** C6 as written fails when the clock stands exactly at the
    expiration: the current time is not below the time stamp, and the
    packet is handled all the same. *)
Lemma expiration_equal_to_now_is_handled :
  Unix (clk_now clock0) = 1000 /\ t_nsec (clk_now clock0) = 0
  /\ expired (clk_now clock0) 1000 = false
  /\ fst (fst (handle clock0 (Findvalue (mkFindvalue id2 1000)) (udp0 99 false)
                 addr1 id1 [])) = None.
Proof. vm_compute. repeat split. Qed.

Lemma handle_expired_witness :
  expired (clk_now clock0) 999 = true
  /\ handle clock0 (Findvalue (mkFindvalue id2 999)) (udp0 99 false) addr1 id1 []
     = (Some errExpired, udp0 99 false, [])
  /\ (expired (mkTime (1000 + unixToInternal) 0) 999 = true
      <-> 999 < 1000 \/ (999 = 1000 /\ 0 < 0)).
Proof.
  destruct (handle_expired clock0 (Findvalue (mkFindvalue id2 999)) (udp0 99 false)
              addr1 id1 []) as (H1 & _ & H3).
  split; [reflexivity|]. split; [apply H1; reflexivity|].
  apply H3; unfold unixToInternal; lia.
Defined.




Lemma two_pendings_ok : loop_ok two_pendings.
Proof.
  split; [split|].
  - cbn. repeat constructor; cbn; intuition discriminate.
  - intros q _ H. discriminate.
  - cbn. repeat constructor; lia.
Qed.

Lemma loop_timeout_removes_witness :
  let ticks := [mkTick 700000000 700000001 700000002 700000003;
                mkTick 700000004 700000005 700000006 700000007] in
  plist (fst (timer_turns ticks table0 two_pendings)) = []
  /\ In (ErrcSend 2%nat (Some errTimeout))
        (snd (timer_turns ticks table0 two_pendings)).
Proof.
  intros ticks.
  destruct (loop_timeout_removes 700000000 table0
              [mkPending id1 PONGPACKET 500000000 always 1%nat 0]
              ticks two_pendings
              (mkPending id2 PONGPACKET 600000000 always 2%nat 100000000) []
              eq_refl two_pendings_ok eq_refl) as (H1 & _ & H2 & _).
  - cbn. lia.
  - repeat constructor; cbn; lia.
  - reflexivity.
  - split; [exact H1 | exact H2].
Defined.

Lemma loop_assigns_deadline_witness :
  running loop_init = true
  /\ exists l,
       plist (snd (fst (loop_step 7 (EvPending (addPending id1 PONGPACKET always 1%nat) 7)
                          table0 loop_init)))
       = l ++ [mkPending id1 PONGPACKET (7 + 500 * 1000000) always 1%nat 7].
Proof.
  split; [reflexivity|].
  exact (proj1 (loop_assigns_deadline 7 7 table0 loop_init
                  (addPending id1 PONGPACKET always 1%nat) eq_refl)).
Defined.

(* ================================================================== *)
(** * Runs of the loop *)
(* ================================================================== *)

Section LoopRuns.
Context {K : Collaborators}.

Lemma errc_sends_app (a b : list effect) :
  errc_sends (a ++ b) = errc_sends a ++ errc_sends b.
Proof.
  induction a as [|e a IH]; [reflexivity|].
  destruct e; cbn [app errc_sends]; rewrite IH; reflexivity.
Qed.

Lemma errc_sends_map (f : pending -> option error) (l : list pending) :
  errc_sends (map (fun p => ErrcSend (p_errc p) (f p)) l) = map p_errc l.
Proof.
  induction l as [|p l IH]; [reflexivity|]. cbn. rewrite IH. reflexivity.
Qed.

(** What [resetTimeout] does to the list: nothing, or it drops the front
    and tells its caller of the clock warp. *)
Lemma resetTimeout_shape (now : Z) (st : loopState) :
  running (fst (resetTimeout now st)) = running st
  /\ ((plist (fst (resetTimeout now st)) = plist st
       /\ snd (resetTimeout now st) = [])
      \/ exists front others,
           plist st = front :: others
           /\ plist (fst (resetTimeout now st)) = others
           /\ snd (resetTimeout now st)
              = [ErrcSend (p_errc front) (Some errClockWarp)]).
Proof.
  unfold resetTimeout. destruct (plist st) as [|front others] eqn:Hpl.
  { cbn [fst snd]. split; [reflexivity|]. left. split; [exact Hpl | reflexivity]. }
  destruct (same_pending (nextTimeout st) front).
  { cbn [fst snd]. split; [reflexivity|]. left. split; [exact Hpl | reflexivity]. }
  destruct (p_deadline front - now <? 2 * respTimeout); cbn [fst snd plist running].
  - split; [reflexivity|]. left. split; reflexivity.
  - split; [reflexivity|]. right. exists front, others. repeat split.
Qed.

(** What the scan of a reply does to the list: callbacks apart, nothing,
    or it drops one entry that matches and tells its caller of the
    completion. *)
Lemma gotreply_scan_shape (r : reply) (l : list pending) :
  forall t,
    (map pending_key (snd (fst (gotreply_scan r t l))) = map pending_key l
     /\ snd (gotreply_scan r t l) = [])
    \/ exists l1 x l2,
         l = l1 ++ x :: l2
         /\ pending_matches (r_from r) (r_ptype r) x = true
         /\ map pending_key (snd (fst (gotreply_scan r t l)))
            = map pending_key (l1 ++ l2)
         /\ snd (gotreply_scan r t l) = [ErrcSend (p_errc x) None].
Proof.
  induction l as [|p l IH]; intros t; cbn [gotreply_scan].
  { left. split; reflexivity. }
  destruct (NodeID_eqb (p_from p) (r_from r) && Byte.eqb (p_ptype p) (r_ptype r))
    eqn:Hm.
  - destruct (run_callback (p_callback p) (r_data r) (nodeTypes t))
      as [[done fb] cb'].
    destruct done.
    + right. exists [], p, l. repeat split. exact Hm.
    + specialize (IH (match fb with Some ns => SetFallbackNodes t ns | None => t end)).
      destruct (gotreply_scan r _ l) as [[[m t2] rest'] evs]. cbn [fst snd] in *.
      destruct IH as [[Hk He]|(l1 & x & l2 & Hl & Hx & Hk & He)].
      * left. split; [|exact He]. cbn [map]. rewrite Hk. reflexivity.
      * right. exists (p :: l1), x, l2. repeat split; try assumption.
        -- rewrite Hl. reflexivity.
        -- cbn [map app]. rewrite Hk. reflexivity.
  - specialize (IH t).
    destruct (gotreply_scan r t l) as [[[m t2] rest'] evs]. cbn [fst snd] in *.
    destruct IH as [[Hk He]|(l1 & x & l2 & Hl & Hx & Hk & He)].
    + left. split; [|exact He]. cbn [map]. rewrite Hk. reflexivity.
    + right. exists (p :: l1), x, l2. repeat split; try assumption.
      * rewrite Hl. reflexivity.
      * cbn [map app]. rewrite Hk. reflexivity.
Qed.

Lemma timeout_scan_shape (now : Z) (l : list pending) :
  (timeout_scan now l = (None, l))
  \/ exists l1 x l2,
       l = l1 ++ x :: l2 /\ timeout_scan now l = (Some x, l1 ++ l2).
Proof.
  induction l as [|p l IH]; cbn [timeout_scan]; [left; reflexivity|].
  destruct (p_deadline p <=? now).
  - right. exists [], p, l. split; reflexivity.
  - destruct IH as [->|(l1 & x & l2 & Hl & ->)].
    + left. reflexivity.
    + right. exists (p :: l1), x, l2. split; [rewrite Hl|]; reflexivity.
Qed.

Lemma map_key_errc (l l' : list pending) :
  map pending_key l = map pending_key l' -> map p_errc l = map p_errc l'.
Proof.
  intros H. rewrite !map_errc_key, H. reflexivity.
Qed.

(** The sends of the cases of the [select] and the channels that stay. *)
Lemma loop_case_channels (ev : loopEvent) (t : Table) (st : loopState) :
  running st = true ->
  Permutation (errc_sends (snd (loop_case ev t st))
               ++ live K (snd (fst (loop_case ev t st))))
              (map p_errc (plist st) ++ arrival K ev).
Proof.
  intros Hrun. destruct ev as [|p now|r|now since later]; cbn [loop_case arrival].
  - cbn [fst snd]. unfold live. cbn [running].
    rewrite errc_sends_map, !app_nil_r. reflexivity.
  - cbn [fst snd errc_sends app]. unfold live. cbn [running plist].
    rewrite Hrun, map_app. reflexivity.
  - pose proof (gotreply_scan_shape r (plist st) t) as H.
    destruct (gotreply_scan r t (plist st)) as [[[m t'] l'] evs].
    cbn [fst snd] in *. unfold live. cbn [running plist]. rewrite Hrun, app_nil_r.
    destruct H as [[Hk ->]|(l1 & x & l2 & Hl & _ & Hk & ->)].
    + cbn [errc_sends app]. rewrite (map_key_errc _ _ Hk). reflexivity.
    + cbn [errc_sends app]. rewrite (map_key_errc _ _ Hk), Hl, !map_app.
      cbn [map]. apply Permutation_middle.
  - rewrite app_nil_r.
    destruct (timeout_scan_shape now (plist st)) as [E|(l1 & x & l2 & Hl & E)];
      rewrite E.
    + destruct (ntpFailureThreshold <? _); try destruct (ntpWarningCooldown <=? _);
        cbn [fst snd errc_sends app]; unfold live; cbn [running plist];
        rewrite Hrun; reflexivity.
    + destruct (ntpFailureThreshold <? _); try destruct (ntpWarningCooldown <=? _);
        cbn [fst snd]; rewrite ?errc_sends_app; cbn [errc_sends app];
        unfold live; cbn [running plist]; rewrite Hrun, Hl, !map_app;
        cbn [map]; rewrite ?app_nil_r; apply Permutation_middle.
Qed.

(** The same for a whole turn. *)
Lemma loop_step_channels (tnow : Z) (ev : loopEvent) (t : Table) (st : loopState) :
  running st = true ->
  Permutation (errc_sends (snd (loop_step tnow ev t st))
               ++ live K (snd (fst (loop_step tnow ev t st))))
              (map p_errc (plist st) ++ arrival K ev).
Proof.
  intros Hrun. unfold loop_step. rewrite Hrun.
  destruct (resetTimeout_shape tnow st) as [Hr Hshape].
  destruct (resetTimeout tnow st) as [st1 evs1]. cbn [fst snd] in *.
  rewrite Hrun in Hr.
  assert (H1 : errc_sends evs1 ++ map p_errc (plist st1) = map p_errc (plist st)).
  { destruct Hshape as [[-> ->]|(front & others & -> & -> & ->)]; reflexivity. }
  destruct (enabled st1 ev) eqn:En.
  - pose proof (loop_case_channels ev t st1 Hr) as Hc.
    destruct (loop_case ev t st1) as [[[m t'] st2] evs2]. cbn [fst snd] in *.
    rewrite errc_sends_app, <- app_assoc, Hc, app_assoc, H1. reflexivity.
  - cbn [fst snd]. unfold live. rewrite Hr.
    destruct ev; try discriminate. cbn [arrival]. rewrite app_nil_r, H1. reflexivity.
Qed.

(** A loop that has returned does nothing. *)
Lemma loop_run_stopped (turns : list (Z * loopEvent)) (t : Table) (st : loopState) :
  running st = false -> loop_run turns t st = (t, st, []).
Proof.
  intros Hrun. induction turns as [|[tnow ev] rest IH]; [reflexivity|].
  cbn [loop_run]. unfold loop_step. rewrite Hrun, IH. reflexivity.
Qed.

(** Over a run every send on a result channel uses up one entry of the
    list or one arrival. *)
Lemma loop_run_channels (turns : list (Z * loopEvent)) :
  forall t st,
    exists unused,
      Permutation (errc_sends (snd (loop_run turns t st)) ++ unused)
                  (map p_errc (plist st) ++ arrivals turns).
Proof.
  induction turns as [|[tnow ev] rest IH]; intros t st.
  { cbn. exists (map p_errc (plist st) ++ []). reflexivity. }
  destruct (running st) eqn:Hrun.
  - cbn [loop_run].
    pose proof (loop_step_channels tnow ev t st Hrun) as Hs.
    destruct (loop_step tnow ev t st) as [[[m t1] st1] evs1]. cbn [fst snd] in Hs.
    assert (Ha : arrivals ((tnow, ev) :: rest) = arrival K ev ++ arrivals rest).
    { destruct ev; reflexivity. }
    rewrite Ha. unfold live in Hs. destruct (running st1) eqn:Hr1.
    + destruct (IH t1 st1) as (unused & Hu).
      destruct (loop_run rest t1 st1) as [[t2 st2] evs2]. cbn [fst snd] in *.
      exists unused. rewrite errc_sends_app, <- app_assoc, Hu, !app_assoc.
      apply Permutation_app_tail. exact Hs.
    + rewrite (loop_run_stopped rest t1 st1 Hr1). cbn [fst snd].
      exists (arrivals rest). rewrite app_nil_r in *. rewrite app_assoc.
      apply Permutation_app_tail. exact Hs.
  - rewrite (loop_run_stopped _ t st Hrun). cbn [snd errc_sends app].
    eexists. reflexivity.
Qed.

(** X1.  Over any run of the loop, from any state, a result channel is
    sent on at most once, and only the channels of entries of the list
    and of pendings that arrive are sent on, provided these channels
    differ from one another (each is made by its own [addPending]). *)
Theorem loop_run_answers_once (turns : list (Z * loopEvent)) (t : Table)
  (st : loopState) :
  NoDup (map p_errc (plist st) ++ arrivals turns) ->
  NoDup (errc_sends (snd (loop_run turns t st)))
  /\ incl (errc_sends (snd (loop_run turns t st)))
          (map p_errc (plist st) ++ arrivals turns).
Proof.
  intros Hnd. destruct (loop_run_channels turns t st) as (unused & Hp).
  apply Permutation_sym in Hp.
  pose proof (Permutation_NoDup Hp Hnd) as Hnd'.
  split.
  - exact (NoDup_app_remove_r _ _ Hnd').
  - intros c Hc. apply (Permutation_in c (Permutation_sym Hp)).
    apply in_or_app. left. exact Hc.
Qed.



End LoopRuns.

(* ================================================================== *)
(** * What the handlers send *)
(* ================================================================== *)

Section HandlerEffects.
Context {C : Crypto} {K : Collaborators}.

Lemma loop_step_gotreply_effects (tnow : Z) (r : reply) (t : Table)
  (st : loopState) :
  Forall on_errc (snd (loop_step tnow (EvGotReply r) t st)).
Proof.
  unfold loop_step. destruct (running st); [|constructor].
  destruct (resetTimeout_shape tnow st) as [_ Hshape].
  destruct (resetTimeout tnow st) as [st1 evs1]. cbn [fst snd] in *.
  assert (H1 : Forall on_errc evs1).
  { destruct Hshape as [[_ ->]|(front & others & _ & _ & ->)]; repeat constructor. }
  cbn [enabled loop_case].
  pose proof (gotreply_scan_shape r (plist st1) t) as H.
  destruct (gotreply_scan r t (plist st1)) as [[[m t'] l'] evs]. cbn [fst snd] in *.
  apply Forall_app. split; [exact H1|].
  destruct H as [[_ ->]|(l1 & x & l2 & _ & _ & _ & ->)]; repeat constructor.
Qed.

(** [handleReply] sends on result channels only. *)
Lemma handleReply_effects (tloop : Z) (u : udp) (from : NodeID) (ptype : byte)
  (req : packet) :
  Forall on_errc (snd (handleReply tloop u from ptype req)).
Proof.
  unfold handleReply. destruct (closing u); [constructor|].
  pose proof (loop_step_gotreply_effects tloop (mkReply from ptype req)
                (table u) (loop u)) as H.
  destruct (loop_step _ _ _ _) as [[[m t'] l'] evs]. exact H.
Qed.

Lemma on_errc_to_node (id : NodeID) (addr : UDPAddr) (evs : list effect) :
  Forall on_errc evs -> Forall (to_node id addr) evs.
Proof.
  apply Forall_impl. intros e He. destruct e; try contradiction. exact I.
Qed.

Lemma on_errc_quiet (evs : list effect) :
  Forall on_errc evs -> Forall (fun e => ~ outgoing e) evs.
Proof.
  apply Forall_impl. intros e He. destruct e; try contradiction. intros [].
Qed.

Lemma handle_to_sender (clk : clock) (p : packet) (u : udp) (from : UDPAddr)
  (fromID : NodeID) (mac : bytes) :
  Forall (to_node fromID from) (snd (handle clk p u from fromID mac)).
Proof.
  destruct p as [q|q|q|q|q|q|q|q]; cbn [handle].
  - unfold ping_handle. destruct (expired _ _); [constructor|].
    destruct (processRestInPingPong (ping_Rest q) u fromID) as [ty u1].
    destruct (negb _); [|constructor].
    pose proof (handleReply_effects (clk_loop clk) u1 fromID PINGPACKET (Ping q)) as Hr.
    destruct (handleReply _ _ _ _ _) as [[m u2] evs]. cbn [snd] in *.
    constructor; [split; reflexivity|].
    apply Forall_app. split; [apply on_errc_to_node, Hr|].
    destruct m; repeat constructor.
  - unfold pong_handle. destruct (expired _ _); [constructor|].
    destruct (processRestInPingPong (pong_Rest q) u fromID) as [ty u1].
    pose proof (handleReply_effects (clk_loop clk) u1 fromID PONGPACKET (Pong q)) as Hr.
    destruct (handleReply _ _ _ _ _) as [[m u2] evs]. cbn [snd] in *.
    apply on_errc_to_node, Hr.
  - unfold findnode_handle. destruct (expired _ _); [constructor|].
    destruct (db_node _ _); [|constructor]. cbn [snd].
    apply Forall_forall. intros e He. apply in_map_iff in He.
    destruct He as (c & <- & _). split; reflexivity.
  - unfold neighbors_handle. destruct (expired _ _); [constructor|].
    pose proof (handleReply_effects (clk_loop clk) u fromID NEIGHBORSPACKET
                  (Neighbors q)) as Hr.
    destruct (handleReply _ _ _ _ _) as [[m u2] evs]. cbn [snd] in *.
    apply on_errc_to_node, Hr.
  - unfold store_handle. destruct (expired _ _); [constructor|].
    destruct (db_node _ _); [|constructor].
    destruct (SetKey _ _ _ _). repeat constructor.
  - unfold storeReply_handle. destruct (expired _ _); constructor.
  - unfold findvalue_handle. destruct (expired _ _); repeat constructor.
  - unfold findvalueReply_handle. destruct (expired _ _); [constructor|].
    pose proof (handleReply_effects (clk_loop clk) u fromID FINDVALUEREPLYPACKET
                  (FindvalueReply q)) as Hr.
    destruct (handleReply _ _ _ _ _) as [[m u2] evs]. cbn [snd] in *.
    apply on_errc_to_node, Hr.
Qed.

Lemma handle_error_quiet (clk : clock) (p : packet) (u : udp) (from : UDPAddr)
  (fromID : NodeID) (mac : bytes) (e : error) :
  fst (fst (handle clk p u from fromID mac)) = Some e ->
  Forall (fun ev => ~ outgoing ev) (snd (handle clk p u from fromID mac)).
Proof.
  destruct p as [q|q|q|q|q|q|q|q]; cbn [handle].
  - unfold ping_handle. destruct (expired _ _); [constructor|].
    destruct (processRestInPingPong (ping_Rest q) u fromID) as [ty u1].
    destruct (negb _); [|constructor].
    destruct (handleReply _ _ _ _ _) as [[m u2] evs]. discriminate.
  - unfold pong_handle. destruct (expired _ _); [constructor|].
    destruct (processRestInPingPong (pong_Rest q) u fromID) as [ty u1].
    pose proof (handleReply_effects (clk_loop clk) u1 fromID PONGPACKET (Pong q)) as Hr.
    destruct (handleReply _ _ _ _ _) as [[m u2] evs]. cbn [snd] in *.
    intros _. apply on_errc_quiet, Hr.
  - unfold findnode_handle. destruct (expired _ _); [constructor|].
    destruct (db_node _ _); [discriminate|constructor].
  - unfold neighbors_handle. destruct (expired _ _); [constructor|].
    pose proof (handleReply_effects (clk_loop clk) u fromID NEIGHBORSPACKET
                  (Neighbors q)) as Hr.
    destruct (handleReply _ _ _ _ _) as [[m u2] evs]. cbn [snd] in *.
    intros _. apply on_errc_quiet, Hr.
  - unfold store_handle. destruct (expired _ _); [constructor|].
    destruct (db_node _ _); [|constructor].
    destruct (SetKey _ _ _ _). discriminate.
  - unfold storeReply_handle. destruct (expired _ _); constructor.
  - unfold findvalue_handle. destruct (expired _ _); [constructor|discriminate].
  - unfold findvalueReply_handle. destruct (expired _ _); [constructor|].
    pose proof (handleReply_effects (clk_loop clk) u fromID FINDVALUEREPLYPACKET
                  (FindvalueReply q)) as Hr.
    destruct (handleReply _ _ _ _ _) as [[m u2] evs]. cbn [snd] in *.
    intros _. apply on_errc_quiet, Hr.
Qed.

(** What [handlePacket] sends and whom it bonds with. *)
Lemma handlePacket_effects (clk : clock) (u : udp) (from : UDPAddr) (buf : bytes) :
  Forall (to_node (d_fromID (decodePacket buf)) from)
         (snd (handlePacket clk u from buf))
  /\ (NodeType_eqb (GetNodeType (table u) (d_fromID (decodePacket buf))) AlienNode
      = true -> snd (handlePacket clk u from buf) = []).
Proof.
  unfold handlePacket.
  destruct (NodeType_eqb _ AlienNode); [split; [constructor|reflexivity]|].
  split; [|discriminate].
  destruct (d_req (decodePacket buf)) as [p|e]; [|constructor].
  pose proof (handle_to_sender clk p u from (d_fromID (decodePacket buf))
                (d_hash (decodePacket buf))) as H.
  destruct (handle _ _ _ _ _ _) as [[err u'] evs]. cbn [snd] in *.
  apply Forall_app. split; [exact H|]. repeat constructor.
Qed.

(** X4.  Whatever datagram comes in, the packets that [handlePacket]
    sends go to the address the datagram came from and are addressed to
    the node that signed it, and a bond is started with that node at
    that address only. *)
Theorem handlePacket_answers_sender (clk : clock) (u : udp) (from : UDPAddr)
  (buf : bytes) :
  Forall (to_node (d_fromID (decodePacket buf)) from)
         (snd (handlePacket clk u from buf)).
Proof.
  exact (proj1 (handlePacket_effects clk u from buf)).
Qed.

(** X5.  When [handlePacket] returns an error, no packet was sent and no
    bond was started. *)
Theorem handlePacket_error_sends_nothing (clk : clock) (u : udp) (from : UDPAddr)
  (buf : bytes) (e : error) :
  fst (fst (handlePacket clk u from buf)) = Some e ->
  Forall (fun ev => ~ outgoing ev) (snd (handlePacket clk u from buf)).
Proof.
  unfold handlePacket.
  destruct (NodeType_eqb _ AlienNode); [constructor|].
  destruct (d_req (decodePacket buf)) as [p|e0]; [|constructor].
  pose proof (handle_error_quiet clk p u from (d_fromID (decodePacket buf))
                (d_hash (decodePacket buf))) as H.
  destruct (handle _ _ _ _ _ _) as [[err u'] evs]. cbn [fst snd] in *.
  intros He. apply Forall_app. split; [exact (H e He)|].
  constructor; [intros []|constructor].
Qed.

End HandlerEffects.

(* ================================================================== *)
(** * findnode: the request and the neighbors sent back *)
(* ================================================================== *)

Section FindnodeFacts.
Context {C : Crypto} {K : Collaborators} {N : NodeChecks}.

Lemma submit_pending_effects (tloop tarr : Z) (u : udp) (p : pending) :
  Forall on_errc (snd (submit_pending tloop tarr u p)).
Proof.
  unfold submit_pending. destruct (closing u); [repeat constructor|].
  unfold loop_step. destruct (running (loop u)); [|constructor].
  destruct (resetTimeout_shape tloop (loop u)) as [_ Hshape].
  destruct (resetTimeout tloop (loop u)) as [st1 evs1]. cbn [fst snd] in *.
  cbn [enabled loop_case snd]. rewrite app_nil_r.
  destruct Hshape as [[_ ->]|(front & others & _ & _ & ->)]; repeat constructor.
Qed.

Lemma not_on_errc_in (evs : list effect) (e : effect) :
  Forall on_errc evs -> ~ on_errc e -> In e (evs ++ [e]) /\ ~ In e evs.
Proof.
  intros H He. split; [apply in_or_app; right; left; reflexivity|].
  intros Hin. apply He. rewrite Forall_forall in H. apply H, Hin.
Qed.

(** The packet that [udp.findnode] sends. *)
Lemma udp_findnode_sends (now : Time) (tloop tarr : Z) (ch : nat)
  (netrestrict : option (bytes -> bool)) (u : udp) (toid : NodeID)
  (toaddr : UDPAddr) (target : NodeID) (strict : bool) (id : NodeID)
  (addr : UDPAddr) (ptype : byte) (req : packet) :
  In (Send id addr ptype req)
     (snd (udp_findnode now tloop tarr ch netrestrict u toid toaddr target strict)) ->
  req = Findnode (mkFindnode target (stamp_expiration now) (findnode_rest strict)).
Proof.
  unfold udp_findnode.
  pose proof (submit_pending_effects tloop tarr u
                (addPending toid NEIGHBORSPACKET
                   (findnode_callback netrestrict toaddr strict) ch)) as Hq.
  destruct (submit_pending _ _ _ _) as [u1 evs]. cbn [snd] in *.
  intros Hin. apply in_app_or in Hin. destruct Hin as [Hin|[Heq|[]]].
  - rewrite Forall_forall in Hq. destruct (Hq _ Hin).
  - injection Heq as _ _ _ <-. reflexivity.
Qed.

Lemma findnode_rest_matchType (strict : bool) :
  findnode_matchType (findnode_rest strict) = EitherUncleAndBrother.
Proof. destruct strict; reflexivity. Qed.

(** X6.  The strict flag of [udp.findnode] does not reach the node that
    is asked.  The flag is sent as the one-character string 1 or 0, whose
    rlp form is that character alone; [findnode.handle] drops the first
    byte of the element and is left with the empty string, which is no
    number.  Whatever the flag, the request that [udp.findnode] sends is
    answered from the nodes that [closest] gives for the policy
    [EitherUncleAndBrother]. *)
Theorem findnode_strict_flag_not_transmitted (now : Time) (tloop tarr : Z)
  (ch : nat) (netrestrict : option (bytes -> bool)) (u : udp) (toid : NodeID)
  (toaddr : UDPAddr) (target : NodeID) (strict : bool) (q : findnode)
  (clk : clock) (v : udp) (from : UDPAddr) (fromID : NodeID) (mac : bytes) :
  In (Send toid toaddr FINDNODEPACKET (Findnode q))
     (snd (udp_findnode now tloop tarr ch netrestrict u toid toaddr target strict)) ->
  expired (clk_now clk) (findnode_Expiration q) = false ->
  db_node (table v) fromID <> None ->
  findnode_handle clk q v from fromID mac
  = (None, v,
     map (fun p => Send fromID from NEIGHBORSPACKET (Neighbors p))
         (neighbors_chunks (stamp_expiration (clk_stamp clk)) (addr_IP from) []
            (closest (buckets (table v)) (nodeTypes (table v))
                     (Keccak256 target) bucketSize EitherUncleAndBrother))).
Proof.
  intros Hin Hexp Hdb. apply udp_findnode_sends in Hin. injection Hin as ->.
  unfold findnode_handle.
  cbn [findnode_Expiration findnode_Rest findnode_Target] in *. rewrite Hexp.
  destruct (db_node (table v) fromID); [|contradiction].
  rewrite findnode_rest_matchType. reflexivity.
Qed.

(* ------------------------------------------------------------------ *)
(** ** The chunks of the answer *)

Lemma last_relayed_cons (ip : bytes) (n : Node) (rest : list Node) :
  rest <> [] -> last_relayed ip (n :: rest) = last_relayed ip rest.
Proof. destruct rest; [contradiction|reflexivity]. Qed.

Lemma neighbors_chunks_acc (exp : Z) (ip : bytes) (l : list Node) :
  forall acc,
    (length acc < Z.to_nat maxNeighbors)%nat ->
    Forall (fun c => (1 <= length (neighbors_Nodes c) <= Z.to_nat maxNeighbors)%nat
                     /\ neighbors_Expiration c = exp /\ neighbors_Rest c = [])
           (neighbors_chunks exp ip acc l)
    /\ concat (map neighbors_Nodes (neighbors_chunks exp ip acc l))
       = firstn (if last_relayed ip l then length (acc ++ relayed ip l)
                 else Z.to_nat maxNeighbors
                      * (length (acc ++ relayed ip l) / Z.to_nat maxNeighbors))
                (acc ++ relayed ip l).
Proof.
  change (Z.to_nat maxNeighbors) with 12%nat.
  induction l as [|n rest IH]; intros acc Hacc.
  { cbn [neighbors_chunks last_relayed map concat]. split; [constructor|].
    unfold relayed. cbn [filter map]. rewrite app_nil_r.
    rewrite (Nat.div_small (length acc) 12 Hacc). reflexivity. }
  cbn [neighbors_chunks]. unfold relayed. cbn [filter].
  destruct (CheckRelayIP ip (node_IP n)) eqn:Hchk; cbn [negb].
  - cbn [map]. fold (relayed ip rest).
    replace (acc ++ nodeToRPC n :: relayed ip rest)
      with ((acc ++ [nodeToRPC n]) ++ relayed ip rest)
      by (rewrite <- app_assoc; reflexivity).
    set (acc' := acc ++ [nodeToRPC n]).
    assert (Hlen : length acc' = S (length acc))
      by (unfold acc'; rewrite length_app; simpl; lia).
    destruct (len acc' =? maxNeighbors) eqn:Hfull; cbn [orb].
    + apply Z.eqb_eq in Hfull. unfold len, maxNeighbors in Hfull.
      assert (H12 : length acc' = 12%nat) by lia.
      destruct (IH [] ltac:(simpl; lia)) as [IHs IHc].
      split.
      * constructor; [|exact IHs]. cbn. repeat split; lia.
      * cbn [map concat]. rewrite IHc. cbn [app].
        destruct rest as [|n2 rest2].
        { cbn [last_relayed relayed filter map]. rewrite Hchk.
          rewrite firstn_nil, !app_nil_r, firstn_all. reflexivity. }
        rewrite (last_relayed_cons ip n) by discriminate.
        set (R := relayed ip (n2 :: rest2)).
        set (lr := last_relayed ip (n2 :: rest2)).
        rewrite length_app, H12.
        assert (Hdiv : ((12 + length R) / 12 = 1 + length R / 12)%nat).
        { replace (12 + length R)%nat with (length R + 1 * 12)%nat by lia.
          rewrite Nat.div_add by lia. lia. }
        rewrite Hdiv.
        replace (12 * (1 + length R / 12))%nat
          with (length acc' + 12 * (length R / 12))%nat by lia.
        replace (12 + length R)%nat with (length acc' + length R)%nat by lia.
        destruct lr; rewrite firstn_app_2; reflexivity.
    + apply Z.eqb_neq in Hfull. unfold len, maxNeighbors in Hfull.
      destruct rest as [|n2 rest2].
      * split.
        { constructor; [|constructor]. cbn. repeat split; lia. }
        cbn [neighbors_chunks map concat last_relayed relayed filter].
        rewrite Hchk, !app_nil_r, firstn_all. reflexivity.
      * rewrite (last_relayed_cons ip n) by discriminate.
        apply IH. lia.
  - fold (relayed ip rest).
    assert (Hl : last_relayed ip (n :: rest) = last_relayed ip rest).
    { destruct rest; [cbn; exact Hchk | reflexivity]. }
    rewrite Hl. apply IH. exact Hacc.
Qed.

(** X7.  Every neighbors packet that [findnode.handle] sends carries at
    least one and at most [maxNeighbors] nodes, the expiration stamped
    on the answer and no Rest field. *)
Theorem neighbors_chunks_bounded (exp : Z) (ip : bytes) (cl : list Node) :
  Forall (fun c => 1 <= len (neighbors_Nodes c) <= maxNeighbors
                   /\ neighbors_Expiration c = exp /\ neighbors_Rest c = [])
         (neighbors_chunks exp ip [] cl).
Proof.
  destruct (neighbors_chunks_acc exp ip cl [] ltac:(vm_compute; lia)) as [H _].
  revert H. apply Forall_impl. intros c (Hn & He & Hr).
  change (Z.to_nat maxNeighbors) with 12%nat in Hn.
  unfold len, maxNeighbors. repeat split; try assumption; lia.
Qed.

(** X8.  The nodes that [findnode.handle] sends are, in order, the nodes
    of the answer of [closest] that pass [CheckRelayIP]: all of them
    when the last node of the answer passes the check; otherwise only
    the full packets of [maxNeighbors] nodes, what was collected for a
    last, shorter packet being sent by nobody. *)
Theorem neighbors_chunks_nodes (exp : Z) (ip : bytes) (cl : list Node) :
  concat (map neighbors_Nodes (neighbors_chunks exp ip [] cl))
  = firstn (if last_relayed ip cl then length (relayed ip cl)
            else Z.to_nat maxNeighbors
                 * (length (relayed ip cl) / Z.to_nat maxNeighbors))
           (relayed ip cl).
Proof.
  destruct (neighbors_chunks_acc exp ip cl [] ltac:(vm_compute; lia)) as [_ H].
  exact H.
Qed.

End FindnodeFacts.

(* ================================================================== *)
(** * The size of the neighbors packets *)
(* ================================================================== *)

Lemma In_firstn {A : Type} (x : A) (n : nat) (l : list A) :
  In x (firstn n l) -> In x l.
Proof.
  intros H. rewrite <- (firstn_skipn n l). apply in_or_app. left. exact H.
Qed.

Lemma puthead_len_le (smalltag largetag size : Z) (k : nat) :
  (1 <= k)%nat -> 0 <= size < 256 ^ Z.of_nat k ->
  1 <= len (puthead smalltag largetag size) <= 1 + Z.of_nat k
  /\ (size < 56 -> len (puthead smalltag largetag size) = 1).
Proof.
  intros Hk Hs. unfold puthead. destruct (Z.ltb_spec size 56) as [Hlt|Hge].
  - unfold len. cbn [length]. split; [lia | reflexivity].
  - pose proof (RLPFacts.putint_length k size Hk Hs) as Hp.
    unfold len. cbn [length]. split; lia.
Qed.

Lemma enc_string_le (b : bytes) :
  (len b < 56 -> len (enc_string b) <= len b + 1)
  /\ (len b < 256 -> len (enc_string b) <= len b + 2).
Proof.
  pose proof (len_nonneg b) as H0.
  destruct (Nat.eq_dec (length b) 1) as [H1|H1].
  - destruct b as [|x [|y t]]; try discriminate. unfold enc_string.
    destruct (b2z x <=? 127); [split; intros; unfold len; simpl; lia|].
    split; intros; vm_compute; discriminate.
  - rewrite RLPFacts.enc_string_long by assumption. rewrite len_app. split; intros H.
    + destruct (puthead_len_le 128 183 (len b) 1) as [_ Hs];
        [lia | change (256 ^ Z.of_nat 1) with 256; lia |].
      rewrite Hs by assumption. lia.
    + destruct (puthead_len_le 128 183 (len b) 1) as [Hs _];
        [lia | change (256 ^ Z.of_nat 1) with 256; lia |].
      lia.
Qed.

Lemma enc_list_le (p : bytes) :
  (len p < 256 -> len (enc_list p) <= len p + 2)
  /\ (len p < 65536 -> len (enc_list p) <= len p + 3).
Proof.
  pose proof (len_nonneg p) as H0. unfold enc_list. rewrite len_app. split; intros H.
  - destruct (puthead_len_le 192 247 (len p) 1) as [Hs _];
      [lia | change (256 ^ Z.of_nat 1) with 256; lia |]. lia.
  - destruct (puthead_len_le 192 247 (len p) 2) as [Hs _];
      [lia | change (256 ^ Z.of_nat 2) with 65536; lia |]. lia.
Qed.

Lemma enc_uint16_le (i : Z) : uint16_ok i -> len (enc_uint i) <= 3.
Proof.
  intros Hi. unfold uint16_ok in Hi. unfold enc_uint.
  destruct (i =? 0); [vm_compute; discriminate|].
  destruct (i <? 128); [vm_compute; discriminate|].
  pose proof (RLPFacts.putint_length 2 i ltac:(lia)) as Hp.
  change (256 ^ Z.of_nat 2) with 65536 in Hp.
  unfold len. cbn [length]. specialize (Hp ltac:(lia)). lia.
Qed.

Lemma enc_rpcNode_le (n : Node) :
  sized_node n -> len (enc_rpcNode (nodeToRPC n)) <= 91.
Proof.
  intros (Hip & Hu & Ht & Hid). unfold enc_rpcNode, nodeToRPC.
  cbn [rn_IP rn_UDP rn_TCP rn_ID].
  pose proof (proj1 (enc_string_le (node_IP n)) ltac:(lia)) as H1.
  pose proof (enc_uint16_le _ Hu) as H2.
  pose proof (enc_uint16_le _ Ht) as H3.
  pose proof (proj2 (enc_string_le (node_ID n)) ltac:(lia)) as H4.
  pose proof (len_nonneg (enc_string (node_IP n))).
  pose proof (len_nonneg (enc_uint (node_UDP n))).
  pose proof (len_nonneg (enc_uint (node_TCP n))).
  pose proof (len_nonneg (enc_string (node_ID n))).
  set (payload := enc_string (node_IP n) ++ _).
  assert (Hp : len payload <= 89).
  { unfold payload. rewrite !len_app. lia. }
  pose proof (len_nonneg payload).
  pose proof (proj1 (enc_list_le payload) ltac:(lia)). lia.
Qed.

Lemma concat_enc_rpcNode_le (ns : list rpcNode) :
  Forall (fun rn => len (enc_rpcNode rn) <= 91) ns ->
  len (concat (map enc_rpcNode ns)) <= 91 * len ns.
Proof.
  induction 1 as [|rn ns Hrn _ IH]; [vm_compute; discriminate|].
  cbn [map concat]. rewrite len_app. unfold len in *. cbn [length].
  rewrite Nat2Z.inj_succ. lia.
Qed.

(** A neighbors packet of at most [maxNeighbors] nodes of the table. *)
Lemma neighbors_encoding_le (p : neighbors) :
  Forall (fun rn => exists n, sized_node n /\ rn = nodeToRPC n) (neighbors_Nodes p) ->
  len (neighbors_Nodes p) <= maxNeighbors ->
  uint64_ok (neighbors_Expiration p) ->
  neighbors_Rest p = [] ->
  len (rlp_encode (Neighbors p)) <= 1107.
Proof.
  intros Hns Hcount Hexp Hrest. cbn [rlp_encode]. rewrite Hrest.
  cbn [enc_tail map concat]. rewrite app_nil_r.
  assert (Hc : len (concat (map enc_rpcNode (neighbors_Nodes p))) <= 1092).
  { etransitivity; [apply concat_enc_rpcNode_le|].
    - revert Hns. apply Forall_impl. intros rn (n & Hn & ->).
      apply enc_rpcNode_le, Hn.
    - unfold maxNeighbors in Hcount. lia. }
  set (inner := concat (map enc_rpcNode (neighbors_Nodes p))) in *.
  pose proof (len_nonneg inner).
  pose proof (proj2 (enc_list_le inner) ltac:(lia)) as H1.
  pose proof (enc_uint_len _ Hexp) as H2.
  pose proof (len_nonneg (enc_list inner)).
  pose proof (len_nonneg (enc_uint (neighbors_Expiration p))).
  set (payload := enc_list inner ++ _).
  assert (Hp : len payload <= 1104) by (unfold payload; rewrite len_app; lia).
  pose proof (len_nonneg payload).
  pose proof (proj2 (enc_list_le payload) ltac:(lia)). lia.
Qed.

Section SizeFacts.
Context {C : Crypto} {K : Collaborators}.
Variable L : CryptoLaws C.

(** The length of what [send] writes. *)
Lemma send_wire_len (u : udp) (ptype : byte) (req : packet) (buf : bytes) :
  send_wire u ptype req = Some buf ->
  len buf = headSize + 1 + len (rlp_encode req).
Proof.
  unfold send_wire.
  destruct (encodePacket_frame L (priv u) ptype req) as (sig & _ & Hlen & _ & ->).
  intros [= <-]. unfold len. rewrite !length_app, (keccak_len L), Hlen.
  cbn [length]. change headSize with 97. lia.
Qed.

Lemma stamp_expiration_ok (now : Time) : uint64_ok (stamp_expiration now).
Proof.
  unfold stamp_expiration, to_uint64, uint64_ok. apply Z.mod_pos_bound. lia.
Qed.

Lemma chunk_nodes_relayed (exp : Z) (ip : bytes) (cl : list Node) (c : neighbors)
  (rn : rpcNode) :
  In c (neighbors_chunks exp ip [] cl) -> In rn (neighbors_Nodes c) ->
  exists n, In n cl /\ rn = nodeToRPC n.
Proof.
  intros Hc Hrn.
  assert (Hin : In rn (concat (map neighbors_Nodes (neighbors_chunks exp ip [] cl)))).
  { apply in_concat. exists (neighbors_Nodes c). split; [apply in_map, Hc | exact Hrn]. }
  pose proof (neighbors_chunks_acc exp ip cl [] ltac:(vm_compute; lia)) as [_ Heq].
  rewrite Heq in Hin. cbn [app] in Hin.
  apply In_firstn in Hin. unfold relayed in Hin.
  apply in_map_iff in Hin. destruct Hin as (n & <- & Hn).
  apply filter_In in Hn. exists n. split; [tauto | reflexivity].
Qed.

(** X9.  When the table holds nodes with an IP of at most 16 bytes,
    ports of 16 bits and an ID of 64 bytes, every neighbors packet that
    [findnode.handle] sends is shorter than the 1280 bytes of a discovery
    packet, whatever the request. *)
Theorem neighbors_packets_fit (clk : clock) (q : findnode) (u : udp)
  (from : UDPAddr) (fromID : NodeID) (mac : bytes) (toID : NodeID)
  (toaddr : UDPAddr) (ptype : byte) (m : packet) (buf : bytes) :
  (forall target n mt,
     Forall sized_node
            (closest (buckets (table u)) (nodeTypes (table u)) target n mt)) ->
  In (Send toID toaddr ptype m) (snd (findnode_handle clk q u from fromID mac)) ->
  send_wire u ptype m = Some buf ->
  len buf < 1280.
Proof.
  intros Htab Hin Hwire. rewrite (send_wire_len _ _ _ _ Hwire).
  unfold findnode_handle in Hin.
  destruct (expired _ _); [destruct Hin|].
  destruct (db_node _ _); [|destruct Hin]. cbn [snd] in Hin.
  apply in_map_iff in Hin. destruct Hin as (c & Heq & Hc).
  injection Heq as _ _ _ <-.
  set (cl := closest _ _ _ _ _) in Hc.
  destruct (neighbors_chunks_acc (stamp_expiration (clk_stamp clk))
              (addr_IP from) cl [] ltac:(vm_compute; lia)) as [Hb _].
  rewrite Forall_forall in Hb. destruct (Hb c Hc) as ((_ & Hcount) & Hexp & Hrest).
  change (Z.to_nat maxNeighbors) with 12%nat in Hcount.
  assert (Hle : len (rlp_encode (Neighbors c)) <= 1107).
  { apply neighbors_encoding_le; try assumption.
    - apply Forall_forall. intros rn Hrn.
      destruct (chunk_nodes_relayed _ _ _ _ _ Hc Hrn) as (nd & Hn & ->).
      exists nd. split; [|reflexivity].
      pose proof (Htab (Keccak256 (findnode_Target q)) bucketSize
                       (findnode_matchType (findnode_Rest q))) as Hall.
      rewrite Forall_forall in Hall. apply Hall, Hn.
    - unfold len, maxNeighbors. lia.
    - rewrite Hexp. apply stamp_expiration_ok. }
  change headSize with 97. lia.
Qed.

End SizeFacts.

(* ================================================================== *)
(** * Requests and their replies *)
(* ================================================================== *)

Lemma Split_app_sep (sep : byte) (v rest : bytes) :
  ~ In sep v -> Split sep (v ++ sep :: rest) = v :: Split sep rest.
Proof.
  induction v as [|c v IH]; intros Hv; cbn [app Split].
  - rewrite (proj2 (byte_eqb_eq sep sep) eq_refl). reflexivity.
  - rewrite byte_eqb_neq by (intros ->; apply Hv; left; reflexivity).
    rewrite IH by (intros H; apply Hv; right; exact H). reflexivity.
Qed.

(** Splitting at the commas what the string builder of
    [findvalue.handle] holds gives the values back, and one empty string
    behind them. *)
Lemma Split_join_commas (vs : list bytes) :
  Forall (fun v => ~ In comma_byte v) vs ->
  Split comma_byte (join_commas vs) = vs ++ [[]].
Proof.
  induction 1 as [|v vs Hv _ IH]; [reflexivity|].
  unfold join_commas in *. cbn [map concat app].
  rewrite <- app_assoc. cbn [app]. rewrite (Split_app_sep _ _ _ Hv), IH. reflexivity.
Qed.

Section RequestFacts.
Context {C : Crypto} {K : Collaborators} {N : NodeChecks}.

Lemma findvalue_selection_incl (seed : Z) (value : list bytes) :
  incl (findvalue_selection seed value) value.
Proof.
  unfold findvalue_selection.
  destruct (Nat.eqb (length value) 0); [intros x []|].
  destruct (Nat.leb (length value) SubnetBootNodeLimits); [apply incl_refl|].
  intros x Hx. apply In_firstn in Hx.
  apply (Permutation_in x (Shuffle_Permutation seed value)). exact Hx.
Qed.

(** X10.  The reply that [findvalue.handle] sends is read back by the
    callback of [udp.findvalue] as the values that were selected,
    followed by one empty string, provided no stored value contains a
    comma: these are the strings given to [ParseNode], the nodes it
    accepts become the fallback nodes, and the request is complete. *)
Theorem findvalue_reply_read_back (clk : clock) (req : findvalue) (u : udp)
  (from : UDPAddr) (fromID : NodeID) (mac : bytes) (toID : NodeID)
  (toaddr : UDPAddr) (ptype : byte) (m : packet) (types : NodeID -> NodeType) :
  Forall (fun v => ~ In comma_byte v) (GetKey (kv (table u)) (findvalue_Key req)) ->
  In (Send toID toaddr ptype m) (snd (findvalue_handle clk req u from fromID mac)) ->
  findvalue_callback_code tt m types
  = (true,
     Some (parse_nodes
             (findvalue_selection (UnixNano (clk_seed clk))
                                  (GetKey (kv (table u)) (findvalue_Key req))
              ++ [[]])),
     tt).
Proof.
  intros Hcommas Hin. unfold findvalue_handle in Hin.
  destruct (expired _ _); [destruct Hin|].
  cbn [snd] in Hin. destruct Hin as [Heq|[]]. injection Heq as _ _ _ <-.
  cbn [findvalue_callback_code findvalueReply_Value].
  rewrite Split_join_commas; [reflexivity|].
  apply Forall_forall. intros v Hv. rewrite Forall_forall in Hcommas.
  apply Hcommas. exact (findvalue_selection_incl _ _ v Hv).
Qed.

(* ------------------------------------------------------------------ *)
(** ** The callback of findnode *)

Lemma nodeFromRPC_checks (netrestrict : option (bytes -> bool)) (sender : UDPAddr)
  (rn : rpcNode) (n : Node) :
  nodeFromRPC netrestrict sender rn = Some n ->
  1024 < rn_UDP rn
  /\ CheckRelayIP (addr_IP sender) (rn_IP rn) = true
  /\ (forall contains, netrestrict = Some contains -> contains (rn_IP rn) = true)
  /\ validateComplete n = true
  /\ n = NewNode (rn_ID rn) (rn_IP rn) (rn_UDP rn) (rn_TCP rn)
                 (rn_beneficialAddress rn) (rn_serviceCfg rn)
                 (rn_showToPublic rn) (rn_ip rn).
Proof.
  unfold nodeFromRPC.
  destruct (Z.leb_spec (rn_UDP rn) 1024) as [|Hport]; [discriminate|].
  destruct (CheckRelayIP (addr_IP sender) (rn_IP rn)); [|discriminate]. cbn [negb].
  destruct netrestrict as [contains|].
  - destruct (contains (rn_IP rn)) eqn:Hc; [|discriminate]. cbn [negb].
    destruct (validateComplete _) eqn:Hv; [|discriminate].
    intros [= <-]. repeat split; try assumption.
    intros c [= <-]. exact Hc.
  - destruct (validateComplete _) eqn:Hv; [|discriminate].
    intros [= <-]. repeat split; try assumption. discriminate.
Qed.

Lemma findnode_receive_fold (netrestrict : option (bytes -> bool))
  (toaddr : UDPAddr) (strict : bool) (types : NodeID -> NodeType)
  (rns : list rpcNode) :
  forall nodes nreceived,
    exists added,
      fold_left (findnode_receive netrestrict toaddr strict types) rns
                (nodes, nreceived)
      = (nodes ++ added, nreceived + len rns)
      /\ Forall (collected_ok netrestrict toaddr strict types rns) added.
Proof.
  induction rns as [|rn rns IH]; intros nodes nreceived.
  { exists []. cbn. rewrite app_nil_r, Z.add_0_r. split; [reflexivity|constructor]. }
  cbn [fold_left].
  assert (Hlen : forall k, k + 1 + len rns = k + len (rn :: rns)).
  { intros k. unfold len. cbn [length]. lia. }
  assert (Hweak : forall added,
             Forall (collected_ok netrestrict toaddr strict types rns) added ->
             Forall (collected_ok netrestrict toaddr strict types (rn :: rns)) added).
  { intros added. apply Forall_impl. intros n (Ha & Hb & rn' & Hin & Hrn).
    repeat split; try assumption. exists rn'. split; [right; exact Hin | exact Hrn]. }
  cbn [findnode_receive].
  destruct (nodeFromRPC netrestrict toaddr rn) as [n|] eqn:Hn.
  - destruct (NodeType_eqb (types (node_ID n)) AlienNode) eqn:Halien.
    + destruct (IH nodes (nreceived + 1)) as (added & -> & Hadded).
      exists added. rewrite Hlen. split; [reflexivity | apply Hweak, Hadded].
    + assert (Hna : types (node_ID n) <> AlienNode).
      { intros Heq. rewrite Heq in Halien. discriminate. }
      destruct strict.
      * destruct (NodeType_eqb (types (node_ID n)) BrotherNode) eqn:Hbro.
        -- destruct (IH (nodes ++ [n]) (nreceived + 1)) as (added & -> & Hadded).
           exists (n :: added). rewrite Hlen, <- app_assoc.
           split; [reflexivity|]. constructor; [|apply Hweak, Hadded].
           repeat split; try assumption.
           ++ intros _. apply NodeType_eqb_eq, Hbro.
           ++ exists rn. split; [left; reflexivity | exact Hn].
        -- destruct (IH nodes (nreceived + 1)) as (added & -> & Hadded).
           exists added. rewrite Hlen. split; [reflexivity | apply Hweak, Hadded].
      * destruct (IH (nodes ++ [n]) (nreceived + 1)) as (added & -> & Hadded).
        exists (n :: added). rewrite Hlen, <- app_assoc.
        split; [reflexivity|]. constructor; [|apply Hweak, Hadded].
        repeat split; try assumption.
        -- discriminate.
        -- exists rn. split; [left; reflexivity | exact Hn].
  - destruct (IH nodes (nreceived + 1)) as (added & -> & Hadded).
    exists added. rewrite Hlen. split; [reflexivity | apply Hweak, Hadded].
Qed.

(** X11.  The callback of [udp.findnode] counts every node of every
    neighbors packet, kept or not, and reports completion exactly when
    the count has reached [bucketSize]; it never touches the fallback
    nodes. *)
Theorem findnode_callback_counts (netrestrict : option (bytes -> bool))
  (toaddr : UDPAddr) (strict : bool) (types : NodeID -> NodeType)
  (nodes : list Node) (nreceived : Z) (reply : neighbors) :
  let r := findnode_callback_code netrestrict toaddr strict (nodes, nreceived)
                                  (Neighbors reply) types in
  snd (snd r) = nreceived + len (neighbors_Nodes reply)
  /\ fst (fst r) = (bucketSize <=? nreceived + len (neighbors_Nodes reply))
  /\ snd (fst r) = None.
Proof.
  cbn [findnode_callback_code].
  destruct (findnode_receive_fold netrestrict toaddr strict types
              (neighbors_Nodes reply) nodes nreceived) as (added & -> & _).
  cbn [fst snd]. repeat split.
Qed.

(** X12.  The nodes that the callback of [udp.findnode] keeps are added
    behind those it holds, and each of them came in the packet with a
    UDP port above 1024 and an IP that may be relayed by the node asked
    and lies in the restricted networks, if there are any, passed
    [validateComplete], and is not known as an alien node; in strict
    mode each is known as a brother node. *)
Theorem findnode_callback_collects (netrestrict : option (bytes -> bool))
  (toaddr : UDPAddr) (strict : bool) (types : NodeID -> NodeType)
  (nodes : list Node) (nreceived : Z) (reply : neighbors) :
  exists added,
    fst (snd (findnode_callback_code netrestrict toaddr strict (nodes, nreceived)
                                     (Neighbors reply) types))
    = nodes ++ added
    /\ Forall (fun n =>
         types (node_ID n) <> AlienNode
         /\ (strict = true -> types (node_ID n) = BrotherNode)
         /\ validateComplete n = true
         /\ exists rn,
              In rn (neighbors_Nodes reply)
              /\ n = NewNode (rn_ID rn) (rn_IP rn) (rn_UDP rn) (rn_TCP rn)
                             (rn_beneficialAddress rn) (rn_serviceCfg rn)
                             (rn_showToPublic rn) (rn_ip rn)
              /\ 1024 < rn_UDP rn
              /\ CheckRelayIP (addr_IP toaddr) (rn_IP rn) = true
              /\ forall contains, netrestrict = Some contains ->
                                  contains (rn_IP rn) = true) added.
Proof.
  cbn [findnode_callback_code].
  destruct (findnode_receive_fold netrestrict toaddr strict types
              (neighbors_Nodes reply) nodes nreceived) as (added & -> & Hadded).
  exists added. cbn [fst snd]. split; [reflexivity|].
  revert Hadded. apply Forall_impl. intros n (Ha & Hb & rn & Hin & Hrn).
  destruct (nodeFromRPC_checks _ _ _ _ Hrn) as (Hport & Hrelay & Hnet & Hv & Hnew).
  repeat split; try assumption. exists rn. repeat split; assumption.
Qed.

(* ------------------------------------------------------------------ *)
(** ** Replies that nobody waits for, and the answer to a ping *)

Lemma gotreply_scan_no_match (r : reply) (t : Table) (l : list pending) :
  Forall (fun q => pending_matches (r_from r) (r_ptype r) q = false) l ->
  gotreply_scan r t l = (false, t, l, []).
Proof.
  induction 1 as [|q l Hq _ IH]; [reflexivity|].
  cbn [gotreply_scan]. unfold pending_matches in Hq. rewrite Hq, IH. reflexivity.
Qed.

Lemma resetTimeout_plist (now : Z) (st : loopState) (P : pending -> Prop) :
  Forall P (plist st) -> Forall P (plist (fst (resetTimeout now st))).
Proof.
  intros H. destruct (resetTimeout_shape now st) as [_ [[-> _]|(f & o & Hpl & -> & _)]].
  - exact H.
  - rewrite Hpl in H. inversion H; assumption.
Qed.

Lemma handleReply_no_match (tloop : Z) (u : udp) (from : NodeID) (ptype : byte)
  (req : packet) :
  Forall (fun q => pending_matches from ptype q = false) (plist (loop u)) ->
  fst (fst (handleReply tloop u from ptype req)) = false
  /\ Forall (fun e => ~ completion e) (snd (handleReply tloop u from ptype req)).
Proof.
  intros Hno. unfold handleReply. destruct (closing u); [split; [reflexivity|constructor]|].
  unfold loop_step. destruct (running (loop u)); [|split; [reflexivity|constructor]].
  pose proof (resetTimeout_plist tloop (loop u) _ Hno) as Hno1.
  destruct (resetTimeout_shape tloop (loop u)) as [_ Hshape].
  destruct (resetTimeout tloop (loop u)) as [st1 evs1]. cbn [fst snd] in *.
  cbn [enabled loop_case].
  rewrite (gotreply_scan_no_match (mkReply from ptype req) (table u) (plist st1) Hno1).
  cbn [fst snd]. split; [reflexivity|]. rewrite app_nil_r.
  destruct Hshape as [[_ ->]|(f & o & _ & _ & ->)]; [constructor|].
  constructor; [intros []|constructor].
Qed.

Lemma processRest_loop (Rest : list RawValue) (u : udp) (fromID : NodeID) :
  loop (snd (processRestInPingPong Rest u fromID)) = loop u
  /\ closing (snd (processRestInPingPong Rest u fromID)) = closing u.
Proof.
  unfold processRestInPingPong. destruct (_ =? networkid u); [split; reflexivity|].
  destruct (negb _); split; reflexivity.
Qed.

(** X13.  A pong, a neighbors packet or a findvalueReply that has not
    expired and that no entry of the pending list waits for is answered
    with [errUnsolicitedReply]: no caller is told of a completion, and
    nothing is sent. *)
Theorem unsolicited_reply (clk : clock) (p : packet) (u : udp) (from : UDPAddr)
  (fromID : NodeID) (mac : bytes) :
  is_reply p = true ->
  expired (clk_now clk) (Expiration_of p) = false ->
  Forall (fun q => pending_matches fromID (ptype_of p) q = false) (plist (loop u)) ->
  fst (fst (handle clk p u from fromID mac)) = Some errUnsolicitedReply
  /\ Forall (fun e => ~ completion e /\ ~ outgoing e)
            (snd (handle clk p u from fromID mac)).
Proof.
  intros Hr Hexp Hno.
  assert (Hboth : forall tloop v ptype req,
             Forall (fun q => pending_matches fromID ptype q = false) (plist (loop v)) ->
             fst (fst (handleReply tloop v fromID ptype req)) = false
             /\ Forall (fun e => ~ completion e /\ ~ outgoing e)
                       (snd (handleReply tloop v fromID ptype req))).
  { intros tloop v ptype req Hv.
    destruct (handleReply_no_match tloop v fromID ptype req Hv) as [Hm Hc].
    split; [exact Hm|].
    pose proof (on_errc_quiet _ (handleReply_effects tloop v fromID ptype req)) as Hq.
    rewrite Forall_forall in *. intros e He. split; [apply Hc, He | apply Hq, He]. }
  destruct p as [q|q|q|q|q|q|q|q]; try discriminate;
    cbn [handle Expiration_of ptype_of] in *.
  - unfold pong_handle. rewrite Hexp.
    destruct (processRest_loop (pong_Rest q) u fromID) as [Hl _].
    destruct (processRestInPingPong (pong_Rest q) u fromID) as [ty u1].
    cbn [snd] in Hl. rewrite <- Hl in Hno.
    destruct (Hboth (clk_loop clk) u1 PONGPACKET (Pong q) Hno) as [Hm He].
    destruct (handleReply _ _ _ _ _) as [[m u2] evs]. cbn [fst snd] in *.
    subst m. split; [reflexivity | exact He].
  - unfold neighbors_handle. rewrite Hexp.
    destruct (Hboth (clk_loop clk) u NEIGHBORSPACKET (Neighbors q) Hno) as [Hm He].
    destruct (handleReply _ _ _ _ _) as [[m u2] evs]. cbn [fst snd] in *.
    subst m. split; [reflexivity | exact He].
  - unfold findvalueReply_handle. rewrite Hexp.
    destruct (Hboth (clk_loop clk) u FINDVALUEREPLYPACKET (FindvalueReply q) Hno)
      as [Hm He].
    destruct (handleReply _ _ _ _ _) as [[m u2] evs]. cbn [fst snd] in *.
    subst m. split; [reflexivity | exact He].
Qed.

End RequestFacts.

(* ================================================================== *)
(** * Time stamps, the wire, and the read loop *)
(* ================================================================== *)

(** The stamp that [time.Now().Add(expiration).Unix()] gives at second
    [s] of the Unix era. *)
Lemma stamp_expiration_normal (s ns : Z) :
  0 <= s < 2 ^ 62 -> 0 <= ns < 1000000000 ->
  stamp_expiration (mkTime (s + unixToInternal) ns) = s + 20.
Proof.
  intros Hs Hns. unfold stamp_expiration, Add, Unix, expiration, Second, Millisecond.
  cbn [t_sec t_nsec].
  change (Z.quot (20 * (1000 * 1000000)) 1000000000) with 20.
  change (Z.rem (20 * (1000 * 1000000)) 1000000000) with 0.
  rewrite Z.add_0_r.
  destruct (Z.leb_spec 1000000000 ns); [lia|].
  destruct (Z.ltb_spec ns 0); [lia|]. cbn [t_sec].
  unfold to_int64, to_uint64, unixToInternal.
  replace (s + 62135596800 + 20 - 62135596800 + 2 ^ 63) with (s + 20 + 2 ^ 63) by lia.
  rewrite (Z.mod_small (s + 20 + 2 ^ 63)) by lia.
  replace (s + 20 + 2 ^ 63 - 2 ^ 63) with (s + 20) by lia.
  apply Z.mod_small. lia.
Qed.

(** X14.  A packet stamped at second [s] of the sender's clock is taken
    as expired exactly when the clock of the receiver has passed second
    [s + 20]: it lives for 20 seconds less the nanoseconds at which it
    was stamped. *)
Theorem stamped_packet_lifetime (s ns s' ns' : Z) :
  0 <= s < 2 ^ 62 -> 0 <= ns < 1000000000 -> 0 <= s' < 2 ^ 62 ->
  (expired (mkTime (s' + unixToInternal) ns')
           (stamp_expiration (mkTime (s + unixToInternal) ns)) = true
   <-> s + 20 < s' \/ (s + 20 = s' /\ 0 < ns')).
Proof.
  intros Hs Hns Hs'. rewrite (stamp_expiration_normal s ns Hs Hns).
  apply expired_strictly_before; unfold unixToInternal; lia.
Qed.

Section WireFacts.
Context {C : Crypto} {K : Collaborators}.
Variable L : CryptoLaws C.


End WireFacts.

Section ReadLoopFacts.
Context {C : Crypto} {K : Collaborators}.

Lemma to_node_reaches (id fromID : NodeID) (from : UDPAddr) (e : effect) :
  to_node fromID from e -> reaches id e -> fromID = id.
Proof.
  destruct e; cbn; try contradiction.
  - intros [-> _] ->. reflexivity.
  - intros [-> _] ->. reflexivity.
Qed.

Lemma handlePacket_not_to_alien (clk : clock) (u : udp) (from : UDPAddr)
  (buf : bytes) (id : NodeID) :
  GetNodeType (table u) id = AlienNode ->
  Forall (fun e => ~ reaches id e) (snd (handlePacket clk u from buf)).
Proof.
  intros Ha. destruct (handlePacket_effects clk u from buf) as [Hto Hquiet].
  destruct (NodeID_eqb (d_fromID (decodePacket buf)) id) eqn:E.
  - apply NodeID_eqb_eq in E. rewrite E, Ha in Hquiet.
    rewrite (Hquiet eq_refl). constructor.
  - revert Hto. apply Forall_impl. intros e He Hr.
    apply (to_node_reaches id) in He; [|exact Hr].
    apply NodeID_eqb_eq in He. congruence.
Qed.

(** X16.  Whatever datagrams and read errors [readLoop] meets, a node
    that the transport has classified as alien stays alien, no packet is
    sent to it and no bond with it is started. *)
Theorem readLoop_ignores_alien (reads : list (clock * readResult)) (u : udp)
  (id : NodeID) :
  GetNodeType (table u) id = AlienNode ->
  GetNodeType (table (fst (fst (readLoop reads u)))) id = AlienNode
  /\ Forall (fun e => ~ reaches id e) (snd (fst (readLoop reads u))).
Proof.
  revert u. induction reads as [|[clk r] rest IH]; intros u Ha.
  { split; [exact Ha | constructor]. }
  cbn [readLoop]. destruct r as [datagram from| |].
  - pose proof (handlePacket_keeps_alien clk u from (firstn 1280 datagram) id Ha) as Hk.
    pose proof (handlePacket_not_to_alien clk u from (firstn 1280 datagram) id Ha) as Hq.
    destruct (handlePacket clk u from (firstn 1280 datagram)) as [[err u1] evs1].
    cbn [fst snd] in *. destruct (IH u1 Hk) as [IH1 IH2].
    destruct (readLoop rest u1) as [[u2 evs2] stopped]. cbn [fst snd] in *.
    split; [exact IH1|]. apply Forall_app. split; assumption.
  - apply IH, Ha.
  - split; [exact Ha | constructor].
Qed.

End ReadLoopFacts.

(* ================================================================== *)
(** * A ping and its pong *)
(* ================================================================== *)

Section PingFacts.
Context {C : Crypto} {K : Collaborators}.

Lemma resetTimeout_keeps (now : Z) (st : loopState) :
  Forall (fun p => p_deadline p < now + 2 * respTimeout) (plist st) ->
  plist (fst (resetTimeout now st)) = plist st
  /\ running (fst (resetTimeout now st)) = running st
  /\ snd (resetTimeout now st) = [].
Proof.
  intros H. unfold resetTimeout.
  destruct (plist st) as [|front others] eqn:Hpl.
  { cbn [fst snd]. repeat split. exact Hpl. }
  destruct (same_pending (nextTimeout st) front).
  { cbn [fst snd]. repeat split. exact Hpl. }
  inversion H as [|? ? Hf _]; subst.
  destruct (Z.ltb_spec (p_deadline front - now) (2 * respTimeout)); [|lia].
  cbn [fst snd plist running]. repeat split.
Qed.

Lemma gotreply_scan_first (r : reply) (t : Table) (l1 l2 : list pending)
  (p : pending) :
  Forall (fun q => pending_matches (r_from r) (r_ptype r) q = false) l1 ->
  pending_matches (r_from r) (r_ptype r) p = true ->
  fst (fst (run_callback (p_callback p) (r_data r) (nodeTypes t))) = true ->
  gotreply_scan r t (l1 ++ p :: l2)
  = (true,
     match snd (fst (run_callback (p_callback p) (r_data r) (nodeTypes t))) with
     | Some ns => SetFallbackNodes t ns
     | None => t
     end, l1 ++ l2, [ErrcSend (p_errc p) None]).
Proof.
  intros Hl1 Hp Hdone.
  induction Hl1 as [|q l1 Hq _ IH]; cbn [app gotreply_scan].
  - unfold pending_matches in Hp. rewrite Hp.
    destruct (run_callback (p_callback p) (r_data r) (nodeTypes t)) as [[done fb] cb'].
    cbn [fst snd] in *. subst done. reflexivity.
  - unfold pending_matches in Hq. rewrite Hq, IH. reflexivity.
Qed.

(** What [udp.ping] does on an open transport whose list holds no entry
    with a deadline too far ahead: its pending goes to the end of the
    list, with its deadline, and the ping goes out. *)
Lemma udp_ping_registers (now : Time) (tloop tarr : Z) (ch : nat) (u : udp)
  (toid : NodeID) (toaddr : UDPAddr) :
  closing u = false -> running (loop u) = true ->
  Forall (fun p => p_deadline p < tloop + 2 * respTimeout) (plist (loop u)) ->
  let r := udp_ping now tloop tarr ch u toid toaddr in
  snd r = [Send toid toaddr PINGPACKET
             (Ping (mkPing Version (ourEndpoint u) (makeEndpoint toaddr 0)
                           (stamp_expiration now)
                           (networkid_rest (networkid u))))]
  /\ plist (loop (fst r))
     = plist (loop u)
       ++ [mkPending toid PONGPACKET (tarr + respTimeout) callback_true ch tarr]
  /\ running (loop (fst r)) = true
  /\ closing (fst r) = false
  /\ table (fst r) = table u
  /\ priv (fst r) = priv u
  /\ networkid (fst r) = networkid u.
Proof.
  intros Hopen Hrun Hd r. subst r.
  unfold udp_ping, submit_pending. rewrite Hopen. unfold loop_step. rewrite Hrun.
  destruct (resetTimeout_keeps tloop (loop u) Hd) as (Hp1 & Hr1 & He1).
  destruct (resetTimeout tloop (loop u)) as [st1 evs1]. cbn [fst snd] in *.
  subst evs1. cbn [enabled loop_case fst snd app loop with_loop plist running
                   closing table priv networkid].
  rewrite Hp1, Hr1. repeat split; assumption.
Qed.

(** A pong that has not expired, handled when the last entry of the list
    waits for it with a callback that reports completion, no entry
    before it waits for it, and no deadline lies too far ahead. *)
Lemma pong_handle_completes (clk : clock) (q : pong) (u : udp) (from : UDPAddr)
  (fromID : NodeID) (mac : bytes) (l : list pending) (p : pending) :
  closing u = false -> running (loop u) = true ->
  plist (loop u) = l ++ [p] ->
  Forall (fun x => pending_matches fromID PONGPACKET x = false) l ->
  pending_matches fromID PONGPACKET p = true ->
  (forall data types, fst (fst (run_callback (p_callback p) data types)) = true
                      /\ snd (fst (run_callback (p_callback p) data types)) = None) ->
  Forall (fun x => p_deadline x < clk_loop clk + 2 * respTimeout) (l ++ [p]) ->
  expired (clk_now clk) (pong_Expiration q) = false ->
  let r := pong_handle clk q u from fromID mac in
  fst (fst r) = None
  /\ snd r = [ErrcSend (p_errc p) None]
  /\ plist (loop (snd (fst r))) = l
  /\ nodeTypes (table (snd (fst r)))
     = nodeTypes (table (snd (processRestInPingPong (pong_Rest q) u fromID))).
Proof.
  intros Hopen Hrun Hpl Hno Hp Hcb Hd Hexp r. subst r.
  unfold pong_handle. rewrite Hexp.
  destruct (processRest_loop (pong_Rest q) u fromID) as [Hl Hc].
  destruct (processRestInPingPong (pong_Rest q) u fromID) as [ty u1].
  cbn [snd] in *.
  unfold handleReply. rewrite Hc, Hopen. unfold loop_step. rewrite Hl, Hrun.
  rewrite <- Hpl in Hd.
  destruct (resetTimeout_keeps (clk_loop clk) (loop u) Hd) as (Hp2 & Hr2 & He2).
  destruct (resetTimeout (clk_loop clk) (loop u)) as [st3 evs3]. cbn [fst snd] in *.
  subst evs3. cbn [enabled loop_case]. rewrite Hp2, Hpl.
  destruct (Hcb (Pong q) (nodeTypes (table u1))) as [Hdone Hfb].
  rewrite (gotreply_scan_first (mkReply fromID PONGPACKET (Pong q)) (table u1)
             l [] p Hno Hp Hdone).
  cbn [r_data] in Hfb. cbn [r_data]. rewrite Hfb.
  cbn [fst snd app plist loop with_loop table]. rewrite app_nil_r. repeat split.
Qed.

(** X17.  A ping is completed by the first pong of the pinged node that
    has not expired, from whatever address it comes and whatever token
    it echoes: the caller of [ping] is told of the completion, and the
    pending list is as it was before the ping.  The transport is open,
    its loop runs, no other entry of the list waits for a pong of that
    node, and the clock of the loop has not been set back by half a
    second or more. *)
Theorem ping_completed_by_pong (now : Time) (tloop tarr : Z) (ch : nat) (u : udp)
  (toid : NodeID) (toaddr : UDPAddr) (clk : clock) (q : pong) (from : UDPAddr)
  (mac : bytes) :
  closing u = false -> running (loop u) = true ->
  Forall (fun p => pending_matches toid PONGPACKET p = false
                   /\ p_deadline p < tloop + 2 * respTimeout
                   /\ p_deadline p < clk_loop clk + 2 * respTimeout)
         (plist (loop u)) ->
  tarr < clk_loop clk + respTimeout ->
  expired (clk_now clk) (pong_Expiration q) = false ->
  let u1 := fst (udp_ping now tloop tarr ch u toid toaddr) in
  let r := pong_handle clk q u1 from toid mac in
  fst (fst r) = None
  /\ snd r = [ErrcSend ch None]
  /\ plist (loop (snd (fst r))) = plist (loop u).
Proof.
  intros Hopen Hrun Hlist Harr Hexp u1 r. subst r u1.
  assert (Hno : Forall (fun p => pending_matches toid PONGPACKET p = false)
                       (plist (loop u))).
  { revert Hlist. apply Forall_impl. tauto. }
  assert (Hd1 : Forall (fun p => p_deadline p < tloop + 2 * respTimeout)
                       (plist (loop u))).
  { revert Hlist. apply Forall_impl. tauto. }
  assert (Hd2 : Forall (fun p => p_deadline p < clk_loop clk + 2 * respTimeout)
                       (plist (loop u))).
  { revert Hlist. apply Forall_impl. tauto. }
  destruct (udp_ping_registers now tloop tarr ch u toid toaddr Hopen Hrun Hd1)
    as (_ & Hpl & Hr1 & Hc1 & _).
  set (p := mkPending toid PONGPACKET (tarr + respTimeout) callback_true ch tarr) in *.
  destruct (pong_handle_completes clk q
              (fst (udp_ping now tloop tarr ch u toid toaddr)) from toid mac
              (plist (loop u)) p Hc1 Hr1 Hpl Hno) as (H1 & H2 & H3 & _).
  - unfold pending_matches. cbn [p p_from p_ptype].
    rewrite (proj2 (NodeID_eqb_eq toid toid) eq_refl). reflexivity.
  - intros data types. split; reflexivity.
  - apply Forall_app. split; [exact Hd2|].
    constructor; [|constructor]. cbn [p p_deadline]. lia.
  - exact Hexp.
  - repeat split; assumption.
Qed.

End PingFacts.

(* ================================================================== *)
(** * A ping and its pong between two transports *)
(* ================================================================== *)

Lemma wf_raw_EncodeToBytes (s : bytes) :
  (2 <= length s <= 55)%nat ->
  wf_raw (EncodeToBytes_string s)
  /\ len (raw_bytes (EncodeToBytes_string s)) = 1 + len s.
Proof.
  intros Hs. unfold EncodeToBytes_string.
  rewrite RLPFacts.enc_string_long by lia.
  assert (Hh : puthead 128 183 (len s) = [z2b (128 + len s)]).
  { unfold puthead. destruct (Z.ltb_spec (len s) 56) as [_|H]; [reflexivity|].
    unfold len in H. lia. }
  rewrite Hh. cbn [app]. split.
  - unfold wf_raw, raw_bytes. cbn [raw_hd raw_tl]. unfold dec_raw.
    change (z2b (128 + len s) :: s) with ([z2b (128 + len s)] ++ s).
    rewrite <- Hh.
    rewrite (RLPFacts.readKind_puthead 128 183 KString (len s) s);
      [| left; auto | unfold len; lia | lia].
    unfold len. rewrite Nat2Z.id, Nat.sub_diag. cbn [Nat.add].
    rewrite firstn_all, skipn_all. reflexivity.
  - unfold raw_bytes, len. cbn [raw_hd raw_tl length]. lia.
Qed.

Lemma networkid_rest_ok (n : Z) :
  0 <= n < 2 ^ 64 ->
  Forall wf_raw (networkid_rest n) /\ len (enc_tail (networkid_rest n)) <= 22.
Proof.
  intros Hn. destruct (fmt_d_spec n Hn) as (Hne & _ & Hlen & _).
  assert (Hs : (2 <= length (fmt_d n ++ [tab_byte]) <= 55)%nat).
  { rewrite length_app. cbn [length]. destruct (fmt_d n); [contradiction|].
    cbn [length] in *. lia. }
  destruct (wf_raw_EncodeToBytes _ Hs) as [Hwf Hl].
  unfold networkid_rest. split; [repeat constructor; exact Hwf|].
  unfold enc_tail. cbn [map concat]. rewrite app_nil_r, Hl.
  unfold len. rewrite length_app. cbn [length]. lia.
Qed.

Lemma makeEndpoint_ok (addr : UDPAddr) (tcpPort : Z) :
  uint16_ok tcpPort ->
  wf_endpoint (makeEndpoint addr tcpPort)
  /\ len (ep_IP (makeEndpoint addr tcpPort)) <= 16.
Proof.
  intros Ht. unfold makeEndpoint, wf_endpoint. cbn [ep_IP ep_UDP ep_TCP].
  split; [split; [|exact Ht]|].
  - unfold to_uint16, uint16_ok. apply Z.mod_pos_bound. lia.
  - unfold To4, To16, len.
    destruct (Nat.eqb_spec (length (addr_IP addr)) 4) as [H4|H4]; [lia|].
    destruct (Nat.eqb_spec (length (addr_IP addr)) 16) as [H16|H16]; cbn [andb].
    + destruct (bytes_eqb _ _).
      * rewrite length_skipn. lia.
      * lia.
    + cbn [length]. lia.
Qed.

Lemma enc_endpoint_le (e : rpcEndpoint) :
  wf_endpoint e -> len (ep_IP e) <= 16 -> len (enc_endpoint e) <= 24.
Proof.
  intros [Hu Ht] Hip. unfold enc_endpoint.
  pose proof (proj1 (enc_string_le (ep_IP e)) ltac:(lia)) as H1.
  pose proof (enc_uint16_le _ Hu) as H2.
  pose proof (enc_uint16_le _ Ht) as H3.
  pose proof (len_nonneg (enc_string (ep_IP e))).
  pose proof (len_nonneg (enc_uint (ep_UDP e))).
  pose proof (len_nonneg (enc_uint (ep_TCP e))).
  set (payload := enc_string (ep_IP e) ++ _).
  assert (Hp : len payload <= 23) by (unfold payload; rewrite !len_app; lia).
  pose proof (len_nonneg payload).
  unfold enc_list. rewrite len_app.
  destruct (puthead_len_le 192 247 (len payload) 1) as [_ Hs];
    [lia | change (256 ^ Z.of_nat 1) with 256; lia |].
  rewrite Hs by lia. lia.
Qed.

Lemma ping_msg_ok (from to : rpcEndpoint) (exp : Z) (rest : list RawValue) :
  wf_endpoint from -> len (ep_IP from) <= 16 ->
  wf_endpoint to -> len (ep_IP to) <= 16 ->
  uint64_ok exp -> Forall wf_raw rest -> len (enc_tail rest) <= 22 ->
  wf_packet (Ping (mkPing Version from to exp rest))
  /\ len (rlp_encode (Ping (mkPing Version from to exp rest))) <= 100.
Proof.
  intros Hf Hfi Ht Hti He Hr Hrl.
  assert (Hlen : len (rlp_encode (Ping (mkPing Version from to exp rest))) <= 100).
  { cbn [rlp_encode ping_Version ping_From ping_To ping_Expiration ping_Rest].
    pose proof (enc_endpoint_le from Hf Hfi).
    pose proof (enc_endpoint_le to Ht Hti).
    pose proof (enc_uint_len exp He).
    assert (Hv : len (enc_uint Version) = 1) by reflexivity.
    pose proof (len_nonneg (enc_endpoint from)).
    pose proof (len_nonneg (enc_endpoint to)).
    pose proof (len_nonneg (enc_uint exp)).
    pose proof (len_nonneg (enc_tail rest)).
    set (payload := enc_uint Version ++ _).
    assert (Hp : len payload <= 80) by (unfold payload; rewrite !len_app; lia).
    pose proof (len_nonneg payload).
    pose proof (proj1 (enc_list_le payload) ltac:(lia)). lia. }
  split; [|exact Hlen]. split; [|lia].
  cbn [wf_fields ping_Version ping_From ping_To ping_Expiration ping_Rest].
  unfold wf_endpoint, uint64_ok, uint16_ok, Version in *. intuition lia.
Qed.

Lemma pong_msg_ok (to : rpcEndpoint) (tok : bytes) (exp : Z) (rest : list RawValue) :
  wf_endpoint to -> len (ep_IP to) <= 16 -> len tok <= 32 ->
  uint64_ok exp -> Forall wf_raw rest -> len (enc_tail rest) <= 22 ->
  wf_packet (Pong (mkPong to tok exp rest))
  /\ len (rlp_encode (Pong (mkPong to tok exp rest))) <= 100.
Proof.
  intros Ht Hti Htok He Hr Hrl.
  assert (Hlen : len (rlp_encode (Pong (mkPong to tok exp rest))) <= 100).
  { cbn [rlp_encode pong_To pong_ReplyTok pong_Expiration pong_Rest].
    pose proof (enc_endpoint_le to Ht Hti).
    pose proof (enc_uint_len exp He).
    pose proof (len_nonneg tok).
    pose proof (proj1 (enc_string_le tok) ltac:(lia)).
    pose proof (len_nonneg (enc_endpoint to)).
    pose proof (len_nonneg (enc_string tok)).
    pose proof (len_nonneg (enc_uint exp)).
    pose proof (len_nonneg (enc_tail rest)).
    set (payload := enc_endpoint to ++ _).
    assert (Hp : len payload <= 88) by (unfold payload; rewrite !len_app; lia).
    pose proof (len_nonneg payload).
    pose proof (proj1 (enc_list_le payload) ltac:(lia)). lia. }
  split; [|exact Hlen]. split; [|lia].
  cbn [wf_fields pong_To pong_Expiration pong_Rest].
  unfold wf_endpoint, uint64_ok, uint16_ok in *. intuition lia.
Qed.

Section BondFacts.
Context {C : Crypto} {K : Collaborators}.
Variable L : CryptoLaws C.

(** A message that fits the buffer of the receiver reaches its handler
    as it was sent. *)
Lemma deliver_handled (sender receiver : udp) (from : UDPAddr) (clk : clock)
  (toID : NodeID) (toaddr : UDPAddr) (m : packet) :
  wf_packet m -> unexported_zero m -> len (rlp_encode m) <= 1000 ->
  GetNodeType (table receiver) (PubkeyID (priv sender)) <> AlienNode ->
  exists mac,
    len mac <= 32
    /\ deliver sender receiver from clk (Send toID toaddr (ptype_of m) m)
       = Some (let '(err, v', evs) :=
                 handle clk m receiver from (PubkeyID (priv sender)) mac in
               (err, v', evs ++ [LogHandled (name m) err])).
Proof.
  intros Hwf Hz Hlen Hna.
  destruct (decodePacket_encodePacket L (priv sender) m Hwf)
    as (buf & Henc & Hreq & Hid & Hhash).
  assert (Hwire : send_wire sender (ptype_of m) m = Some buf).
  { unfold send_wire. rewrite Henc. reflexivity. }
  pose proof (send_wire_len L _ _ _ _ Hwire) as Hbuf.
  exists (slice_to macSize buf). split.
  { unfold slice_to, len. pose proof (firstn_le_length (Z.to_nat macSize) buf).
    change (Z.to_nat macSize) with 32%nat in *. lia. }
  unfold deliver. rewrite Hwire.
  rewrite firstn_all2 by (change headSize with 97 in Hbuf; unfold len in *; lia).
  unfold handlePacket. rewrite Hid, Hreq, Hhash, (zero_unexported_id m Hz).
  destruct (NodeType_eqb _ AlienNode) eqn:E; [|reflexivity].
  apply NodeType_eqb_eq in E. contradiction.
Qed.

Lemma processRest_brother (Rest : list RawValue) (u : udp) (fromID : NodeID) :
  rest_network_id Rest = networkid u ->
  processRestInPingPong Rest u fromID
  = (BrotherNode, with_table u (SetNodeType (table u) fromID BrotherNode)).
Proof.
  intros H. unfold processRestInPingPong. rewrite H, Z.eqb_refl. reflexivity.
Qed.

(** X18.  Two open transports of the same network, whose id is below
    2^63, neither of which has classified the other as alien: when one
    pings the other and neither the ping nor the pong has expired on
    arrival, the pinged transport answers with a pong and classifies the
    pinging node as a brother, and on the pong the pinging transport
    classifies the pinged node as a brother and tells the caller of
    [ping] that the ping is complete. *)
Theorem ping_pong_bond (a b : udp) (addrA addrB : UDPAddr) (now : Time)
  (tloop tarr : Z) (ch : nat) (clkB clkA : clock) :
  networkid a = networkid b -> 0 <= networkid a < 2 ^ 63 ->
  wf_endpoint (ourEndpoint a) -> len (ep_IP (ourEndpoint a)) <= 16 ->
  GetNodeType (table b) (PubkeyID (priv a)) <> AlienNode ->
  GetNodeType (table a) (PubkeyID (priv b)) <> AlienNode ->
  closing a = false -> running (loop a) = true ->
  Forall (fun p => pending_matches (PubkeyID (priv b)) PONGPACKET p = false
                   /\ p_deadline p < tloop + 2 * respTimeout
                   /\ p_deadline p < clk_loop clkA + 2 * respTimeout)
         (plist (loop a)) ->
  tarr < clk_loop clkA + respTimeout ->
  expired (clk_now clkB) (stamp_expiration now) = false ->
  expired (clk_now clkA) (stamp_expiration (clk_stamp clkB)) = false ->
  let a1 := fst (udp_ping now tloop tarr ch a (PubkeyID (priv b)) addrB) in
  exists pingmsg pongmsg b1 evsB a2 evsA,
    snd (udp_ping now tloop tarr ch a (PubkeyID (priv b)) addrB)
    = [Send (PubkeyID (priv b)) addrB PINGPACKET pingmsg]
    /\ deliver a b addrA clkB (Send (PubkeyID (priv b)) addrB PINGPACKET pingmsg)
       = Some (None, b1, Send (PubkeyID (priv a)) addrA PONGPACKET pongmsg :: evsB)
    /\ GetNodeType (table b1) (PubkeyID (priv a)) = BrotherNode
    /\ deliver b a1 addrB clkA (Send (PubkeyID (priv a)) addrA PONGPACKET pongmsg)
       = Some (None, a2, evsA)
    /\ In (ErrcSend ch None) evsA
    /\ GetNodeType (table a2) (PubkeyID (priv b)) = BrotherNode
    /\ plist (loop a2) = plist (loop a).
Proof.
  intros Hnet Hid Hep Hip HnaB HnaA Hopen Hrun Hlist Harr HexpB HexpA a1.
  set (idA := PubkeyID (priv a)) in *. set (idB := PubkeyID (priv b)) in *.
  assert (Hno : Forall (fun p => pending_matches idB PONGPACKET p = false)
                       (plist (loop a))).
  { revert Hlist. apply Forall_impl. tauto. }
  assert (Hd1 : Forall (fun p => p_deadline p < tloop + 2 * respTimeout)
                       (plist (loop a))).
  { revert Hlist. apply Forall_impl. tauto. }
  assert (Hd2 : Forall (fun p => p_deadline p < clk_loop clkA + 2 * respTimeout)
                       (plist (loop a))).
  { revert Hlist. apply Forall_impl. tauto. }
  assert (Hid64 : 0 <= networkid a < 2 ^ 64) by lia.
  (* the ping leaves a *)
  destruct (udp_ping_registers now tloop tarr ch a idB addrB Hopen Hrun Hd1)
    as (Hsent & Hpl & Hr1 & Hc1 & Ht1 & Hpriv1 & Hn1).
  fold a1 in Hsent, Hpl, Hr1, Hc1, Ht1, Hpriv1, Hn1.
  set (pg := mkPing Version (ourEndpoint a) (makeEndpoint addrB 0)
                    (stamp_expiration now) (networkid_rest (networkid a))) in *.
  destruct (networkid_rest_ok (networkid a) Hid64) as [HrestA HrestAl].
  destruct (makeEndpoint_ok addrB 0 ltac:(unfold uint16_ok; lia)) as [HtoB HtoBl].
  destruct (ping_msg_ok (ourEndpoint a) (makeEndpoint addrB 0) (stamp_expiration now)
              (networkid_rest (networkid a)) Hep Hip HtoB HtoBl
              (stamp_expiration_ok now) HrestA HrestAl) as [Hwfpg Hlenpg].
  fold pg in Hwfpg, Hlenpg.
  (* b handles it *)
  destruct (deliver_handled a b addrA clkB idB addrB (Ping pg) Hwfpg I
              ltac:(lia) HnaB) as (mac & Hmac & HdelB).
  cbn [ptype_of handle name] in HdelB. fold idA in HdelB.
  assert (HrestB : processRestInPingPong (ping_Rest pg) b idA
                   = (BrotherNode, with_table b (SetNodeType (table b) idA BrotherNode))).
  { apply processRest_brother. cbn [pg ping_Rest].
    rewrite <- (app_nil_r (networkid_rest (networkid a))).
    rewrite rest_network_id_sent by assumption. exact Hnet. }
  destruct (ping_handle_cases clkB pg b addrA idA mac HexpB) as [_ Hon].
  cbv zeta in Hon. rewrite HrestB in Hon. cbn [fst snd] in Hon.
  destruct Hon as (b2 & evsB & HrB & HtyB).
  { intros [_ Hne]. apply Hne. reflexivity. }
  rewrite HrB in HdelB.
  set (pgm := mkPong (makeEndpoint addrA (ep_TCP (ping_From pg))) mac
                     (stamp_expiration (clk_stamp clkB))
                     (networkid_rest (networkid b))) in *.
  (* the pong *)
  destruct (networkid_rest_ok (networkid b) ltac:(lia)) as [HrestBw HrestBl].
  destruct (makeEndpoint_ok addrA (ep_TCP (ping_From pg)) (proj2 Hep))
    as [HtoA HtoAl].
  destruct (pong_msg_ok (makeEndpoint addrA (ep_TCP (ping_From pg))) mac
              (stamp_expiration (clk_stamp clkB)) (networkid_rest (networkid b))
              HtoA HtoAl Hmac (stamp_expiration_ok _) HrestBw HrestBl)
    as [Hwfpong Hlenpong].
  fold pgm in Hwfpong, Hlenpong.
  assert (HnaA1 : GetNodeType (table a1) (PubkeyID (priv b)) <> AlienNode).
  { rewrite Ht1. exact HnaA. }
  destruct (deliver_handled b a1 addrB clkA idA addrA (Pong pgm) Hwfpong I
              ltac:(lia) HnaA1) as (mac2 & _ & HdelA).
  cbn [ptype_of handle name] in HdelA. fold idB in HdelA.
  set (p := mkPending idB PONGPACKET (tarr + respTimeout) callback_true ch tarr) in *.
  destruct (pong_handle_completes clkA pgm a1 addrB idB mac2 (plist (loop a)) p
              Hc1 Hr1 Hpl Hno) as (H1 & H2 & H3 & H4).
  { unfold pending_matches. cbn [p p_from p_ptype].
    rewrite (proj2 (NodeID_eqb_eq idB idB) eq_refl). reflexivity. }
  { intros data types. split; reflexivity. }
  { apply Forall_app. split; [exact Hd2|].
    constructor; [|constructor]. cbn [p p_deadline]. lia. }
  { exact HexpA. }
  destruct (pong_handle clkA pgm a1 addrB idB mac2) as [[errA a2] evsA] eqn:EA.
  cbn [fst snd] in H1, H2, H3, H4. subst errA evsA.
  exists (Ping pg), (Pong pgm), b2, (evsB ++ [LogHandled (name (Ping pg)) None]),
         a2, ([ErrcSend (p_errc p) None] ++ [LogHandled (name (Pong pgm)) None]).
  split; [exact Hsent|]. split; [exact HdelB|]. split.
  { unfold GetNodeType. rewrite HtyB. cbn [with_table table SetNodeType nodeTypes].
    rewrite (proj2 (NodeID_eqb_eq idA idA) eq_refl). reflexivity. }
  split; [exact HdelA|]. split; [left; reflexivity|]. split; [|exact H3].
  unfold GetNodeType. rewrite H4.
  rewrite (processRest_brother (pong_Rest pgm) a1 idB).
  - cbn [snd with_table table SetNodeType nodeTypes].
    rewrite (proj2 (NodeID_eqb_eq idB idB) eq_refl). reflexivity.
  - cbn [pgm pong_Rest]. rewrite <- (app_nil_r (networkid_rest (networkid b))).
    rewrite rest_network_id_sent by lia. rewrite Hn1. symmetry. exact Hnet.
Qed.

End BondFacts.

(* ================================================================== *)
(** * waitping, and replies that do not complete a request *)
(* ================================================================== *)

Section WaitpingFacts.
Context {C : Crypto} {K : Collaborators} {N : NodeChecks}.

(** [handleReply] when the last entry of the list waits for the reply
    with a callback that reports completion, no entry before it waits for
    it, and no deadline lies too far ahead. *)
Lemma handleReply_completes (tloop : Z) (u : udp) (from : NodeID) (ptype : byte)
  (req : packet) (l : list pending) (p : pending) :
  closing u = false -> running (loop u) = true ->
  plist (loop u) = l ++ [p] ->
  Forall (fun x => pending_matches from ptype x = false) l ->
  pending_matches from ptype p = true ->
  (forall data types, fst (fst (run_callback (p_callback p) data types)) = true
                      /\ snd (fst (run_callback (p_callback p) data types)) = None) ->
  Forall (fun x => p_deadline x < tloop + 2 * respTimeout) (l ++ [p]) ->
  let r := handleReply tloop u from ptype req in
  fst (fst r) = true
  /\ snd r = [ErrcSend (p_errc p) None]
  /\ plist (loop (snd (fst r))) = l
  /\ table (snd (fst r)) = table u.
Proof.
  intros Hopen Hrun Hpl Hno Hp Hcb Hd r. subst r.
  unfold handleReply. rewrite Hopen. unfold loop_step. rewrite Hrun.
  rewrite <- Hpl in Hd.
  destruct (resetTimeout_keeps tloop (loop u) Hd) as (Hp2 & Hr2 & He2).
  destruct (resetTimeout tloop (loop u)) as [st3 evs3]. cbn [fst snd] in *.
  subst evs3. cbn [enabled loop_case]. rewrite Hp2, Hpl.
  destruct (Hcb req (nodeTypes (table u))) as [Hdone Hfb].
  rewrite (gotreply_scan_first (mkReply from ptype req) (table u) l [] p Hno Hp Hdone).
  cbn [r_data] in Hfb. cbn [r_data]. rewrite Hfb.
  cbn [fst snd app plist loop with_loop table]. rewrite app_nil_r. repeat split.
Qed.

Lemma udp_waitping_registers (tloop tarr : Z) (ch : nat) (u : udp) (from : NodeID) :
  closing u = false -> running (loop u) = true ->
  Forall (fun p => p_deadline p < tloop + 2 * respTimeout) (plist (loop u)) ->
  let r := udp_waitping tloop tarr ch u from in
  snd r = []
  /\ plist (loop (fst r))
     = plist (loop u)
       ++ [mkPending from PINGPACKET (tarr + respTimeout) callback_true ch tarr]
  /\ running (loop (fst r)) = true
  /\ closing (fst r) = false
  /\ table (fst r) = table u
  /\ networkid (fst r) = networkid u
  /\ strictNodeCheck (fst r) = strictNodeCheck u.
Proof.
  intros Hopen Hrun Hd r. subst r.
  unfold udp_waitping, submit_pending. rewrite Hopen. unfold loop_step. rewrite Hrun.
  destruct (resetTimeout_keeps tloop (loop u) Hd) as (Hp1 & Hr1 & He1).
  destruct (resetTimeout tloop (loop u)) as [st1 evs1]. cbn [fst snd] in *.
  subst evs1. cbn [enabled loop_case fst snd app loop with_loop plist running
                   closing table networkid strictNodeCheck].
  rewrite Hp1, Hr1. repeat split; assumption.
Qed.

Lemma processRest_type (Rest : list RawValue) (u v : udp) (fromID : NodeID) :
  networkid v = networkid u ->
  fst (processRestInPingPong Rest v fromID) = fst (processRestInPingPong Rest u fromID).
Proof.
  intros H. unfold processRestInPingPong. rewrite H.
  destruct (_ =? networkid u); [reflexivity|]. destruct (negb _); reflexivity.
Qed.

(** X19.  A ping that is answered starts a bond with its sender when no
    entry of the pending list waits for a ping of that node; after
    [waitping] has registered for that node, the same ping is answered,
    tells the caller of [waitping] of the completion, and starts no
    bond. *)
Theorem ping_completes_waitping (tloop tarr : Z) (ch : nat) (u : udp)
  (fromID : NodeID) (clk : clock) (req : ping) (from : UDPAddr) (mac : bytes) :
  closing u = false -> running (loop u) = true ->
  Forall (fun p => pending_matches fromID PINGPACKET p = false
                   /\ p_deadline p < tloop + 2 * respTimeout
                   /\ p_deadline p < clk_loop clk + 2 * respTimeout)
         (plist (loop u)) ->
  tarr < clk_loop clk + respTimeout ->
  expired (clk_now clk) (ping_Expiration req) = false ->
  ~ (strictNodeCheck u = true
     /\ fst (processRestInPingPong (ping_Rest req) u fromID) <> BrotherNode) ->
  let pongmsg :=
    Pong (mkPong (makeEndpoint from (ep_TCP (ping_From req))) mac
                 (stamp_expiration (clk_stamp clk))
                 (networkid_rest (networkid u))) in
  In (GoBond true fromID from (ep_TCP (ping_From req)))
     (snd (ping_handle clk req u from fromID mac))
  /\ snd (ping_handle clk req (fst (udp_waitping tloop tarr ch u fromID))
                      from fromID mac)
     = [Send fromID from PONGPACKET pongmsg; ErrcSend ch None].
Proof.
  intros Hopen Hrun Hlist Harr Hexp Hsend pongmsg. subst pongmsg.
  assert (Hno : Forall (fun p => pending_matches fromID PINGPACKET p = false)
                       (plist (loop u))).
  { revert Hlist. apply Forall_impl. tauto. }
  assert (Hd1 : Forall (fun p => p_deadline p < tloop + 2 * respTimeout)
                       (plist (loop u))).
  { revert Hlist. apply Forall_impl. tauto. }
  assert (Hd2 : Forall (fun p => p_deadline p < clk_loop clk + 2 * respTimeout)
                       (plist (loop u))).
  { revert Hlist. apply Forall_impl. tauto. }
  assert (Hpong : forall v,
             networkid v = networkid u -> strictNodeCheck v = strictNodeCheck u ->
             negb (strictNodeCheck (snd (processRestInPingPong (ping_Rest req) v fromID))
                   && negb (NodeType_eqb
                              (fst (processRestInPingPong (ping_Rest req) v fromID))
                              BrotherNode)) = true
             /\ networkid (snd (processRestInPingPong (ping_Rest req) v fromID))
                = networkid u).
  { intros v Hn Hs.
    destruct (processRest_strict true (ping_Rest req) v fromID) as (_ & _ & Hs' & Hn').
    rewrite Hs', Hn', Hs, (processRest_type _ u v fromID Hn). split; [|exact Hn].
    destruct (strictNodeCheck u); [|reflexivity].
    destruct (NodeType_eqb _ BrotherNode) eqn:E; [reflexivity|].
    exfalso. apply Hsend. split; [reflexivity|]. intros Heq.
    rewrite Heq in E. discriminate. }
  split.
  - (* nobody waits *)
    unfold ping_handle. rewrite Hexp.
    destruct (Hpong u eq_refl eq_refl) as [Hp _].
    destruct (processRest_loop (ping_Rest req) u fromID) as [Hl _].
    destruct (processRestInPingPong (ping_Rest req) u fromID) as [ty u1].
    cbn [fst snd] in *. rewrite Hp.
    rewrite <- Hl in Hno.
    destruct (handleReply_no_match (clk_loop clk) u1 fromID PINGPACKET (Ping req) Hno)
      as [Hm _].
    destruct (handleReply _ _ _ _ _) as [[m u2] evs]. cbn [fst snd] in *. subst m.
    right. apply in_or_app. right. left. reflexivity.
  - (* waitping has registered *)
    destruct (udp_waitping_registers tloop tarr ch u fromID Hopen Hrun Hd1)
      as (_ & Hpl & Hr1 & Hc1 & _ & Hn1 & Hs1).
    set (w := fst (udp_waitping tloop tarr ch u fromID)) in *.
    set (p := mkPending fromID PINGPACKET (tarr + respTimeout) callback_true ch tarr)
      in *.
    unfold ping_handle. rewrite Hexp.
    destruct (Hpong w Hn1 Hs1) as [Hp Hn].
    destruct (processRest_loop (ping_Rest req) w fromID) as [Hl Hc].
    destruct (processRestInPingPong (ping_Rest req) w fromID) as [ty w1].
    cbn [fst snd] in *. rewrite Hp, Hn.
    destruct (handleReply_completes (clk_loop clk) w1 fromID PINGPACKET (Ping req)
                (plist (loop u)) p) as (Hm & He & _).
    + rewrite Hc. exact Hc1.
    + rewrite Hl. exact Hr1.
    + rewrite Hl. exact Hpl.
    + exact Hno.
    + unfold pending_matches. cbn [p p_from p_ptype].
      rewrite (proj2 (NodeID_eqb_eq fromID fromID) eq_refl). reflexivity.
    + intros data types. split; reflexivity.
    + apply Forall_app. split; [exact Hd2|].
      constructor; [|constructor]. cbn [p p_deadline]. lia.
    + destruct (handleReply _ _ _ _ _) as [[m w2] evs]. cbn [fst snd] in *.
      subst m evs. reflexivity.
Qed.

(** X20.  A pong that nobody waits for is rejected with
    [errUnsolicitedReply], and yet the classification that
    [processRestInPingPong] makes of its sender from the Rest field of
    the pong stays in the table. *)
Theorem unsolicited_pong_classifies (clk : clock) (q : pong) (u : udp)
  (from : UDPAddr) (fromID : NodeID) (mac : bytes) :
  expired (clk_now clk) (pong_Expiration q) = false ->
  Forall (fun p => pending_matches fromID PONGPACKET p = false) (plist (loop u)) ->
  fst (fst (pong_handle clk q u from fromID mac)) = Some errUnsolicitedReply
  /\ nodeTypes (table (snd (fst (pong_handle clk q u from fromID mac))))
     = nodeTypes (table (snd (processRestInPingPong (pong_Rest q) u fromID)))
  /\ GetNodeType (table (snd (fst (pong_handle clk q u from fromID mac)))) fromID
     = match fst (processRestInPingPong (pong_Rest q) u fromID) with
       | UnknownNode => GetNodeType (table u) fromID
       | ty => ty
       end.
Proof.
  intros Hexp Hno. unfold pong_handle. rewrite Hexp.
  destruct (processRest_loop (pong_Rest q) u fromID) as [Hl _].
  assert (Hty : GetNodeType (table (snd (processRestInPingPong (pong_Rest q) u fromID)))
                            fromID
                = match fst (processRestInPingPong (pong_Rest q) u fromID) with
                  | UnknownNode => GetNodeType (table u) fromID
                  | ty => ty
                  end).
  { unfold processRestInPingPong, GetNodeType.
    destruct (_ =? networkid u).
    - cbn. rewrite (proj2 (NodeID_eqb_eq fromID fromID) eq_refl). reflexivity.
    - destruct (negb _); [|reflexivity].
      cbn. rewrite (proj2 (NodeID_eqb_eq fromID fromID) eq_refl). reflexivity. }
  destruct (processRestInPingPong (pong_Rest q) u fromID) as [ty u1].
  cbn [fst snd] in *. rewrite <- Hl in Hno.
  destruct (handleReply_no_match (clk_loop clk) u1 fromID PONGPACKET (Pong q) Hno)
    as [Hm _].
  pose proof (handleReply_nodeTypes (clk_loop clk) u1 fromID PONGPACKET (Pong q)) as Ht.
  destruct (handleReply _ _ _ _ _) as [[m u2] evs]. cbn [fst snd] in *. subst m.
  split; [reflexivity|]. split; [exact Ht|].
  unfold GetNodeType in *. rewrite Ht. exact Hty.
Qed.

End WaitpingFacts.

Section FindnodeReplyFacts.
Context {C : Crypto} {K : Collaborators} {N : NodeChecks}.

Lemma gotreply_scan_pending (r : reply) (t : Table) (l : list pending)
  (p : pending) :
  Forall (fun q => pending_matches (r_from r) (r_ptype r) q = false) l ->
  pending_matches (r_from r) (r_ptype r) p = true ->
  fst (fst (run_callback (p_callback p) (r_data r) (nodeTypes t))) = false ->
  gotreply_scan r t (l ++ [p])
  = (true,
     match snd (fst (run_callback (p_callback p) (r_data r) (nodeTypes t))) with
     | Some ns => SetFallbackNodes t ns
     | None => t
     end,
     l ++ [mkPending (p_from p) (p_ptype p) (p_deadline p)
                     (snd (run_callback (p_callback p) (r_data r) (nodeTypes t)))
                     (p_errc p) (p_createAt p)],
     []).
Proof.
  intros Hl Hp Hdone.
  induction Hl as [|q l Hq _ IH]; cbn [app gotreply_scan].
  - unfold pending_matches in Hp. rewrite Hp.
    destruct (run_callback (p_callback p) (r_data r) (nodeTypes t)) as [[done fb] cb'].
    cbn [fst snd] in *. subst done. reflexivity.
  - unfold pending_matches in Hq. rewrite Hq, IH. reflexivity.
Qed.

Lemma udp_findnode_registers (now : Time) (tloop tarr : Z) (ch : nat)
  (netrestrict : option (bytes -> bool)) (u : udp) (toid : NodeID)
  (toaddr : UDPAddr) (target : NodeID) (strict : bool) :
  closing u = false -> running (loop u) = true ->
  Forall (fun p => p_deadline p < tloop + 2 * respTimeout) (plist (loop u)) ->
  let r := udp_findnode now tloop tarr ch netrestrict u toid toaddr target strict in
  plist (loop (fst r))
  = plist (loop u)
    ++ [mkPending toid NEIGHBORSPACKET (tarr + respTimeout)
                  (findnode_callback netrestrict toaddr strict) ch tarr]
  /\ running (loop (fst r)) = true
  /\ closing (fst r) = false
  /\ table (fst r) = table u.
Proof.
  intros Hopen Hrun Hd r. subst r.
  unfold udp_findnode, submit_pending. rewrite Hopen. unfold loop_step. rewrite Hrun.
  destruct (resetTimeout_keeps tloop (loop u) Hd) as (Hp1 & Hr1 & He1).
  destruct (resetTimeout tloop (loop u)) as [st1 evs1]. cbn [fst snd] in *.
  subst evs1. cbn [enabled loop_case fst snd app loop with_loop plist running
                   closing table].
  rewrite Hp1, Hr1. repeat split; assumption.
Qed.

(** X21.  After [udp.findnode] has registered its pending, a neighbors
    packet of the asked node that has not expired is taken as solicited.
    With fewer than [bucketSize] nodes it does not complete the request:
    nobody is told anything, and the pending stays at its place with the
    nodes it has kept and the number of nodes it has received, so that
    the request goes on until further packets bring the count to
    [bucketSize] or the timer ends it.  With [bucketSize] nodes or more
    it completes the request. *)
Theorem findnode_first_reply (now : Time) (tloop tarr : Z) (ch : nat)
  (netrestrict : option (bytes -> bool)) (u : udp) (toid : NodeID)
  (toaddr : UDPAddr) (target : NodeID) (strict : bool) (clk : clock)
  (q : neighbors) (from : UDPAddr) (mac : bytes) :
  closing u = false -> running (loop u) = true ->
  Forall (fun p => pending_matches toid NEIGHBORSPACKET p = false
                   /\ p_deadline p < tloop + 2 * respTimeout
                   /\ p_deadline p < clk_loop clk + 2 * respTimeout)
         (plist (loop u)) ->
  tarr < clk_loop clk + respTimeout ->
  expired (clk_now clk) (neighbors_Expiration q) = false ->
  let u1 := fst (udp_findnode now tloop tarr ch netrestrict u toid toaddr target
                              strict) in
  let r := neighbors_handle clk q u1 from toid mac in
  fst (fst r) = None
  /\ (len (neighbors_Nodes q) < bucketSize ->
      snd r = []
      /\ exists kept,
           plist (loop (snd (fst r)))
           = plist (loop u)
             ++ [mkPending toid NEIGHBORSPACKET (tarr + respTimeout)
                   (Callback (kept, len (neighbors_Nodes q))
                             (findnode_callback_code netrestrict toaddr strict))
                   ch tarr])
  /\ (bucketSize <= len (neighbors_Nodes q) ->
      snd r = [ErrcSend ch None]
      /\ plist (loop (snd (fst r))) = plist (loop u)).
Proof.
  intros Hopen Hrun Hlist Harr Hexp u1 r. subst r.
  assert (Hno : Forall (fun p => pending_matches toid NEIGHBORSPACKET p = false)
                       (plist (loop u))).
  { revert Hlist. apply Forall_impl. tauto. }
  assert (Hd1 : Forall (fun p => p_deadline p < tloop + 2 * respTimeout)
                       (plist (loop u))).
  { revert Hlist. apply Forall_impl. tauto. }
  assert (Hd2 : Forall (fun p => p_deadline p < clk_loop clk + 2 * respTimeout)
                       (plist (loop u))).
  { revert Hlist. apply Forall_impl. tauto. }
  destruct (udp_findnode_registers now tloop tarr ch netrestrict u toid toaddr target
              strict Hopen Hrun Hd1) as (Hpl & Hr1 & Hc1 & Ht1).
  fold u1 in Hpl, Hr1, Hc1, Ht1.
  set (p := mkPending toid NEIGHBORSPACKET (tarr + respTimeout)
                      (findnode_callback netrestrict toaddr strict) ch tarr) in *.
  assert (Hp : pending_matches toid NEIGHBORSPACKET p = true).
  { unfold pending_matches. cbn [p p_from p_ptype].
    rewrite (proj2 (NodeID_eqb_eq toid toid) eq_refl). reflexivity. }
  assert (Hd3 : Forall (fun x => p_deadline x < clk_loop clk + 2 * respTimeout)
                       (plist (loop u1))).
  { rewrite Hpl. apply Forall_app. split; [exact Hd2|].
    constructor; [|constructor]. cbn [p p_deadline]. lia. }
  destruct (findnode_receive_fold netrestrict toaddr strict (nodeTypes (table u1))
              (neighbors_Nodes q) [] 0) as (kept & Hfold & _).
  assert (Hcb : run_callback (p_callback p) (Neighbors q) (nodeTypes (table u1))
                = (bucketSize <=? len (neighbors_Nodes q), None,
                   Callback (kept, len (neighbors_Nodes q))
                            (findnode_callback_code netrestrict toaddr strict))).
  { unfold run_callback. cbn [p p_callback findnode_callback cb_vars cb_code
                              findnode_callback_code].
    rewrite Hfold. cbn [fst snd app]. reflexivity. }
  unfold neighbors_handle. rewrite Hexp.
  unfold handleReply. rewrite Hc1. unfold loop_step. rewrite Hr1.
  destruct (resetTimeout_keeps (clk_loop clk) (loop u1) Hd3) as (Hp2 & Hr2 & He2).
  destruct (resetTimeout (clk_loop clk) (loop u1)) as [st3 evs3]. cbn [fst snd] in *.
  subst evs3. cbn [enabled loop_case]. rewrite Hp2, Hpl.
  destruct (Z.leb_spec bucketSize (len (neighbors_Nodes q))) as [Hfull|Hless].
  - rewrite (gotreply_scan_first (mkReply toid NEIGHBORSPACKET (Neighbors q))
               (table u1) (plist (loop u)) [] p Hno Hp)
      by (cbn [r_data]; rewrite Hcb; reflexivity).
    cbn [r_data]. rewrite Hcb.
    cbn [fst snd app plist loop with_loop]. rewrite app_nil_r.
    split; [reflexivity|]. split; [intros; lia|]. intros _. split; reflexivity.
  - rewrite (gotreply_scan_pending (mkReply toid NEIGHBORSPACKET (Neighbors q))
               (table u1) (plist (loop u)) p Hno Hp)
      by (cbn [r_data]; rewrite Hcb; reflexivity).
    cbn [r_data]. rewrite Hcb.
    cbn [fst snd app plist loop with_loop].
    split; [reflexivity|]. split; [|intros; lia]. intros _. split; [reflexivity|].
    exists kept. reflexivity.
Qed.

End FindnodeReplyFacts.

Section FindvalueReplyFacts.
Context {C : Crypto} {K : Collaborators} {N : NodeChecks}.

Lemma udp_findvalue_registers (now : Time) (tloop tarr : Z) (ch : nat) (u : udp)
  (key toid : NodeID) (toaddr : UDPAddr) :
  closing u = false -> running (loop u) = true ->
  Forall (fun p => p_deadline p < tloop + 2 * respTimeout) (plist (loop u)) ->
  let r := udp_findvalue_one now tloop tarr ch u key toid toaddr in
  snd r = [Send toid toaddr FINDVALUEPACKET
             (Findvalue (mkFindvalue key (stamp_expiration now)))]
  /\ plist (loop (fst r))
     = plist (loop u)
       ++ [mkPending toid FINDVALUEREPLYPACKET (tarr + respTimeout)
                     findvalue_callback ch tarr]
  /\ running (loop (fst r)) = true
  /\ closing (fst r) = false
  /\ table (fst r) = table u.
Proof.
  intros Hopen Hrun Hd r. subst r.
  unfold udp_findvalue_one, submit_pending. rewrite Hopen.
  unfold loop_step. rewrite Hrun.
  destruct (resetTimeout_keeps tloop (loop u) Hd) as (Hp1 & Hr1 & He1).
  destruct (resetTimeout tloop (loop u)) as [st1 evs1]. cbn [fst snd] in *.
  subst evs1. cbn [enabled loop_case fst snd app loop with_loop plist running
                   closing table].
  rewrite Hp1, Hr1. repeat split; assumption.
Qed.

(** X22.  After a goroutine of [udp.findvalue] has sent its request and
    registered its pending, the first findvalueReply of the asked node
    that has not expired completes it: the fallback nodes of the table
    become the nodes that [ParseNode] makes of the pieces between the
    commas of the value, whatever the key of the reply, the rest of the
    table stays as it is, the caller is told of the completion, and the
    pending list is as it was before the request. *)
Theorem findvalue_sets_fallback_nodes (now : Time) (tloop tarr : Z) (ch : nat)
  (u : udp) (key toid : NodeID) (toaddr : UDPAddr) (clk : clock)
  (q : findvalueReply) (from : UDPAddr) (mac : bytes) :
  closing u = false -> running (loop u) = true ->
  Forall (fun p => pending_matches toid FINDVALUEREPLYPACKET p = false
                   /\ p_deadline p < tloop + 2 * respTimeout
                   /\ p_deadline p < clk_loop clk + 2 * respTimeout)
         (plist (loop u)) ->
  tarr < clk_loop clk + respTimeout ->
  expired (clk_now clk) (findvalueReply_Expiration q) = false ->
  let u1 := fst (udp_findvalue_one now tloop tarr ch u key toid toaddr) in
  let r := findvalueReply_handle clk q u1 from toid mac in
  fst (fst r) = None
  /\ snd r = [ErrcSend ch None]
  /\ table (snd (fst r))
     = SetFallbackNodes (table u)
         (parse_nodes (Split comma_byte (findvalueReply_Value q)))
  /\ plist (loop (snd (fst r))) = plist (loop u).
Proof.
  intros Hopen Hrun Hlist Harr Hexp u1 r. subst r.
  assert (Hno : Forall (fun p => pending_matches toid FINDVALUEREPLYPACKET p = false)
                       (plist (loop u))).
  { revert Hlist. apply Forall_impl. tauto. }
  assert (Hd1 : Forall (fun p => p_deadline p < tloop + 2 * respTimeout)
                       (plist (loop u))).
  { revert Hlist. apply Forall_impl. tauto. }
  assert (Hd2 : Forall (fun p => p_deadline p < clk_loop clk + 2 * respTimeout)
                       (plist (loop u))).
  { revert Hlist. apply Forall_impl. tauto. }
  destruct (udp_findvalue_registers now tloop tarr ch u key toid toaddr
              Hopen Hrun Hd1) as (_ & Hpl & Hr1 & Hc1 & Ht1).
  fold u1 in Hpl, Hr1, Hc1, Ht1.
  set (p := mkPending toid FINDVALUEREPLYPACKET (tarr + respTimeout)
                      findvalue_callback ch tarr) in *.
  assert (Hp : pending_matches toid FINDVALUEREPLYPACKET p = true).
  { unfold pending_matches. cbn [p p_from p_ptype].
    rewrite (proj2 (NodeID_eqb_eq toid toid) eq_refl). reflexivity. }
  assert (Hd3 : Forall (fun x => p_deadline x < clk_loop clk + 2 * respTimeout)
                       (plist (loop u1))).
  { rewrite Hpl. apply Forall_app. split; [exact Hd2|].
    constructor; [|constructor]. cbn [p p_deadline]. lia. }
  unfold findvalueReply_handle. rewrite Hexp.
  unfold handleReply. rewrite Hc1. unfold loop_step. rewrite Hr1.
  destruct (resetTimeout_keeps (clk_loop clk) (loop u1) Hd3) as (Hp2 & Hr2 & He2).
  destruct (resetTimeout (clk_loop clk) (loop u1)) as [st3 evs3]. cbn [fst snd] in *.
  subst evs3. cbn [enabled loop_case]. rewrite Hp2, Hpl.
  rewrite (gotreply_scan_first (mkReply toid FINDVALUEREPLYPACKET (FindvalueReply q))
             (table u1) (plist (loop u)) [] p Hno Hp eq_refl).
  cbn [fst snd app plist loop with_loop table r_data p p_callback p_errc
       run_callback findvalue_callback cb_vars cb_code findvalue_callback_code].
  rewrite app_nil_r, Ht1. repeat split.
Qed.

End FindvalueReplyFacts.

(* ================================================================== *)
(** * The properties above on concrete inputs *)
(* ================================================================== *)

Import SampleRun.

Lemma loop_run_answers_once_witness :
  NoDup (map p_errc (plist two_pendings) ++ arrivals sample_turns)
  /\ NoDup (errc_sends (snd (loop_run sample_turns table0 two_pendings)))
  /\ incl (errc_sends (snd (loop_run sample_turns table0 two_pendings)))
          (map p_errc (plist two_pendings) ++ arrivals sample_turns).
Proof.
  assert (H : NoDup (map p_errc (plist two_pendings) ++ arrivals sample_turns)).
  { vm_compute. repeat constructor; cbn; intuition discriminate. }
  split; [exact H|].
  exact (loop_run_answers_once sample_turns table0 two_pendings H).
Defined.



Lemma handlePacket_error_sends_nothing_witness :
  fst (fst (handlePacket clock_late (udp0 99 false) addr1 packet_from_k2))
  = Some errExpired
  /\ Forall (fun ev => ~ outgoing ev)
            (snd (handlePacket clock_late (udp0 99 false) addr1 packet_from_k2)).
Proof.
  assert (H : fst (fst (handlePacket clock_late (udp0 99 false) addr1 packet_from_k2))
              = Some errExpired) by (vm_compute; reflexivity).
  split; [exact H|].
  exact (handlePacket_error_sends_nothing clock_late (udp0 99 false) addr1
           packet_from_k2 errExpired H).
Defined.

Lemma findnode_strict_flag_not_transmitted_witness :
  In (Send id1 addr1 FINDNODEPACKET
        (Findnode (mkFindnode id2 (stamp_expiration noon) (findnode_rest true))))
     (snd (udp_findnode noon 0 0 5%nat None (udp0 99 true) id1 addr1 id2 true))
  /\ expired (clk_now clock0) (stamp_expiration noon) = false
  /\ db_node (table udp_full) id1 <> None
  /\ findnode_handle clock0
       (mkFindnode id2 (stamp_expiration noon) (findnode_rest true))
       udp_full addr1 id1 []
     = (None, udp_full,
        map (fun p => Send id1 addr1 NEIGHBORSPACKET (Neighbors p))
            (neighbors_chunks (stamp_expiration (clk_stamp clock0)) (addr_IP addr1) []
               (closest (buckets (table udp_full)) (nodeTypes (table udp_full))
                        (Keccak256 id2) bucketSize EitherUncleAndBrother))).
Proof.
  assert (H1 : In (Send id1 addr1 FINDNODEPACKET
                     (Findnode (mkFindnode id2 (stamp_expiration noon)
                                           (findnode_rest true))))
                  (snd (udp_findnode noon 0 0 5%nat None (udp0 99 true) id1 addr1
                                     id2 true))).
  { left. reflexivity. }
  assert (H2 : expired (clk_now clock0) (stamp_expiration noon) = false)
    by (vm_compute; reflexivity).
  assert (H3 : db_node (table udp_full) id1 <> None) by (vm_compute; discriminate).
  split; [exact H1|]. split; [exact H2|]. split; [exact H3|].
  exact (findnode_strict_flag_not_transmitted noon 0 0 5%nat None (udp0 99 true)
           id1 addr1 id2 true
           (mkFindnode id2 (stamp_expiration noon) (findnode_rest true))
           clock0 udp_full addr1 id1 [] H1 H2 H3).
Defined.

Lemma far_nodes_sized :
  forall (target : bytes) (n : Z) (mt : MatchType),
    Forall sized_node
           (closest (buckets (table udp_full)) (nodeTypes (table udp_full))
                    target n mt).
Proof.
  intros target n mt. apply Forall_forall. intros x Hx.
  cbn [closest collaborators] in Hx. apply In_firstn in Hx.
  revert x Hx. apply Forall_forall.
  repeat constructor; vm_compute; intuition discriminate.
Qed.

Lemma neighbors_packets_fit_witness :
  (forall target n mt,
     Forall sized_node
            (closest (buckets (table udp_full)) (nodeTypes (table udp_full))
                     target n mt))
  /\ In (Send id1 addr1 NEIGHBORSPACKET first_neighbors)
        (snd (findnode_handle clock0 (mkFindnode id2 2000 []) udp_full addr1 id1 []))
  /\ send_wire udp_full NEIGHBORSPACKET first_neighbors = Some first_neighbors_wire
  /\ len first_neighbors_wire < 1280.
Proof.
  assert (H2 : In (Send id1 addr1 NEIGHBORSPACKET first_neighbors)
                  (snd (findnode_handle clock0 (mkFindnode id2 2000 []) udp_full
                                        addr1 id1 []))).
  { vm_compute. left. reflexivity. }
  assert (H3 : send_wire udp_full NEIGHBORSPACKET first_neighbors
               = Some first_neighbors_wire) by (vm_compute; reflexivity).
  split; [exact far_nodes_sized|]. split; [exact H2|]. split; [exact H3|].
  exact (neighbors_packets_fit sample_crypto_laws clock0 (mkFindnode id2 2000 [])
           udp_full addr1 id1 [] id1 addr1 NEIGHBORSPACKET first_neighbors
           first_neighbors_wire far_nodes_sized H2 H3).
Defined.

Lemma findvalue_reply_read_back_witness :
  Forall (fun v => ~ In comma_byte v) (GetKey (kv (table udp_kv)) id2)
  /\ findvalue_callback_code tt
       (FindvalueReply
          (mkFindvalueReply id2
             (join_commas (findvalue_selection (UnixNano noon)
                                               (GetKey (kv (table udp_kv)) id2)))
             (stamp_expiration noon)))
       (fun _ => UnknownNode)
     = (true,
        Some (parse_nodes (findvalue_selection (UnixNano noon)
                                               (GetKey (kv (table udp_kv)) id2)
                           ++ [[]])),
        tt).
Proof.
  assert (H1 : Forall (fun v => ~ In comma_byte v) (GetKey (kv (table udp_kv)) id2)).
  { vm_compute. repeat constructor; intuition discriminate. }
  split; [exact H1|].
  refine (findvalue_reply_read_back clock0 (mkFindvalue id2 2000) udp_kv addr1 id1 []
            id1 addr1 FINDVALUEREPLYPACKET _ (fun _ => UnknownNode) H1 _).
  left. reflexivity.
Defined.

Lemma unsolicited_reply_witness :
  is_reply (Pong pong_plain) = true
  /\ expired (clk_now clock0) (Expiration_of (Pong pong_plain)) = false
  /\ Forall (fun q => pending_matches id2 (ptype_of (Pong pong_plain)) q = false)
            (plist (loop (udp0 99 false)))
  /\ fst (fst (handle clock0 (Pong pong_plain) (udp0 99 false) addr1 id2 []))
     = Some errUnsolicitedReply.
Proof.
  assert (H2 : expired (clk_now clock0) (Expiration_of (Pong pong_plain)) = false)
    by (vm_compute; reflexivity).
  assert (H3 : Forall (fun q => pending_matches id2 (ptype_of (Pong pong_plain)) q
                                = false)
                      (plist (loop (udp0 99 false)))) by constructor.
  split; [reflexivity|]. split; [exact H2|]. split; [exact H3|].
  exact (proj1 (unsolicited_reply clock0 (Pong pong_plain) (udp0 99 false) addr1 id2 []
                  eq_refl H2 H3)).
Defined.

Lemma stamped_packet_lifetime_witness :
  0 <= 1000 < 2 ^ 62 /\ 0 <= 5 < 1000000000 /\ 0 <= 1020 < 2 ^ 62
  /\ (expired (mkTime (1020 + unixToInternal) 1)
              (stamp_expiration (mkTime (1000 + unixToInternal) 5)) = true
      <-> 1000 + 20 < 1020 \/ (1000 + 20 = 1020 /\ 0 < 1)).
Proof.
  assert (H1 : 0 <= 1000 < 2 ^ 62) by lia.
  assert (H2 : 0 <= 5 < 1000000000) by lia.
  assert (H3 : 0 <= 1020 < 2 ^ 62) by lia.
  split; [exact H1|]. split; [exact H2|]. split; [exact H3|].
  exact (stamped_packet_lifetime 1000 5 1020 1 H1 H2 H3).
Defined.



Lemma readLoop_ignores_alien_witness :
  GetNodeType (table (udp_alien 99 false)) id2 = AlienNode
  /\ GetNodeType (table (fst (fst (readLoop sample_reads (udp_alien 99 false))))) id2
     = AlienNode
  /\ Forall (fun e => ~ reaches id2 e)
            (snd (fst (readLoop sample_reads (udp_alien 99 false)))).
Proof.
  assert (H : GetNodeType (table (udp_alien 99 false)) id2 = AlienNode)
    by (vm_compute; reflexivity).
  split; [exact H|].
  exact (readLoop_ignores_alien sample_reads (udp_alien 99 false) id2 H).
Defined.

Lemma ping_completed_by_pong_witness :
  closing alice = false /\ running (loop alice) = true
  /\ 0 < clk_loop clock0 + respTimeout
  /\ expired (clk_now clock0) (pong_Expiration pong_plain) = false
  /\ snd (pong_handle clock0 pong_plain
            (fst (udp_ping noon 0 0 7%nat alice id2 addr2)) addr2 id2 [])
     = [ErrcSend 7%nat None].
Proof.
  assert (H3 : 0 < clk_loop clock0 + respTimeout) by (vm_compute; reflexivity).
  assert (H4 : expired (clk_now clock0) (pong_Expiration pong_plain) = false)
    by (vm_compute; reflexivity).
  split; [reflexivity|]. split; [reflexivity|]. split; [exact H3|].
  split; [exact H4|].
  exact (proj1 (proj2 (ping_completed_by_pong noon 0 0 7%nat alice id2 addr2 clock0
                         pong_plain addr2 [] eq_refl eq_refl
                         (Forall_nil _) H3 H4))).
Defined.

Lemma ping_pong_bond_witness :
  networkid alice = networkid bob /\ 0 <= networkid alice < 2 ^ 63
  /\ wf_endpoint (ourEndpoint alice) /\ len (ep_IP (ourEndpoint alice)) <= 16
  /\ GetNodeType (table bob) (PubkeyID (priv alice)) <> AlienNode
  /\ GetNodeType (table alice) (PubkeyID (priv bob)) <> AlienNode
  /\ expired (clk_now clock0) (stamp_expiration noon) = false
  /\ exists pingmsg pongmsg b1 evsB a2 evsA,
       snd (udp_ping noon 0 0 7%nat alice (PubkeyID (priv bob)) addr2)
       = [Send (PubkeyID (priv bob)) addr2 PINGPACKET pingmsg]
       /\ deliver alice bob addr1 clock0
                  (Send (PubkeyID (priv bob)) addr2 PINGPACKET pingmsg)
          = Some (None, b1,
                  Send (PubkeyID (priv alice)) addr1 PONGPACKET pongmsg :: evsB)
       /\ GetNodeType (table b1) (PubkeyID (priv alice)) = BrotherNode
       /\ deliver bob (fst (udp_ping noon 0 0 7%nat alice (PubkeyID (priv bob)) addr2))
                  addr2 clock0
                  (Send (PubkeyID (priv alice)) addr1 PONGPACKET pongmsg)
          = Some (None, a2, evsA)
       /\ In (ErrcSend 7%nat None) evsA
       /\ GetNodeType (table a2) (PubkeyID (priv bob)) = BrotherNode
       /\ plist (loop a2) = plist (loop alice).
Proof.
  assert (H1 : 0 <= networkid alice < 2 ^ 63) by (cbn; lia).
  assert (H2 : wf_endpoint (ourEndpoint alice))
    by (unfold wf_endpoint, uint16_ok; cbn; lia).
  assert (H3 : len (ep_IP (ourEndpoint alice)) <= 16) by (vm_compute; discriminate).
  assert (H4 : GetNodeType (table bob) (PubkeyID (priv alice)) <> AlienNode)
    by (vm_compute; discriminate).
  assert (H5 : GetNodeType (table alice) (PubkeyID (priv bob)) <> AlienNode)
    by (vm_compute; discriminate).
  assert (H6 : 0 < clk_loop clock0 + respTimeout) by (vm_compute; reflexivity).
  assert (H7 : expired (clk_now clock0) (stamp_expiration noon) = false)
    by (vm_compute; reflexivity).
  split; [reflexivity|]. split; [exact H1|]. split; [exact H2|]. split; [exact H3|].
  split; [exact H4|]. split; [exact H5|]. split; [exact H7|].
  exact (ping_pong_bond sample_crypto_laws alice bob addr1 addr2 noon 0 0 7%nat
           clock0 clock0 eq_refl H1 H2 H3 H4 H5 eq_refl eq_refl (Forall_nil _)
           H6 H7 H7).
Defined.

Lemma ping_completes_waitping_witness :
  closing alice = false /\ running (loop alice) = true
  /\ 0 < clk_loop clock0 + respTimeout
  /\ expired (clk_now clock0) (ping_Expiration ping_net99) = false
  /\ In (GoBond true id2 addr2 (ep_TCP (ping_From ping_net99)))
        (snd (ping_handle clock0 ping_net99 alice addr2 id2 []))
  /\ snd (ping_handle clock0 ping_net99 (fst (udp_waitping 0 0 9%nat alice id2))
                      addr2 id2 [])
     = [Send id2 addr2 PONGPACKET
          (Pong (mkPong (makeEndpoint addr2 (ep_TCP (ping_From ping_net99))) []
                        (stamp_expiration (clk_stamp clock0))
                        (networkid_rest (networkid alice))));
        ErrcSend 9%nat None].
Proof.
  assert (H3 : 0 < clk_loop clock0 + respTimeout) by (vm_compute; reflexivity).
  assert (H4 : expired (clk_now clock0) (ping_Expiration ping_net99) = false)
    by (vm_compute; reflexivity).
  assert (H5 : ~ (strictNodeCheck alice = true
                  /\ fst (processRestInPingPong (ping_Rest ping_net99) alice id2)
                     <> BrotherNode)).
  { intros [H _]. discriminate. }
  split; [reflexivity|]. split; [reflexivity|]. split; [exact H3|].
  split; [exact H4|].
  exact (ping_completes_waitping 0 0 9%nat alice id2 clock0 ping_net99 addr2 []
           eq_refl eq_refl (Forall_nil _) H3 H4 H5).
Defined.

Lemma unsolicited_pong_classifies_witness :
  expired (clk_now clock0) (pong_Expiration pong_net42) = false
  /\ Forall (fun p => pending_matches id2 PONGPACKET p = false) (plist (loop alice))
  /\ GetNodeType (table alice) id2 = UnknownNode
  /\ fst (fst (pong_handle clock0 pong_net42 alice addr2 id2 []))
     = Some errUnsolicitedReply
  /\ GetNodeType (table (snd (fst (pong_handle clock0 pong_net42 alice addr2 id2 []))))
                 id2
     = AlienNode.
Proof.
  assert (H1 : expired (clk_now clock0) (pong_Expiration pong_net42) = false)
    by (vm_compute; reflexivity).
  assert (H2 : Forall (fun p => pending_matches id2 PONGPACKET p = false)
                      (plist (loop alice))) by constructor.
  split; [exact H1|]. split; [exact H2|]. split; [reflexivity|].
  destruct (unsolicited_pong_classifies clock0 pong_net42 alice addr2 id2 [] H1 H2)
    as (Ha & _ & Hb).
  split; [exact Ha | exact Hb].
Defined.

Lemma findnode_first_reply_witness :
  closing alice = false /\ running (loop alice) = true
  /\ 0 < clk_loop clock0 + respTimeout
  /\ expired (clk_now clock0) (neighbors_Expiration one_neighbor) = false
  /\ len (neighbors_Nodes one_neighbor) < bucketSize
  /\ fst (fst (neighbors_handle clock0 one_neighbor
                 (fst (udp_findnode noon 0 0 4%nat None alice id2 addr2 id1 false))
                 addr2 id2 []))
     = None
  /\ snd (neighbors_handle clock0 one_neighbor
            (fst (udp_findnode noon 0 0 4%nat None alice id2 addr2 id1 false))
            addr2 id2 [])
     = [].
Proof.
  assert (H3 : 0 < clk_loop clock0 + respTimeout) by (vm_compute; reflexivity).
  assert (H4 : expired (clk_now clock0) (neighbors_Expiration one_neighbor) = false)
    by (vm_compute; reflexivity).
  assert (H5 : len (neighbors_Nodes one_neighbor) < bucketSize)
    by (vm_compute; reflexivity).
  split; [reflexivity|]. split; [reflexivity|]. split; [exact H3|].
  split; [exact H4|]. split; [exact H5|].
  destruct (findnode_first_reply noon 0 0 4%nat None alice id2 addr2 id1 false clock0
              one_neighbor addr2 [] eq_refl eq_refl (Forall_nil _) H3 H4)
    as (Ha & Hb & _).
  split; [exact Ha | exact (proj1 (Hb H5))].
Defined.

Lemma findvalue_sets_fallback_nodes_witness :
  closing alice = false /\ running (loop alice) = true
  /\ 0 < clk_loop clock0 + respTimeout
  /\ expired (clk_now clock0) (findvalueReply_Expiration reply_two) = false
  /\ snd (findvalueReply_handle clock0 reply_two
            (fst (udp_findvalue_one noon 0 0 6%nat alice id1 id2 addr2)) addr2 id2 [])
     = [ErrcSend 6%nat None]
  /\ table (snd (fst (findvalueReply_handle clock0 reply_two
                        (fst (udp_findvalue_one noon 0 0 6%nat alice id1 id2 addr2))
                        addr2 id2 [])))
     = SetFallbackNodes (table alice)
         (parse_nodes (Split comma_byte (findvalueReply_Value reply_two))).
Proof.
  assert (H3 : 0 < clk_loop clock0 + respTimeout) by (vm_compute; reflexivity).
  assert (H4 : expired (clk_now clock0) (findvalueReply_Expiration reply_two) = false)
    by (vm_compute; reflexivity).
  split; [reflexivity|]. split; [reflexivity|]. split; [exact H3|].
  split; [exact H4|].
  destruct (findvalue_sets_fallback_nodes noon 0 0 6%nat alice id1 id2 addr2 clock0
              reply_two addr2 [] eq_refl eq_refl (Forall_nil _) H3 H4)
    as (_ & Ha & Hb & _).
  split; [exact Ha | exact Hb].
Defined.
